(** * editflow: timing tree, animation evaluators and grid resolver

    A shallow embedding of the Python package [editflow]
    (component.py, tape.py, sound.py, film.py, screen.py, effects.py,
    misc.py, grid.py, animations.py) and the properties its
    specification states about it.

    Conventions of the embedding.
    - Python floats (times, coordinates, weights) are exact rationals [Q];
      Python ints are [Z], injected into [Q] where the source mixes them.
      Where a statement equates a time with an expression, the expression
      is the one the source evaluates, in its order.
    - An exception is a value of [exn]; a call that may raise returns a
      [result].
    - Python objects that the source shares between aliases (component
      instances, their [children] and [effects] lists, their
      [AnimationSet]) live in a [Store] and are named by locations. *)

From Stdlib Require Import QArith ZArith Qround Qabs Bool List String Ascii Lia Lqa.
Import ListNotations.

Set Implicit Arguments.

Open Scope Q_scope.

(** ** Python values, exceptions and arithmetic *)

Inductive exn : Type :=
| ValueError
| RuntimeError
| TypeError
| IndexError
| ZeroDivisionError
| RecursionError.

Inductive result (A : Type) : Type :=
| Ok (a : A)
| Raise (e : exn).

Arguments Ok {A} a.
Arguments Raise {A} e.

Definition bind {A B : Type} (r : result A) (k : A -> result B) : result B :=
  match r with
  | Ok a => k a
  | Raise e => Raise e
  end.

Notation "x <- r ;; k" := (bind r (fun x => k))
  (at level 61, r at next level, right associativity).

(** [x < y] and [x <= y] on floats. *)
Definition Qltb (x y : Q) : bool := negb (Qle_bool y x).
Definition Qleb (x y : Q) : bool := Qle_bool x y.

(** [x / y]: raises [ZeroDivisionError] when [y == 0]. *)
Definition py_div (x y : Q) : result Q :=
  if Qeq_bool y 0 then Raise ZeroDivisionError else Ok (x / y).

(** [int(x)] on a float truncates toward zero; [math.floor(x)] rounds down. *)
Definition py_int (x : Q) : Z := Z.quot (Qnum x) (Zpos (Qden x)).
Definition math_floor (x : Q) : Z := Qfloor x.

(** [len(xs)] *)
Definition len {A : Type} (xs : list A) : Z := Z.of_nat (List.length xs).

(** [xs[i]] for an int [i]: negative indices count from the end, an index
    out of range raises [IndexError]. *)
Definition getitem {A : Type} (xs : list A) (i : Z) : result A :=
  let j := if (i <? 0)%Z then (len xs + i)%Z else i in
  if (j <? 0)%Z then Raise IndexError
  else match nth_error xs (Z.to_nat j) with
       | Some x => Ok x
       | None => Raise IndexError
       end.

(** [max(a, b)] keeps its first argument unless the second is greater. *)
Definition max2 (a b : Q) : Q := if Qltb a b then b else a.

(** [max(xs, default=d)]: the first greatest item, [d] on an empty list. *)
Definition max_list (xs : list Q) (default : Q) : Q :=
  match xs with
  | [] => default
  | x :: rest => fold_left max2 rest x
  end.

(** A position or a size: a Python pair of numbers. *)
Definition pair2 : Type := (Q * Q)%type.

(** ** easings.py (the curves used below) *)

Definition easeInQuad (x : Q) : Q := x * x.

Definition easeOutQuad (x : Q) : Q := 1 - (1 - x) * (1 - x).

Definition easeInQubic (x : Q) : Q := x * x * x.

(** ** misc.py *)

Definition interpolate (a b weight : Q) : Q :=
  let weight := if Qeq_bool weight 0 then weight + 0.0001 else weight in
  a + (b - a) * weight.

(** ** effects.py *)

(** [math.floor(easing_func(x) * 1000) / 1000] *)
Definition quantize (easing_func : Q -> Q) (x : Q) : Q :=
  inject_Z (math_floor (easing_func x * 1000)) / 1000.

(** In the three evaluators the source tests [t < start_delay] and then
    [elif t >= start_delay]; on rationals the second test is the negation of
    the first, so it is the [else] branch here. *)

Definition oneToZeroAnim (t duration start_delay : Q)
    (easing_func : Q -> Q) : result Q :=
  if Qltb t start_delay then Ok 0.0
  else
    if Qltb duration (t - start_delay) then Ok 1.0
    else
      normalized_t <- py_div (t - start_delay) duration ;;
      let relWeight := quantize easing_func normalized_t in
      Ok (interpolate 0.0 1.0 relWeight).

Definition moveAnim (t : Q) (from_position to_position : pair2)
    (duration start_delay : Q) (easing_func : Q -> Q) : result pair2 :=
  if Qltb t start_delay then Ok from_position
  else
    if Qltb duration (t - start_delay) then Ok to_position
    else
      normalized_t <- py_div (t - start_delay) duration ;;
      let relWeight := quantize easing_func normalized_t in
      let interpolated_pos :=
        (inject_Z (py_int (interpolate (fst from_position) (fst to_position) relWeight)),
         inject_Z (py_int (interpolate (snd from_position) (snd to_position) relWeight))) in
      Ok interpolated_pos.

Definition moveToMany (t : Q) (positions : list pair2)
    (each ease_duration start_delay : Q) (easing_func : Q -> Q)
    : result pair2 :=
  let duration := inject_Z (len positions) * each in
  if Qltb t start_delay then getitem positions 0
  else
    let t := t - start_delay in
    if Qleb duration t then getitem positions (-1)
    else
      q <- py_div t each ;;
      let current_index := py_int q in
      if (len positions - 1 <=? current_index)%Z then getitem positions (-1)
      else
        let segment_start_time := inject_Z current_index * each in
        let segment_time := t - segment_start_time in
        if Qleb segment_time ease_duration then
          progress <- py_div segment_time ease_duration ;;
          let relweight := quantize easing_func progress in
          p <- getitem positions current_index ;;
          p' <- getitem positions (current_index + 1) ;;
          Ok (inject_Z (py_int (interpolate (fst p) (fst p') relweight)),
              inject_Z (py_int (interpolate (snd p) (snd p') relweight)))
        else getitem positions (current_index + 1).

(** ** grid.py *)

(** The MoviePy objects the package handles, as far as it reads or stamps
    them: an audio clip, the placement of a video clip (a fixed coordinate or
    a function of time), a video clip and an effect. The [with_*] methods of
    MoviePy return an updated clip. *)
Record AudioClip : Type := mkAudioClip {
  audio_duration : Q;
  audio_start : Q;
  audio_source_offset : Q;
  audio_effects : list (string * Q)
}.

Inductive Position : Type :=
| PositionDefault
| PositionAt (coord : pair2)
| PositionFn (f : Q -> result pair2).

Record Clip : Type := mkClip {
  clip_duration : Q;
  clip_w : Q;
  clip_h : Q;
  clip_start : Q;
  clip_position : Position;
  clip_layer_index : Z;
  clip_audio : option AudioClip
}.

(** An effect object of MoviePy: what its [apply] makes of a clip is up to
    the effect, its duration included. *)
Record Effect : Type := mkEffect {
  effect_name : string;
  effect_apply : Clip -> Clip
}.

(** [str.lower()] and [str.strip(" ")] on ASCII strings. *)
Definition lower_ascii (c : ascii) : ascii :=
  let n := nat_of_ascii c in
  if ((65 <=? n) && (n <=? 90))%nat then ascii_of_nat (n + 32) else c.

Fixpoint lower (s : string) : string :=
  match s with
  | EmptyString => EmptyString
  | String c s' => String (lower_ascii c) (lower s')
  end.

Fixpoint lstrip_space (s : string) : string :=
  match s with
  | String " "%char s' => lstrip_space s'
  | _ => s
  end.

Fixpoint rstrip_space (s : string) : string :=
  match s with
  | EmptyString => EmptyString
  | String c s' =>
      match rstrip_space s' with
      | EmptyString => if Ascii.eqb c " "%char then EmptyString else String c EmptyString
      | r => String c r
      end
  end.

Definition strip_space (s : string) : string := rstrip_space (lstrip_space s).

Record GridSystem : Type := mkGridSystem {
  screen_size : pair2;
  column_gap : Q;
  row_gap : Q
}.

(** [GridSystem.__init__] *)
Definition GridSystem_init (screen_size : pair2) : GridSystem :=
  {| screen_size := screen_size;
     column_gap := fst screen_size / 12;
     row_gap := snd screen_size / 12 |}.

(** [GridSystem.get_coords]; [pos] is (row, column), [span] is not used. *)
Definition get_coords (self : GridSystem) (clip : Clip) (pos : pair2)
    (anchor : string) (offset : pair2) : result pair2 :=
  let column_gap := column_gap self in
  let row_gap := row_gap self in
  let offset_anchor := strip_space (lower anchor) in
  let row := fst pos in
  let column := snd pos in
  let default_x := column * column_gap in
  let default_y := row * row_gap in
  let offset_x := fst offset in
  let offset_y := snd offset in
  let w := clip_w clip in
  let h := clip_h clip in
  if String.eqb offset_anchor "center" then
    Ok ((default_x + column_gap/2) - w/2, (default_y + row_gap/2) - h/2)
  else if String.eqb offset_anchor "left" then
    Ok (default_x - offset_x*(w/2), (default_y + row_gap/2) - h/2)
  else if String.eqb offset_anchor "top" then
    Ok ((default_x + column_gap/2) - w/2, default_y - offset_y*(h/2))
  else if String.eqb offset_anchor "right" then
    Ok ((default_x + column_gap) - w + offset_x*(w/2), (default_y + row_gap/2) - h/2)
  else if String.eqb offset_anchor "bottom" then
    Ok ((default_x + column_gap/2) - w/2, default_y + row_gap - h + offset_y*(h/2))
  else if String.eqb offset_anchor "topleft" then
    Ok (default_x - offset_x*(w/2), default_y - offset_y*(h/2))
  else if String.eqb offset_anchor "topright" then
    Ok ((default_x + column_gap) - w + offset_x*(w/2), default_y - offset_y*(h/2))
  else if String.eqb offset_anchor "bottomleft" then
    Ok (default_x - offset_x*(w/2), default_y + row_gap - h + offset_y*(h/2))
  else if String.eqb offset_anchor "bottomright" then
    Ok ((default_x + column_gap) - w + offset_x*(w/2), default_y + row_gap - h + offset_y*(h/2))
  else Raise ValueError.


(** ** animations.py *)

Record Animation : Type := mkAnimation {
  anim_duration : Q;
  anim_start_delay : Q;
  anim_easing_func : option (Q -> Q)
}.

(** [pos], [anchor] and [offset] of a [PositionAnimation] hold one value or a
    list of values; [pos] defaults to [None]. The easing function of a
    position animation is a function on numbers. *)
Inductive OneOrMany (A : Type) : Type :=
| One (a : A)
| Many (l : list A).

Arguments One {A} a.
Arguments Many {A} l.

Record PositionAnimation : Type := mkPositionAnimation {
  pa_duration : Q;
  pa_start_delay : Q;
  pa_easing_func : Q -> Q;
  pa_pos : option (OneOrMany pair2);
  pa_anchor : OneOrMany string;
  pa_offset : OneOrMany pair2;
  pa_no_grid : bool;
  pa_each : Q
}.

Record AnimationSet : Type := mkAnimationSet {
  position : option PositionAnimation;
  scale : option Animation;
  rotation : option Animation;
  opacity : option Animation;
  color : option Animation;
  custom : list (string * Animation)
}.

(** [AnimationSet()] *)
Definition AnimationSet_init : AnimationSet :=
  {| position := None; scale := None; rotation := None; opacity := None;
     color := None; custom := [] |}.

(** ** The object store *)

Definition loc : Type := nat.

(** What [Screen.compose] caches in [_end]: the layers handed to
    [CompositeVideoClip] and, when there are any, to [CompositeAudioClip]. *)
Record Composite : Type := mkComposite {
  video_layers : list Clip;
  audio_layers : option (list AudioClip)
}.

Record TapeFields : Type := mkTapeFields {
  tape_clip : Clip;
  custom_start : bool;
  custom_position : bool;
  tape_pos : pair2;
  tape_offset : pair2;
  tape_anchor : string;
  tape_span : pair2;
  effects : loc;
  animations : loc
}.

Record SoundFields : Type := mkSoundFields {
  sound_clip : AudioClip;
  adjust_to_clip : bool;
  start_offset : option Q;
  fadein : option Q;
  fadeout : option Q
}.

Record ScreenFields : Type := mkScreenFields {
  size : pair2;
  fps : Z;
  bgcolor : Z * Z * Z;
  BACKGROUND : Clip;
  grid : GridSystem;
  bg_music : option loc;
  total_duration : option Q;
  _end : option Composite;
  _audio_end : option (list AudioClip)
}.

(** The class of an instance with the attributes the class adds. *)
Inductive Payload : Type :=
| PComponent
| PFilm
| PScreen (s : ScreenFields)
| PTape (t : TapeFields)
| PSound (s : SoundFields).

(** The attributes of [Component.__init__]; [children] names a list object. *)
Record Instance : Type := mkInstance {
  name : string;
  begin : Q;
  children : loc;
  payload : Payload
}.

Inductive Obj : Type :=
| OInstance (i : Instance)
| OChildren (cs : list loc)
| OEffects (es : list Effect)
| OAnimationSet (a : AnimationSet).

Definition Store : Type := list Obj.

Definition get_instance (st : Store) (l : loc) : result Instance :=
  match nth_error st l with
  | Some (OInstance i) => Ok i
  | _ => Raise TypeError
  end.

Definition get_children (st : Store) (l : loc) : result (list loc) :=
  match nth_error st l with
  | Some (OChildren cs) => Ok cs
  | _ => Raise TypeError
  end.

Definition get_effects (st : Store) (l : loc) : result (list Effect) :=
  match nth_error st l with
  | Some (OEffects es) => Ok es
  | _ => Raise TypeError
  end.

Definition get_animations (st : Store) (l : loc) : result AnimationSet :=
  match nth_error st l with
  | Some (OAnimationSet a) => Ok a
  | _ => Raise TypeError
  end.

Fixpoint update (st : Store) (l : loc) (o : Obj) : Store :=
  match st, l with
  | [], _ => []
  | _ :: rest, O => o :: rest
  | x :: rest, S l' => x :: update rest l' o
  end.

(** Statements run in a store and may raise; what they did to the store before
    raising stays done. *)
Definition M (A : Type) : Type := Store -> result A * Store.

Definition ret {A : Type} (a : A) : M A := fun st => (Ok a, st).

Definition raise {A : Type} (e : exn) : M A := fun st => (Raise e, st).

Definition bindM {A B : Type} (m : M A) (k : A -> M B) : M B :=
  fun st =>
    match m st with
    | (Ok a, st') => k a st'
    | (Raise e, st') => (Raise e, st')
    end.

Notation "x <~ m ;; k" := (bindM m (fun x => k))
  (at level 61, m at next level, right associativity).
Notation "m ;;; k" := (bindM m (fun _ => k))
  (at level 61, right associativity).

(** Reading the store. *)
Definition read {A : Type} (r : Store -> result A) : M A :=
  fun st => (r st, st).

(** A new object. *)
Definition alloc (o : Obj) : M loc :=
  fun st => (Ok (List.length st), st ++ [o]).

Definition write (l : loc) (o : Obj) : M unit :=
  fun st => (Ok tt, update st l o).

Definition with_begin (i : Instance) (v : Q) : Instance :=
  {| name := name i; begin := v; children := children i; payload := payload i |}.

Definition with_payload (i : Instance) (p : Payload) : Instance :=
  {| name := name i; begin := begin i; children := children i; payload := p |}.

(** [self.begin = v] *)
Definition set_begin (self : loc) (v : Q) : M unit :=
  i <~ read (fun st => get_instance st self) ;;
  write self (OInstance (with_begin i v)).

(** [self.children.append(x)] *)
Definition children_append (self : loc) (x : loc) : M unit :=
  i <~ read (fun st => get_instance st self) ;;
  cs <~ read (fun st => get_children st (children i)) ;;
  write (children i) (OChildren (cs ++ [x])).

(** ** component.py *)

(** [Component.__init__] with the class given by [p]. *)
Definition Component_init (name : string) (p : Payload) : M loc :=
  cs <~ alloc (OChildren []) ;;
  alloc (OInstance {| name := name; begin := 0.0; children := cs; payload := p |}).

(** [Component.copy]: [copy.copy(self)], a new instance with the same
    attribute values, so the same [children] list and, for a Tape, the same
    [effects] list and [AnimationSet]. *)
Definition copy (self : loc) : M loc :=
  i <~ read (fun st => get_instance st self) ;;
  alloc (OInstance i).

Fixpoint map_result {A B : Type} (f : A -> result B) (xs : list A)
    : result (list B) :=
  match xs with
  | [] => Ok []
  | x :: rest => y <- f x ;; ys <- map_result f rest ;; Ok (y :: ys)
  end.

(** [Component.finish], with the [finish] of the children given by
    [child_finish]. *)
Definition Component_finish (child_finish : loc -> result Q) (st : Store)
    (i : Instance) : result Q :=
  cs <- get_children st (children i) ;;
  match cs with
  | [] => Ok (begin i)
  | _ => fs <- map_result child_finish cs ;; Ok (max_list fs (begin i))
  end.

(** The property [finish], dispatched on the class of [self]:
    [Component.finish], [Tape.finish] (which calls [super().finish]) and
    [Sound.finish]. [fuel] bounds the depth of the recursion through the
    children: Python raises [RecursionError] beyond its limit. *)
Fixpoint finish (fuel : nat) (st : Store) (self : loc) : result Q :=
  match fuel with
  | O => Raise RecursionError
  | S fuel' =>
      i <- get_instance st self ;;
      match payload i with
      | PSound s => Ok (begin i + audio_duration (sound_clip s))
      | PTape t =>
          child_finish <- Component_finish (finish fuel' st) st i ;;
          let clip_finish := begin i + clip_duration (tape_clip t) in
          Ok (max2 child_finish clip_finish)
      | _ => Component_finish (finish fuel' st) st i
      end
  end.

(** The property [lifetime]: [Component.lifetime], [Tape.lifetime] and
    [Sound.lifetime]. *)
Definition lifetime (fuel : nat) (st : Store) (self : loc) : result Q :=
  i <- get_instance st self ;;
  match payload i with
  | PSound s => Ok (audio_duration (sound_clip s))
  | PTape t => Ok (clip_duration (tape_clip t))
  | _ => f <- finish fuel st self ;; Ok (f - begin i)
  end.

(** [Component.add_component] *)
Definition add_component (fuel : nat) (self component : loc)
    (method : string) (start : Q) : M loc :=
  component_copy <~ copy component ;;
  if String.eqb method "compose" then
    s <~ read (fun st => get_instance st self) ;;
    set_begin component_copy (begin s + start) ;;;
    children_append self component_copy ;;;
    ret self
  else if String.eqb method "concat" then
    s <~ read (fun st => get_instance st self) ;;
    cs <~ read (fun st => get_children st (children s)) ;;
    match cs with
    | [] =>
        set_begin component_copy start ;;;
        children_append self component_copy ;;;
        ret self
    | _ =>
        prev <~ read (fun _ => getitem cs (-1)) ;;
        f <~ read (fun st => finish fuel st prev) ;;
        set_begin component_copy (f + start) ;;;
        children_append self component_copy ;;;
        ret self
    end
  else if String.eqb method "last" then
    s <~ read (fun st => get_instance st self) ;;
    cs <~ read (fun st => get_children st (children s)) ;;
    match cs with
    | [] =>
        set_begin component_copy start ;;;
        children_append self component_copy ;;;
        ret self
    | _ =>
        prev <~ read (fun _ => getitem cs (-1)) ;;
        p <~ read (fun st => get_instance st prev) ;;
        set_begin component_copy (begin p + start) ;;;
        children_append self component_copy ;;;
        ret self
    end
  else raise ValueError.

(** ** sound.py *)

(** [Sound.__init__] *)
Definition Sound_init (clip : AudioClip) (name : string)
    (adjust_to_clip : bool) : M loc :=
  Component_init name
    (PSound {| sound_clip := clip; adjust_to_clip := adjust_to_clip;
               start_offset := None; fadein := None; fadeout := None |}).

Definition as_sound (i : Instance) : result SoundFields :=
  match payload i with
  | PSound s => Ok s
  | _ => Raise TypeError
  end.

(** [Sound.with_fade] *)
Definition with_fade (self : loc) (fadein fadeout : option Q) : M loc :=
  i <~ read (fun st => get_instance st self) ;;
  s <~ read (fun _ => as_sound i) ;;
  write self (OInstance (with_payload i
    (PSound {| sound_clip := sound_clip s; adjust_to_clip := adjust_to_clip s;
               start_offset := start_offset s;
               fadein := fadein; fadeout := fadeout |}))) ;;;
  ret self.

(** [Sound.with_start_offset] *)
Definition with_start_offset (self : loc) (offset : Q) : M loc :=
  i <~ read (fun st => get_instance st self) ;;
  s <~ read (fun _ => as_sound i) ;;
  write self (OInstance (with_payload i
    (PSound {| sound_clip := sound_clip s; adjust_to_clip := adjust_to_clip s;
               start_offset := Some offset;
               fadein := fadein s; fadeout := fadeout s |}))) ;;;
  ret self.

(** ** tape.py *)

(** [Tape.__init__] *)
Definition Tape_init (clip : Clip) (custom_start custom_position : bool)
    (name : string) : M loc :=
  cs <~ alloc (OChildren []) ;;
  es <~ alloc (OEffects []) ;;
  an <~ alloc (OAnimationSet AnimationSet_init) ;;
  alloc (OInstance
    {| name := name; begin := 0.0; children := cs;
       payload := PTape
         {| tape_clip := clip; custom_start := custom_start;
            custom_position := custom_position;
            tape_pos := (0, 0); tape_offset := (0, 0);
            tape_anchor := "topleft"; tape_span := (1, 1);
            effects := es; animations := an |} |}).

Definition as_tape (i : Instance) : result TapeFields :=
  match payload i with
  | PTape t => Ok t
  | _ => Raise TypeError
  end.

(** [Tape.add_sound] *)
Definition add_sound (fuel : nat) (self sound : loc) (method : string)
    (start : Q) : M loc :=
  add_component fuel self sound method start.





(** ** film.py *)

(** [Film.__init__] *)
Definition Film_init (name : string) : M loc := Component_init name PFilm.

(** The keyword arguments of [Film.add_tape]; [None] leaves the attribute. *)
Record TapeAttributes : Type := mkTapeAttributes {
  attr_effects : option (list Effect);
  attr_pos : option pair2;
  attr_span : option pair2;
  attr_anchor : option string;
  attr_offset : option pair2;
  attr_z_index : option Z
}.

Definition update_tape (tape : loc) (f : TapeFields -> TapeFields) : M unit :=
  i <~ read (fun st => get_instance st tape) ;;
  t <~ read (fun _ => as_tape i) ;;
  write tape (OInstance (with_payload i (PTape (f t)))).

Definition when_given {A : Type} (o : option A) (k : A -> M unit) : M unit :=
  match o with
  | Some a => k a
  | None => ret tt
  end.

(** [Film.apply_attributes]; [tape.effects += ...] extends the list object
    in place. *)
Definition apply_attributes (tape : loc) (attributes : TapeAttributes)
    : M unit :=
  when_given (attr_effects attributes) (fun new_effects =>
    i <~ read (fun st => get_instance st tape) ;;
    t <~ read (fun _ => as_tape i) ;;
    es <~ read (fun st => get_effects st (effects t)) ;;
    write (effects t) (OEffects (es ++ new_effects))) ;;;
  when_given (attr_pos attributes) (fun v =>
    update_tape tape (fun t =>
      {| tape_clip := tape_clip t; custom_start := custom_start t;
         custom_position := custom_position t; tape_pos := v;
         tape_offset := tape_offset t; tape_anchor := tape_anchor t;
         tape_span := tape_span t; effects := effects t;
         animations := animations t |})) ;;;
  when_given (attr_span attributes) (fun v =>
    update_tape tape (fun t =>
      {| tape_clip := tape_clip t; custom_start := custom_start t;
         custom_position := custom_position t; tape_pos := tape_pos t;
         tape_offset := tape_offset t; tape_anchor := tape_anchor t;
         tape_span := v; effects := effects t;
         animations := animations t |})) ;;;
  when_given (attr_anchor attributes) (fun v =>
    update_tape tape (fun t =>
      {| tape_clip := tape_clip t; custom_start := custom_start t;
         custom_position := custom_position t; tape_pos := tape_pos t;
         tape_offset := tape_offset t; tape_anchor := v;
         tape_span := tape_span t; effects := effects t;
         animations := animations t |})) ;;;
  when_given (attr_offset attributes) (fun v =>
    update_tape tape (fun t =>
      {| tape_clip := tape_clip t; custom_start := custom_start t;
         custom_position := custom_position t; tape_pos := tape_pos t;
         tape_offset := v; tape_anchor := tape_anchor t;
         tape_span := tape_span t; effects := effects t;
         animations := animations t |})) ;;;
  when_given (attr_z_index attributes) (fun z =>
    update_tape tape (fun t =>
      let c := tape_clip t in
      {| tape_clip :=
           {| clip_duration := clip_duration c; clip_w := clip_w c;
              clip_h := clip_h c; clip_start := clip_start c;
              clip_position := clip_position c; clip_layer_index := z;
              clip_audio := clip_audio c |};
         custom_start := custom_start t;
         custom_position := custom_position t; tape_pos := tape_pos t;
         tape_offset := tape_offset t; tape_anchor := tape_anchor t;
         tape_span := tape_span t; effects := effects t;
         animations := animations t |})).

(** [Film.add_tape] for one tape. *)
Definition add_tape_one (fuel : nat) (self tape : loc) (method : string)
    (start : Q) (attributes : TapeAttributes) : M loc :=
  i <~ read (fun st => get_instance st tape) ;;
  match payload i with
  | PTape _ =>
      add_component fuel self tape method start ;;;
      s <~ read (fun st => get_instance st self) ;;
      cs <~ read (fun st => get_children st (children s)) ;;
      added_tape <~ read (fun _ => getitem cs (-1)) ;;
      apply_attributes added_tape attributes ;;;
      ret self
  | _ => raise TypeError
  end.

(** [Film.add_tape]: a tape or a list of tapes. *)
Fixpoint add_tape_list (fuel : nat) (self : loc) (tapes : list loc)
    (method : string) (start : Q) (attributes : TapeAttributes) : M loc :=
  match tapes with
  | [] => ret self
  | t :: rest =>
      add_tape_one fuel self t method start attributes ;;;
      add_tape_list fuel self rest method start attributes
  end.

Definition add_tape (fuel : nat) (self : loc) (tape : OneOrMany loc)
    (method : string) (start : Q) (attributes : TapeAttributes) : M loc :=
  match tape with
  | Many tapes => add_tape_list fuel self tapes method start attributes
  | One t => add_tape_one fuel self t method start attributes
  end.

(** ** screen.py *)

(** MoviePy's [with_*] methods and [AudioClip.subclipped]. *)
Definition with_position (c : Clip) (p : Position) : Clip :=
  {| clip_duration := clip_duration c; clip_w := clip_w c; clip_h := clip_h c;
     clip_start := clip_start c; clip_position := p;
     clip_layer_index := clip_layer_index c;
     clip_audio := clip_audio c |}.

(** [Clip.with_effects]: the effects are applied to the clip, in order. *)
Definition with_effects (c : Clip) (es : list Effect) : Clip :=
  fold_left (fun c e => effect_apply e c) es c.

Definition with_start (c : Clip) (t : Q) : Clip :=
  {| clip_duration := clip_duration c; clip_w := clip_w c; clip_h := clip_h c;
     clip_start := t; clip_position := clip_position c;
     clip_layer_index := clip_layer_index c;
     clip_audio := clip_audio c |}.

Definition with_duration (c : Clip) (d : Q) : Clip :=
  {| clip_duration := d; clip_w := clip_w c; clip_h := clip_h c;
     clip_start := clip_start c; clip_position := clip_position c;
     clip_layer_index := clip_layer_index c;
     clip_audio := clip_audio c |}.

Definition audio_with_start (a : AudioClip) (t : Q) : AudioClip :=
  {| audio_duration := audio_duration a; audio_start := t;
     audio_source_offset := audio_source_offset a;
     audio_effects := audio_effects a |}.

Definition audio_with_duration (a : AudioClip) (d : Q) : AudioClip :=
  {| audio_duration := d; audio_start := audio_start a;
     audio_source_offset := audio_source_offset a;
     audio_effects := audio_effects a |}.

Definition audio_with_effects (a : AudioClip) (es : list (string * Q))
    : AudioClip :=
  {| audio_duration := audio_duration a; audio_start := audio_start a;
     audio_source_offset := audio_source_offset a;
     audio_effects := audio_effects a ++ es |}.

(** [AudioClip.subclipped]: MoviePy rejects an end time after the end of
    the clip. *)
Definition subclipped (a : AudioClip) (start_time end_time : Q)
    : result AudioClip :=
  if Qltb (audio_duration a) end_time then Raise ValueError
  else
    Ok {| audio_duration := end_time - start_time;
          audio_start := audio_start a;
          audio_source_offset := audio_source_offset a + start_time;
          audio_effects := audio_effects a |}.

(** [mp.ColorClip(size=size, color=bgcolor, duration=1).with_start(0)] *)
Definition ColorClip (size : pair2) : Clip :=
  {| clip_duration := 1; clip_w := fst size; clip_h := snd size;
     clip_start := 0; clip_position := PositionDefault;
     clip_layer_index := 0%Z; clip_audio := None |}.

(** [Screen.__init__] *)
Definition Screen_init (size : pair2) (fps : Z) (bgcolor : Z * Z * Z)
    (name : string) : M loc :=
  Component_init name
    (PScreen {| size := size; fps := fps; bgcolor := bgcolor;
                BACKGROUND := ColorClip size;
                grid := GridSystem_init size; bg_music := None;
                total_duration := None; _end := None; _audio_end := None |}).

Definition as_screen (i : Instance) : result ScreenFields :=
  match payload i with
  | PScreen s => Ok s
  | _ => Raise TypeError
  end.

Definition update_screen (self : loc) (f : ScreenFields -> ScreenFields)
    : M unit :=
  i <~ read (fun st => get_instance st self) ;;
  s <~ read (fun _ => as_screen i) ;;
  write self (OInstance (with_payload i (PScreen (f s)))).

(** [Screen.add_film] *)
Definition add_film (fuel : nat) (self film : loc) (method : string)
    (start : Q) : M loc :=
  f <~ read (fun st => get_instance st film) ;;
  cs <~ read (fun st => get_children st (children f)) ;;
  if (len cs =? 0)%Z then raise ValueError
  else
    add_component fuel self film method start ;;;
    ret self.

(** [Screen.add_bg_music] *)
Definition add_bg_music (self sound : loc) (fadein fadeout start_offset : Q)
    : M loc :=
  copysound <~ copy sound ;;
  with_fade copysound (Some fadein) (Some fadeout) ;;;
  with_start_offset copysound start_offset ;;;
  update_screen self (fun s =>
    {| size := size s; fps := fps s; bgcolor := bgcolor s;
       BACKGROUND := BACKGROUND s; grid := grid s;
       bg_music := Some copysound; total_duration := total_duration s;
       _end := _end s; _audio_end := _audio_end s |}) ;;;
  ret self.

(** [a[idx] if isinstance(a, list) else a] *)
Definition pick {A : Type} (a : OneOrMany A) (idx : Z) : result A :=
  match a with
  | One x => Ok x
  | Many l => getitem l idx
  end.

(** A single value where [get_coords] needs one; a list there is a type
    error in the source. *)
Definition single {A : Type} (a : OneOrMany A) : result A :=
  match a with
  | One x => Ok x
  | Many _ => Raise TypeError
  end.

(** The grid positions of a multi-position animation:
    [for idx, p in enumerate(position_anim.pos)]. *)
Fixpoint grid_positions (g : GridSystem) (clip : Clip)
    (position_anim : PositionAnimation) (idx : Z) (ps : list pair2)
    : result (list pair2) :=
  match ps with
  | [] => Ok []
  | p :: rest =>
      a <- pick (pa_anchor position_anim) idx ;;
      o <- pick (pa_offset position_anim) idx ;;
      c <- get_coords g clip p a o ;;
      cs <- grid_positions g clip position_anim (idx + 1)%Z rest ;;
      Ok (c :: cs)
  end.

(** The sounds attached to a tape: [for sound in tape.children]. *)
Fixpoint tape_sounds (st : Store) (tape_begin tape_lifetime : Q)
    (sounds : list loc) : result (list AudioClip) :=
  match sounds with
  | [] => Ok []
  | sound :: rest =>
      i <- get_instance st sound ;;
      s <- as_sound i ;;
      let sound_clip := audio_with_start (sound_clip s) (tape_begin + begin i) in
      let sound_clip :=
        if adjust_to_clip s then audio_with_duration sound_clip tape_lifetime
        else sound_clip in
      more <- tape_sounds st tape_begin tape_lifetime rest ;;
      Ok (sound_clip :: more)
  end.

(** The body of the loop over the tapes of a film: the stamped clip added to
    [composelist] and the clips added to [audiocomposelist]. The scale,
    rotation, opacity, color and custom animations are passed over, as in the
    source. *)
Definition compose_tape (fuel : nat) (st : Store) (g : GridSystem)
    (tape : loc) : result (Clip * list AudioClip) :=
  i <- get_instance st tape ;;
  t <- as_tape i ;;
  let clip := tape_clip t in
  an <- get_animations st (animations t) ;;
  clip <-
    match position an with
    | Some position_anim =>
        match pa_pos position_anim with
        | None => Ok clip
        | Some (One p) =>
            from_coord <- get_coords g clip (tape_pos t) (tape_anchor t) (tape_offset t) ;;
            a <- single (pa_anchor position_anim) ;;
            o <- single (pa_offset position_anim) ;;
            to_coord <- get_coords g clip p a o ;;
            Ok (with_position clip (PositionFn (fun t =>
                  moveAnim t from_coord to_coord (pa_duration position_anim)
                    (pa_start_delay position_anim) (pa_easing_func position_anim))))
        | Some (Many ps) =>
            positions <-
              (if pa_no_grid position_anim then Ok ps
               else grid_positions g clip position_anim 0%Z ps) ;;
            Ok (with_position clip (PositionFn (fun t =>
                  moveToMany t positions (pa_each position_anim)
                    (pa_duration position_anim) (pa_start_delay position_anim)
                    (pa_easing_func position_anim))))
        end
    | None =>
        if negb (custom_position t) then
          coord <- get_coords g clip (tape_pos t) (tape_anchor t) (tape_offset t) ;;
          Ok (with_position clip (PositionAt coord))
        else Ok clip
    end ;;
  es <- get_effects st (effects t) ;;
  let clip := match es with [] => clip | _ => with_effects clip es end in
  let clip := if negb (custom_start t) then with_start clip (begin i) else clip in
  sounds <- get_children st (children i) ;;
  tape_lifetime <- lifetime fuel st tape ;;
  audio <- tape_sounds st (begin i) tape_lifetime sounds ;;
  let audio :=
    match clip_audio (tape_clip t) with
    | Some videoaudio => audio ++ [audio_with_start videoaudio (begin i)]
    | None => audio
    end in
  Ok (clip, audio).

Fixpoint compose_tapes (fuel : nat) (st : Store) (g : GridSystem)
    (tapes : list loc) : result (list Clip * list AudioClip) :=
  match tapes with
  | [] => Ok ([], [])
  | tape :: rest =>
      r <- compose_tape fuel st g tape ;;
      more <- compose_tapes fuel st g rest ;;
      Ok (fst r :: fst more, snd r ++ snd more)
  end.

(** The loop over the films of the screen. *)
Fixpoint compose_films (fuel : nat) (st : Store) (g : GridSystem)
    (films : list loc) : result (list Clip * list AudioClip) :=
  match films with
  | [] => Ok ([], [])
  | film :: rest =>
      f <- get_instance st film ;;
      tapes <- get_children st (children f) ;;
      r <- compose_tapes fuel st g tapes ;;
      more <- compose_films fuel st g rest ;;
      Ok (fst r ++ fst more, snd r ++ snd more)
  end.

(** Python truth of an optional number. *)
Definition truthy (o : option Q) : bool :=
  match o with
  | Some v => negb (Qeq_bool v 0)
  | None => false
  end.

(** The background music clip of [compose], when there is one. *)
Definition compose_bg_music (st : Store) (s : ScreenFields)
    (total_duration : Q) : result (list AudioClip) :=
  match bg_music s with
  | None => Ok []
  | Some music =>
      i <- get_instance st music ;;
      m <- as_sound i ;;
      match start_offset m with
      | None => Raise TypeError
      | Some offset =>
          cut <- subclipped (sound_clip m) offset (total_duration + offset) ;;
          let bg_clip := audio_with_start cut 0.0 in
          let effects :=
            (match fadein m with
             | Some v => if truthy (fadein m) then [("AudioFadeIn"%string, v)] else []
             | None => []
             end) ++
            (match fadeout m with
             | Some v => if truthy (fadeout m) then [("AudioFadeOut"%string, v)] else []
             | None => []
             end) in
          let bg_clip :=
            if truthy (fadein m) || truthy (fadeout m)
            then audio_with_effects bg_clip effects else bg_clip in
          Ok [bg_clip]
      end
  end.

(** [Screen.compose] *)
Definition compose (fuel : nat) (self : loc) : M loc :=
  i <~ read (fun st => get_instance st self) ;;
  s <~ read (fun _ => as_screen i) ;;
  films <~ read (fun st => get_children st (children i)) ;;
  if (len films =? 0)%Z then raise ValueError
  else
    total <~ read (fun st => finish fuel st self) ;;
    update_screen self (fun s =>
      {| size := size s; fps := fps s; bgcolor := bgcolor s;
         BACKGROUND := BACKGROUND s; grid := grid s; bg_music := bg_music s;
         total_duration := Some total;
         _end := _end s; _audio_end := _audio_end s |}) ;;;
    layers <~ read (fun st => compose_films fuel st (grid s) films) ;;
    let composelist := with_duration (BACKGROUND s) total :: fst layers in
    update_screen self (fun s =>
      {| size := size s; fps := fps s; bgcolor := bgcolor s;
         BACKGROUND := BACKGROUND s; grid := grid s; bg_music := bg_music s;
         total_duration := total_duration s;
         _end := Some {| video_layers := composelist; audio_layers := None |};
         _audio_end := _audio_end s |}) ;;;
    music <~ read (fun st => compose_bg_music st s total) ;;
    let audiocomposelist := snd layers ++ music in
    match audiocomposelist with
    | [] => ret self
    | _ =>
        update_screen self (fun s =>
          {| size := size s; fps := fps s; bgcolor := bgcolor s;
             BACKGROUND := BACKGROUND s; grid := grid s;
             bg_music := bg_music s; total_duration := total_duration s;
             _end := Some {| video_layers := composelist;
                             audio_layers := Some audiocomposelist |};
             _audio_end := Some audiocomposelist |}) ;;;
        ret self
    end.

(** [Screen._ensure_ready] *)
Definition _ensure_ready (self : loc) : M bool :=
  i <~ read (fun st => get_instance st self) ;;
  s <~ read (fun _ => as_screen i) ;;
  match _end s with
  | None => raise RuntimeError
  | Some _ => ret true
  end.

(** What a query asks of the rendering backend. *)
Inductive BackendCall : Type :=
| write_videofile (filename : string) (fps : Z) (codec bitrate : string)
    (threads : Z)
| return_clip
| show_clip
| preview_clip.

(** [self._end.<call>]: the call on the cached composition. *)
Definition on_end (self : loc) (call : BackendCall)
    : M (option (Composite * BackendCall)) :=
  i <~ read (fun st => get_instance st self) ;;
  s <~ read (fun _ => as_screen i) ;;
  match _end s with
  | None => raise TypeError
  | Some e => ret (Some (e, call))
  end.

(** [Screen.render], [Screen.get_end_video], [Screen.show] and
    [Screen.preview]: the backend call made, [None] when the guard is not
    taken. *)
Definition render (self : loc) (filename codec bitrate : string)
    (threads : Z) : M (option (Composite * BackendCall)) :=
  ready <~ _ensure_ready self ;;
  if ready : bool then
    i <~ read (fun st => get_instance st self) ;;
    s <~ read (fun _ => as_screen i) ;;
    on_end self (write_videofile filename (fps s) codec bitrate threads)
  else ret None.

Definition get_end_video (self : loc) : M (option (Composite * BackendCall)) :=
  ready <~ _ensure_ready self ;;
  if ready : bool then on_end self return_clip else ret None.

Definition show (self : loc) : M (option (Composite * BackendCall)) :=
  ready <~ _ensure_ready self ;;
  if ready : bool then on_end self show_clip else ret None.

Definition preview (self : loc) : M (option (Composite * BackendCall)) :=
  ready <~ _ensure_ready self ;;
  if ready : bool then on_end self preview_clip else ret None.

(** * Vocabulary of the statements and example stores *)

Definition keyframes_example : list pair2 := [(0, 0); (100, 0); (200, 0)].

Definition valid_anchors : list string :=
  ["center"; "left"; "right"; "top"; "bottom";
   "topleft"; "topright"; "bottomleft"; "bottomright"]%string.

Definition mem_string (a : string) (l : list string) : bool :=
  existsb (String.eqb a) l.

(** The direction in which an anchor moves the element per unit of offset:
    against the axis for an anchor on the left or top edge, along it for one
    on the right or bottom edge, not at all on an axis where the anchor is
    centred. *)
Definition sign_x (a : string) : Q :=
  if mem_string a ["left"; "topleft"; "bottomleft"]%string then -1
  else if mem_string a ["right"; "topright"; "bottomright"]%string then 1
  else 0.

Definition sign_y (a : string) : Q :=
  if mem_string a ["top"; "topleft"; "topright"]%string then -1
  else if mem_string a ["bottom"; "bottomleft"; "bottomright"]%string then 1
  else 0.

(** The top-left coordinate that puts the anchor point of an element of size
    [dim] on the matching point of the grid cell starting at [origin]. *)
Definition reference_coord (sign origin gap dim : Q) : Q :=
  if Qeq_bool sign (-1) then origin
  else if Qeq_bool sign 1 then origin + gap - dim
  else origin + gap / 2 - dim / 2.

Definition reference_point (g : GridSystem) (clip : Clip) (pos : pair2)
    (a : string) : pair2 :=
  (reference_coord (sign_x a) (snd pos * column_gap g) (column_gap g) (clip_w clip),
   reference_coord (sign_y a) (fst pos * row_gap g) (row_gap g) (clip_h clip)).

(** The rule of C5 as it is stated: on both axes the result moves with the
    offset, by [offset * (dimension/2)] in a direction fixed by the anchor. *)
Definition moves_with_offset (g : GridSystem) (clip : Clip) (pos : pair2)
    (a : string) : Prop :=
  exists (ref : pair2) (sx sy : Q),
    (sx == 1 \/ sx == -1) /\ (sy == 1 \/ sy == -1) /\
    forall offset : pair2, exists c : pair2,
      get_coords g clip pos a offset = Ok c /\
      fst c == fst ref + sx * (fst offset * (clip_w clip / 2)) /\
      snd c == snd ref + sy * (snd offset * (clip_h clip / 2)).

Definition clip_of_size (w h : Q) : Clip :=
  {| clip_duration := 1; clip_w := w; clip_h := h; clip_start := 0;
     clip_position := PositionDefault;
     clip_layer_index := 0%Z; clip_audio := None |}.

Definition clip_lasting (d : Q) : Clip :=
  {| clip_duration := d; clip_w := 100; clip_h := 100; clip_start := 0;
     clip_position := PositionDefault;
     clip_layer_index := 0%Z; clip_audio := None |}.

Definition audio_lasting (d : Q) : AudioClip :=
  {| audio_duration := d; audio_start := 0; audio_source_offset := 0;
     audio_effects := [] |}.

(** A sound lasting 2 with a sound lasting 10 attached to it. *)
Definition sound_with_long_child : M (loc * loc) :=
  outer <~ Sound_init (audio_lasting 2) "outer" false ;;
  inner <~ Sound_init (audio_lasting 10) "inner" false ;;
  add_component 5 outer inner "compose" 0 ;;;
  i <~ read (fun st => get_instance st outer) ;;
  cs <~ read (fun st => get_children st (children i)) ;;
  child <~ read (fun _ => getitem cs (-1)) ;;
  ret (outer, child).

Definition long_child_store : Store := snd (sound_with_long_child []).

(** The store after a copy of [c] was given the begin [v] and appended to
    the children [cs] of the parent [p]. *)
Definition inserted (st : Store) (p : Instance) (cs : list loc)
    (c : Instance) (v : Q) : Store :=
  update st (children p) (OChildren (cs ++ [List.length st]))
    ++ [OInstance (with_begin c v)].

(** A film (at location 1) holding a copy (at 10) of a tape lasting 2,
    inserted with "concat" and start 1; a second tape lasting 3 is at 9. *)
Definition film_with_tape : M loc :=
  film <~ Film_init "film" ;;
  tape1 <~ Tape_init (clip_lasting 2) false false "first" ;;
  tape2 <~ Tape_init (clip_lasting 3) false false "second" ;;
  add_component 5 film tape1 "concat" 1.

Definition film_with_tape_store : Store := snd (film_with_tape []).


(** The screen at [self] caches no composition: [_end] is [None]. *)
Definition not_ready (st : Store) (self : loc) : Prop :=
  exists i s, get_instance st self = Ok i /\ payload i = PScreen s /\
              _end s = None.

(** The background music of a screen, when it has one, is a sound with a
    start offset, as [add_bg_music] leaves it. *)
Definition bg_music_set_up (st : Store) (s : ScreenFields) : Prop :=
  match bg_music s with
  | None => True
  | Some music =>
      exists i m o, get_instance st music = Ok i /\ payload i = PSound m /\
                    start_offset m = Some o
  end.

(** [self._end] of the screen at [self]. *)
Definition _end_of (st : Store) (self : loc) : result (option Composite) :=
  i <- get_instance st self ;;
  s <- as_screen i ;;
  Ok (_end s).

(** A screen (at 1) with a film that holds a tape lasting 2, and with
    background music lasting 1. *)
Definition screen_with_short_music : M loc :=
  screen <~ Screen_init (1200, 1200) 24%Z (0, 0, 0)%Z "screen" ;;
  film <~ Film_init "film" ;;
  tape <~ Tape_init (clip_lasting 2) false false "tape" ;;
  add_tape 5 film (One tape) "compose" 0
    {| attr_effects := None; attr_pos := None; attr_span := None;
       attr_anchor := None; attr_offset := None; attr_z_index := None |} ;;;
  add_film 5 screen film "compose" 0 ;;;
  music <~ Sound_init (audio_lasting 1) "music" false ;;
  add_bg_music screen music 0 0 0 ;;;
  ret screen.

Definition short_music_store : Store := snd (screen_with_short_music []).

(** [n] insertions under "concat", in order, each with its gap. *)
Fixpoint concat_all (fuel : nat) (self : loc) (items : list (loc * Q))
    : M unit :=
  match items with
  | [] => ret tt
  | (component, gap) :: rest =>
      add_component fuel self component "concat" gap ;;;
      concat_all fuel self rest
  end.



(** A set of locations that holds, with an instance, its children list and,
    with a children list, its items. *)
Definition mem (l : loc) (S : list loc) : bool := existsb (Nat.eqb l) S.

Definition closedb (st : Store) (S : list loc) : bool :=
  forallb (fun l =>
    match nth_error st l with
    | Some (OInstance i) => mem (children i) S
    | Some (OChildren cs) => forallb (fun c => mem c S) cs
    | Some _ => true
    | None => false
    end) S.

Definition closed (st : Store) (S : list loc) : Prop :=
  forall l, In l S ->
    match nth_error st l with
    | Some (OInstance i) => In (children i) S
    | Some (OChildren cs) => incl cs S
    | Some _ => True
    | None => False
    end.

(** The stores [st] and [st'] hold the same objects at the locations [S]. *)
Definition agree (S : list loc) (st st' : Store) : Prop :=
  forall l, In l S -> nth_error st' l = nth_error st l.

(** A film into which a tape lasting 2, with a sound lasting 10 attached,
    and then a tape lasting 3 are inserted under "concat" with gaps 0. *)
Definition film_with_overhanging_sound : M loc :=
  film <~ Film_init "film" ;;
  tape <~ Tape_init (clip_lasting 2) false false "first" ;;
  sound <~ Sound_init (audio_lasting 10) "music" false ;;
  add_sound 5 tape sound "compose" 0 ;;;
  tape2 <~ Tape_init (clip_lasting 3) false false "second" ;;
  concat_all 5 film [(tape, 0); (tape2, 0)] ;;;
  ret film.

(** A film (at 1, children list at 0), a tape lasting 2 (at 5, children
    list at 2) and a sound lasting 4 (at 7, children list at 6). *)
Definition film_tape_sound : M unit :=
  Film_init "film" ;;;
  Tape_init (clip_lasting 2) false false "tape" ;;;
  Sound_init (audio_lasting 4) "sound" false ;;;
  ret tt.

Definition film_tape_sound_store : Store := snd (film_tape_sound []).

Definition tape_sound_tape : list (loc * Q) :=
  [(5%nat, 1); (7%nat, 0.5); (5%nat, 0)].

(** A screen with one film holding one tape lasting 2: [compose] returns,
    the total duration is 2, and [get_end_video] then hands out the cached
    composition of the background and the tape. *)
Definition screen_film_tape : M (option (Composite * BackendCall)) :=
  screen <~ Screen_init (1200, 1200) 24%Z (0, 0, 0)%Z "screen" ;;
  film <~ Film_init "film" ;;
  tape <~ Tape_init (clip_lasting 2) false false "tape" ;;
  add_tape 5 film (One tape) "compose" 0
    {| attr_effects := None; attr_pos := None; attr_span := None;
       attr_anchor := Some "center"%string; attr_offset := None;
       attr_z_index := None |} ;;;
  add_film 5 screen film "compose" 0 ;;;
  compose 5 screen ;;;
  get_end_video screen.

(** * Further definitions *)

(** ** misc.py: the root finder *)

(** The loop [for _ in range(maxiter)] of [bisect], with the bracket
    [a], [b] and the values [fa], [fb] of [func] at its ends. *)
Fixpoint bisect_loop (func : Q -> Q) (a b fa fb xtol : Q) (maxiter : nat)
    : Q :=
  match maxiter with
  | O => (a + b) / 2
  | S n =>
      let c := (a + b) / 2 in
      if Qltb (b - a) xtol then c
      else
        let fc := func c in
        if Qltb (Qabs fc) xtol then c
        else if Qltb (fa * fc) 0 then bisect_loop func a c fa fc xtol n
        else bisect_loop func c b fc fb xtol n
  end.

Definition bisect (func : Q -> Q) (a b xtol : Q) (maxiter : nat) : Q :=
  let fa := func a in
  let fb := func b in
  if Qltb (Qabs fa) xtol then a
  else if Qltb (Qabs fb) xtol then b
  else if Qleb 0 (fa * fb) then
    if Qltb 0 fa && Qltb 0 fb then (if Qltb fa fb then a else b)
    else if Qltb fa 0 && Qltb fb 0 then (if Qltb fb fa then a else b)
    else (if Qltb (Qabs fa) (Qabs fb) then a else b)
  else bisect_loop func a b fa fb xtol maxiter.

Definition invert_easing (fn : Q -> Q) (y_target tol : Q) : Q :=
  bisect (fun x => fn x - y_target) 0 1 tol 100.


(** ** easings.py: the polynomial and the bounce curves *)

Definition easeInOutQuad (x : Q) : Q :=
  if Qltb x 0.5 then 2 * x * x
  else 1 - Qpower (-2 * x + 2) 2 / 2.

Definition easeOutCubic (x : Q) : Q := 1 - Qpower (1 - x) 3.

Definition easeInOutCubic (x : Q) : Q :=
  if Qltb x 0.5 then 4 * x * x * x
  else 1 - Qpower (-2 * x + 2) 3 / 2.

Definition easeInQuart (x : Q) : Q := x * x * x * x.

Definition easeOutQuart (x : Q) : Q := 1 - Qpower (1 - x) 4.

Definition easeInOutQuart (x : Q) : Q :=
  if Qltb x 0.5 then 8 * x * x * x * x
  else 1 - Qpower (-2 * x + 2) 4 / 2.

Definition easeInQuint (x : Q) : Q := x * x * x * x * x.

Definition easeOutQuint (x : Q) : Q := 1 - Qpower (1 - x) 5.

Definition easeInOutQuint (x : Q) : Q :=
  if Qltb x 0.5 then 16 * x * x * x * x * x
  else 1 - Qpower (-2 * x + 2) 5 / 2.

Definition easeOutBounce (x : Q) : Q :=
  let n1 := 7.5625 in
  let d1 := 2.75 in
  if Qltb x (1 / d1) then n1 * x * x
  else if Qltb x (2 / d1) then
    let x := x - 1.5 / d1 in n1 * x * x + 0.75
  else if Qltb x (2.5 / d1) then
    let x := x - 2.25 / d1 in n1 * x * x + 0.9375
  else
    let x := x - 2.625 / d1 in n1 * x * x + 0.984375.

Definition easeInBounce (x : Q) : Q := 1 - easeOutBounce (1 - x).

Definition easeInOutBounce (x : Q) : Q :=
  if Qltb x 0.5 then (1 - easeOutBounce (1 - 2 * x)) / 2
  else (1 + easeOutBounce (2 * x - 1)) / 2.

(** The curves of the Quad, Cubic, Quart and Quint families. *)
Definition polynomial_easings : list (Q -> Q) :=
  [easeInQuad; easeOutQuad; easeInOutQuad;
   easeInQubic; easeOutCubic; easeInOutCubic;
   easeInQuart; easeOutQuart; easeInOutQuart;
   easeInQuint; easeOutQuint; easeInOutQuint].

Definition bounce_easings : list (Q -> Q) :=
  [easeOutBounce; easeInBounce; easeInOutBounce].

(** [n] spaces. *)
Fixpoint spaces (n : nat) : string :=
  match n with
  | O => EmptyString
  | S k => String " "%char (spaces k)
  end.

(** A Component, Film or Screen: a class that takes [finish] and [lifetime]
    from [Component]. *)
Definition plain (i : Instance) : bool :=
  match payload i with
  | PTape _ | PSound _ => false
  | _ => true
  end.

(** A film holding a tape lasting 2 (film at 1, its children list at 0), and
    a screen (at 8, its children list at 7). *)
Definition screen_and_film : M unit :=
  film <~ Film_init "film" ;;
  tape <~ Tape_init (clip_lasting 2) false false "tape" ;;
  add_component 5 film tape "compose" 0 ;;;
  Screen_init (1200, 1200) 24%Z (0, 0, 0)%Z "screen" ;;;
  ret tt.

Definition screen_and_film_store : Store := snd (screen_and_film []).

(** Insertions with one policy, in order, each with its start. *)
Fixpoint insert_all (fuel : nat) (self : loc) (method : string)
    (items : list (loc * Q)) : M unit :=
  match items with
  | [] => ret tt
  | (component, start) :: rest =>
      add_component fuel self component method start ;;;
      insert_all fuel self method rest
  end.

(** The parent [p] at [self] has the children [cs], whose begins are
    [bs]. *)
Definition tracked (st : Store) (self : loc) (p : Instance) (cs : list loc)
    (bs : list Q) : Prop :=
  get_instance st self = Ok p /\
  get_children st (children p) = Ok cs /\
  Forall2 (fun c b => exists i, get_instance st c = Ok i /\ begin i = b) cs bs.

Definition last_opt (bs : list Q) : option Q :=
  match bs with
  | [] => None
  | _ => Some (last bs 0)
  end.


(** ** film.py: what [apply_attributes] leaves in a tape *)

Definition set_tape_pos (v : pair2) (t : TapeFields) : TapeFields :=
  {| tape_clip := tape_clip t; custom_start := custom_start t;
     custom_position := custom_position t; tape_pos := v;
     tape_offset := tape_offset t; tape_anchor := tape_anchor t;
     tape_span := tape_span t; effects := effects t;
     animations := animations t |}.

Definition set_tape_span (v : pair2) (t : TapeFields) : TapeFields :=
  {| tape_clip := tape_clip t; custom_start := custom_start t;
     custom_position := custom_position t; tape_pos := tape_pos t;
     tape_offset := tape_offset t; tape_anchor := tape_anchor t;
     tape_span := v; effects := effects t;
     animations := animations t |}.

Definition set_tape_anchor (v : string) (t : TapeFields) : TapeFields :=
  {| tape_clip := tape_clip t; custom_start := custom_start t;
     custom_position := custom_position t; tape_pos := tape_pos t;
     tape_offset := tape_offset t; tape_anchor := v;
     tape_span := tape_span t; effects := effects t;
     animations := animations t |}.

Definition set_tape_offset (v : pair2) (t : TapeFields) : TapeFields :=
  {| tape_clip := tape_clip t; custom_start := custom_start t;
     custom_position := custom_position t; tape_pos := tape_pos t;
     tape_offset := v; tape_anchor := tape_anchor t;
     tape_span := tape_span t; effects := effects t;
     animations := animations t |}.

Definition set_tape_layer (z : Z) (t : TapeFields) : TapeFields :=
  let c := tape_clip t in
  {| tape_clip :=
       {| clip_duration := clip_duration c; clip_w := clip_w c;
          clip_h := clip_h c; clip_start := clip_start c;
          clip_position := clip_position c; clip_layer_index := z;
          clip_audio := clip_audio c |};
     custom_start := custom_start t;
     custom_position := custom_position t; tape_pos := tape_pos t;
     tape_offset := tape_offset t; tape_anchor := tape_anchor t;
     tape_span := tape_span t; effects := effects t;
     animations := animations t |}.

Definition given {A : Type} (o : option A) (g : A -> TapeFields -> TapeFields)
    (t : TapeFields) : TapeFields :=
  match o with
  | Some v => g v t
  | None => t
  end.

(** The attributes of a tape once the given ones are assigned. *)
Definition attributes_applied (a : TapeAttributes) (t : TapeFields)
    : TapeFields :=
  given (attr_z_index a) set_tape_layer
    (given (attr_offset a) set_tape_offset
      (given (attr_anchor a) set_tape_anchor
        (given (attr_span a) set_tape_span
          (given (attr_pos a) set_tape_pos t)))).

Definition given_effects (a : TapeAttributes) : list Effect :=
  match attr_effects a with
  | Some es => es
  | None => []
  end.

(** An effect that plays a clip at twice its speed. *)
Definition double_speed : Effect :=
  {| effect_name := "MultiplySpeed";
     effect_apply := fun c => with_duration c (clip_duration c / 2) |}.

(** [tape.effects] of the tape at [l]. *)
Definition tape_effects (st : Store) (l : loc) : result (list Effect) :=
  i <- get_instance st l ;;
  t <- as_tape i ;;
  get_effects st (effects t).

(** [tape.pos], [tape.span], ... of the tape at [l]. *)
Definition tape_fields (st : Store) (l : loc) : result TapeFields :=
  i <- get_instance st l ;;
  as_tape i.

(** A screen (at 1) and a sound lasting 10 (at 3). *)
Definition screen_and_sound : M unit :=
  Screen_init (1200, 1200) 24%Z (0, 0, 0)%Z "screen" ;;;
  Sound_init (audio_lasting 10) "music" false ;;;
  ret tt.

Definition screen_and_sound_store : Store := snd (screen_and_sound []).

(** The tapes of the films of a screen, in the order [compose] visits
    them. *)
Fixpoint screen_tapes (st : Store) (films : list loc) : result (list loc) :=
  match films with
  | [] => Ok []
  | film :: rest =>
      f <- get_instance st film ;;
      tapes <- get_children st (children f) ;;
      more <- screen_tapes st rest ;;
      Ok (tapes ++ more)
  end.

(** The layer [c] is made from the clip of the tape at [l]: the clip is
    positioned, which keeps its duration, layer and start, then the effects
    of the tape are applied to it, and then, unless the tape has a custom
    start, it is started at the begin of the tape. *)
Definition stamped (st : Store) (l : loc) (c : Clip) : Prop :=
  exists i t es positioned,
    get_instance st l = Ok i /\ payload i = PTape t /\
    get_effects st (effects t) = Ok es /\
    clip_duration positioned = clip_duration (tape_clip t) /\
    clip_layer_index positioned = clip_layer_index (tape_clip t) /\
    clip_start positioned = clip_start (tape_clip t) /\
    c = if custom_start t then with_effects positioned es
        else with_start (with_effects positioned es) (begin i).

(** The stores [st] and [st'] hold the same objects, but for the one at
    [self]. *)
Definition same_but (self : loc) (st st' : Store) : Prop :=
  List.length st' = List.length st /\
  forall l, l <> self -> nth_error st' l = nth_error st l.

(** A screen (at 1) with a film inserted at start 10 (the copy at 9); the
    film holds a copy (at 8) of a tape lasting 2, inserted at start 0.5. *)
Definition screen_with_film : M unit :=
  screen <~ Screen_init (1200, 1200) 24%Z (0, 0, 0)%Z "screen" ;;
  film <~ Film_init "film" ;;
  tape <~ Tape_init (clip_lasting 2) false false "tape" ;;
  add_tape 5 film (One tape) "compose" 0.5
    (mkTapeAttributes None None None None None None) ;;;
  add_film 5 screen film "compose" 10 ;;;
  ret tt.

Definition screen_with_film_store : Store := snd (screen_with_film []).

(** * Properties *)

(** ** Arithmetic and list helpers *)

Lemma Qltb_true (x y : Q) : Qltb x y = true <-> x < y.
Proof.
  unfold Qltb. rewrite negb_true_iff.
  split; intro H.
  - apply Qnot_le_lt. intro Hle. apply Qle_bool_iff in Hle. congruence.
  - destruct (Qle_bool y x) eqn:E; [|reflexivity].
    apply Qle_bool_iff in E. exfalso. apply (Qlt_not_le _ _ H E).
Qed.

Lemma Qltb_false (x y : Q) : Qltb x y = false <-> y <= x.
Proof.
  unfold Qltb. rewrite negb_false_iff. apply Qle_bool_iff.
Qed.

Lemma Qleb_true (x y : Q) : Qleb x y = true <-> x <= y.
Proof. apply Qle_bool_iff. Qed.

Lemma Qleb_false (x y : Q) : Qleb x y = false <-> y < x.
Proof.
  unfold Qleb. split; intro H.
  - apply Qnot_le_lt. intro Hle. apply Qle_bool_iff in Hle. congruence.
  - destruct (Qle_bool x y) eqn:E; [|reflexivity].
    apply Qle_bool_iff in E. exfalso. apply (Qlt_not_le _ _ H E).
Qed.

Lemma py_div_pos (x y : Q) : 0 < y -> py_div x y = Ok (x / y).
Proof.
  intro H. unfold py_div.
  destruct (Qeq_bool y 0) eqn:E; [|reflexivity].
  apply Qeq_bool_iff in E. rewrite E in H. exfalso. apply (Qlt_irrefl _ H).
Qed.

(** On a non-negative number [int] and [math.floor] agree. *)
Lemma py_int_floor (x : Q) : 0 <= x -> py_int x = Qfloor x.
Proof.
  intro H. unfold py_int. destruct x as [n d]. simpl.
  apply Z.quot_div_nonneg; [|reflexivity].
  unfold Qle in H. simpl in H. lia.
Qed.

Lemma getitem_nonneg {A : Type} (xs : list A) (i : nat) (x : A) :
  nth_error xs i = Some x -> getitem xs (Z.of_nat i) = Ok x.
Proof.
  intro H. unfold getitem.
  assert (E : (Z.of_nat i <? 0)%Z = false) by (apply Z.ltb_ge; lia).
  rewrite E. cbv zeta. rewrite E, Nat2Z.id, H. reflexivity.
Qed.

Lemma getitem_last {A : Type} (xs : list A) (d : A) :
  xs <> [] -> getitem xs (-1) = Ok (last xs d).
Proof.
  intro H. unfold getitem, len.
  destruct (exists_last H) as [ys [y Hy]]. subst xs.
  rewrite last_last, length_app. simpl List.length.
  change (-1 <? 0)%Z with true. cbv iota zeta.
  replace (Z.of_nat (List.length ys + 1) + -1)%Z with (Z.of_nat (List.length ys)) by lia.
  assert (E : (Z.of_nat (List.length ys) <? 0)%Z = false) by (apply Z.ltb_ge; lia).
  rewrite E, Nat2Z.id, nth_error_app2 by lia.
  rewrite Nat.sub_diag. reflexivity.
Qed.

Lemma getitem_first {A : Type} (xs : list A) (d : A) :
  xs <> [] -> getitem xs 0 = Ok (hd d xs).
Proof.
  destruct xs as [|x xs]; [congruence|]. reflexivity.
Qed.

(** ** The animation evaluators (effects.py) *)

Section MoveAnim.

Variables (from_position to_position : pair2) (d start_delay : Q) (f : Q -> Q).
Hypothesis d_pos : 0 < d.

Let run (t : Q) : result pair2 :=
  moveAnim t from_position to_position d start_delay f.

Lemma moveAnim_before (t : Q) : t < start_delay -> run t = Ok from_position.
Proof.
  intro H. unfold run, moveAnim.
  apply Qltb_true in H. rewrite H. reflexivity.
Qed.

Lemma moveAnim_after (t : Q) : d < t - start_delay -> run t = Ok to_position.
Proof.
  intro H. unfold run, moveAnim.
  assert (Hs : Qltb t start_delay = false) by (apply Qltb_false; lra).
  apply Qltb_true in H. rewrite Hs, H. reflexivity.
Qed.

Lemma moveAnim_between (t : Q) :
  start_delay <= t -> t - start_delay <= d ->
  run t =
    let w := inject_Z (Qfloor (f ((t - start_delay) / d) * 1000)) / 1000 in
    Ok (inject_Z (py_int (interpolate (fst from_position) (fst to_position) w)),
        inject_Z (py_int (interpolate (snd from_position) (snd to_position) w))).
Proof.
  intros H1 H2. unfold run, moveAnim.
  apply Qltb_false in H1. apply Qltb_false in H2. rewrite H1, H2.
  rewrite (py_div_pos _ d_pos). reflexivity.
Qed.

End MoveAnim.

(** C3. The single-target position evaluator [moveAnim], for a duration
    [d > 0]: before [start_delay] it returns the from-position itself, once
    [t - start_delay > d] the to-position itself, and in between the pair of
    truncated per-axis interpolations at the weight
    [floor(f((t - start_delay)/d) * 1000) / 1000]; so at
    [start_delay - 0.001] it returns the from-position and at
    [start_delay + d + 0.001] the to-position. *)
Theorem moveAnim_spec (from_position to_position : pair2)
    (d start_delay : Q) (f : Q -> Q) :
  0 < d ->
  (forall t, t < start_delay ->
     moveAnim t from_position to_position d start_delay f = Ok from_position) /\
  (forall t, d < t - start_delay ->
     moveAnim t from_position to_position d start_delay f = Ok to_position) /\
  (forall t, start_delay <= t -> t - start_delay <= d ->
     moveAnim t from_position to_position d start_delay f =
       let w := inject_Z (Qfloor (f ((t - start_delay) / d) * 1000)) / 1000 in
       Ok (inject_Z (py_int (interpolate (fst from_position) (fst to_position) w)),
           inject_Z (py_int (interpolate (snd from_position) (snd to_position) w)))) /\
  moveAnim (start_delay - 0.001) from_position to_position d start_delay f
    = Ok from_position /\
  moveAnim (start_delay + d + 0.001) from_position to_position d start_delay f
    = Ok to_position.
Proof.
  intro Hd. split; [|split; [|split; [|split]]].
  - intros t H. apply moveAnim_before; assumption.
  - intros t H. apply moveAnim_after; assumption.
  - intros t H1 H2. apply moveAnim_between; assumption.
  - apply moveAnim_before; lra.
  - apply moveAnim_after; lra.
Qed.

Lemma moveAnim_spec_witness :
  0 < 2 /\
  moveAnim 1 (0, 0) (100, 40) 2 0 easeInQuad = Ok (inject_Z 25, inject_Z 10).
Proof.
  split; [reflexivity|].
  destruct (@moveAnim_spec (0, 0) (100, 40) 2 0 easeInQuad eq_refl)
    as (_ & _ & H & _).
  rewrite (H 1); [vm_compute; reflexivity | discriminate | discriminate].
Defined.

Section MoveToMany.

Variables (ps : list pair2) (each ease_duration start_delay : Q) (f : Q -> Q).
Hypothesis ps_nonempty : ps <> [].
Hypothesis each_pos : 0 < each.
Hypothesis ease_pos : 0 < ease_duration.

Let run (t : Q) : result pair2 :=
  moveToMany t ps each ease_duration start_delay f.

Lemma moveToMany_before (t : Q) :
  t < start_delay -> run t = Ok (hd (0, 0) ps).
Proof.
  intro H. unfold run, moveToMany.
  apply Qltb_true in H. rewrite H.
  apply getitem_first. exact ps_nonempty.
Qed.

Lemma moveToMany_after (t : Q) :
  start_delay <= t -> inject_Z (len ps) * each <= t - start_delay ->
  run t = Ok (last ps (0, 0)).
Proof.
  intros H1 H2. unfold run, moveToMany.
  apply Qltb_false in H1. apply Qleb_true in H2. rewrite H1, H2.
  apply getitem_last. exact ps_nonempty.
Qed.

(** The segment index the source computes with [int] is the floor. *)
Lemma segment_index (t : Q) :
  start_delay <= t ->
  py_int ((t - start_delay) / each) = Qfloor ((t - start_delay) / each).
Proof.
  intro H. apply py_int_floor.
  apply Qle_shift_div_l; [exact each_pos|]. lra.
Qed.

Lemma segment_index_nonneg (t : Q) :
  start_delay <= t -> (0 <= Qfloor ((t - start_delay) / each))%Z.
Proof.
  intro H. change 0%Z with (Qfloor 0). apply Qfloor_resp_le.
  apply Qle_shift_div_l; [exact each_pos|]. lra.
Qed.

Lemma moveToMany_inside (t : Q) :
  start_delay <= t -> t - start_delay < inject_Z (len ps) * each ->
  run t =
    let i := Qfloor ((t - start_delay) / each) in
    let segment_time := (t - start_delay) - inject_Z i * each in
    if (len ps - 1 <=? i)%Z then getitem ps (-1)
    else if Qleb segment_time ease_duration then
      p <- getitem ps i ;;
      p' <- getitem ps (i + 1) ;;
      let w := quantize f (segment_time / ease_duration) in
      Ok (inject_Z (py_int (interpolate (fst p) (fst p') w)),
          inject_Z (py_int (interpolate (snd p) (snd p') w)))
    else getitem ps (i + 1).
Proof.
  intros H1 H2. unfold run, moveToMany.
  apply Qltb_false in H1. rewrite H1.
  apply Qleb_false in H2. rewrite H2.
  rewrite (py_div_pos _ each_pos). cbn [bind].
  rewrite segment_index by (apply Qltb_false; exact H1).
  cbv zeta.
  destruct (len ps - 1 <=? _)%Z; [reflexivity|].
  destruct (Qleb _ ease_duration); [|reflexivity].
  rewrite (py_div_pos _ ease_pos). reflexivity.
Qed.

End MoveToMany.

Lemma getitem_in_range {A : Type} (xs : list A) (i : Z) :
  (0 <= i < len xs)%Z ->
  exists x, nth_error xs (Z.to_nat i) = Some x /\ getitem xs i = Ok x.
Proof.
  intros [H0 H1]. unfold len in H1.
  destruct (nth_error xs (Z.to_nat i)) as [x|] eqn:E.
  - exists x. split; [reflexivity|].
    rewrite <- (Z2Nat.id i H0). apply getitem_nonneg. exact E.
  - apply nth_error_None in E. lia.
Qed.

(** The quantized weight of an easing value between -0.009 and 0.01. *)
Lemma floor_near_zero (y : Q) :
  -0.009 <= y -> y < 0.01 -> (-9 <= Qfloor (y * 1000) <= 9)%Z.
Proof.
  intros H1 H2.
  pose proof (Qfloor_le (y * 1000)) as Hle.
  pose proof (Qlt_floor (y * 1000)) as Hlt.
  split.
  - assert (H : inject_Z (-9) < inject_Z (Qfloor (y * 1000) + 1)).
    { eapply Qle_lt_trans; [|exact Hlt].
      change (inject_Z (-9)) with (-9). clear Hle Hlt. lra. }
    rewrite <- Zlt_Qlt in H. lia.
  - assert (H : inject_Z (Qfloor (y * 1000)) < inject_Z 10).
    { eapply Qle_lt_trans; [exact Hle|].
      change (inject_Z 10) with 10. clear Hle Hlt. lra. }
    rewrite <- Zlt_Qlt in H. lia.
Qed.

(** With the example keyframes the evaluation at [t = 0] interpolates from
    the first keyframe at the weight the easing gives for progress zero. *)
Lemma moveToMany_example_at_zero (f : Q -> Q) :
  exists x, x == 0 /\
    moveToMany 0 keyframes_example 1.0 0.5 0 f =
      Ok (inject_Z (py_int (interpolate 0 100 (quantize f x))),
          inject_Z (py_int (interpolate 0 0 (quantize f x)))).
Proof.
  eexists. split; [|unfold moveToMany; cbn; reflexivity].
  vm_compute. reflexivity.
Qed.

Lemma interpolate_small_weight (k : Z) :
  (-9 <= k <= 9)%Z ->
  py_int (interpolate 0 100 (inject_Z k / 1000)) = 0%Z /\
  py_int (interpolate 0 0 (inject_Z k / 1000)) = 0%Z.
Proof.
  intro H.
  assert (Hk : k = (-9)%Z \/ k = (-8)%Z \/ k = (-7)%Z \/ k = (-6)%Z \/
               k = (-5)%Z \/ k = (-4)%Z \/ k = (-3)%Z \/ k = (-2)%Z \/
               k = (-1)%Z \/ k = 0%Z \/ k = 1%Z \/ k = 2%Z \/ k = 3%Z \/
               k = 4%Z \/ k = 5%Z \/ k = 6%Z \/ k = 7%Z \/ k = 8%Z \/
               k = 9%Z) by lia.
  repeat (destruct Hk as [Hk|Hk]; [subst k; vm_compute; split; reflexivity|]).
  subst k; vm_compute; split; reflexivity.
Qed.

(** C4, as the source has it. The multi-keyframe evaluator [moveToMany], for
    a non-empty keyframe list and positive [each] and [ease_duration]:
    the first keyframe before [start_delay]; the last keyframe from
    [len(ps) * each] on; otherwise, with [i = floor((t - start_delay)/each)],
    the last keyframe when [i >= len(ps) - 1], the truncated interpolation
    from [ps[i]] toward [ps[i+1]] at the quantized easing of the progress
    within [ease_duration] while the time within the segment is at most
    [ease_duration], and [ps[i+1]] itself after that. With the example
    keyframes, [t = 0.75] gives (100,0) and [t = 3.0] gives (200,0) for every
    easing; [t = 0] gives (0,0) for every easing whose value at progress zero
    lies in [-0.009, 0.01), as every curve with [f(0) = 0] does. *)
Theorem moveToMany_spec (ps : list pair2) (each ease_duration start_delay : Q)
    (f : Q -> Q) :
  ps <> [] -> 0 < each -> 0 < ease_duration ->
  (forall t, t < start_delay ->
     moveToMany t ps each ease_duration start_delay f = Ok (hd (0, 0) ps)) /\
  (forall t, start_delay <= t ->
     inject_Z (len ps) * each <= t - start_delay ->
     moveToMany t ps each ease_duration start_delay f = Ok (last ps (0, 0))) /\
  (forall t, start_delay <= t ->
     t - start_delay < inject_Z (len ps) * each ->
     let i := Qfloor ((t - start_delay) / each) in
     let segment_time := (t - start_delay) - inject_Z i * each in
     ((len ps - 1 <= i)%Z ->
        moveToMany t ps each ease_duration start_delay f
          = Ok (last ps (0, 0))) /\
     ((i < len ps - 1)%Z -> segment_time <= ease_duration ->
        exists p p',
          nth_error ps (Z.to_nat i) = Some p /\
          nth_error ps (Z.to_nat (i + 1)) = Some p' /\
          moveToMany t ps each ease_duration start_delay f =
            let w := inject_Z (Qfloor (f (segment_time / ease_duration) * 1000))
                       / 1000 in
            Ok (inject_Z (py_int (interpolate (fst p) (fst p') w)),
                inject_Z (py_int (interpolate (snd p) (snd p') w)))) /\
     ((i < len ps - 1)%Z -> ease_duration < segment_time ->
        exists p',
          nth_error ps (Z.to_nat (i + 1)) = Some p' /\
          moveToMany t ps each ease_duration start_delay f = Ok p')) /\
  ((forall x, x == 0 -> -0.009 <= f x /\ f x < 0.01) ->
     moveToMany 0 keyframes_example 1.0 0.5 0 f = Ok (0, 0)) /\
  moveToMany 0.75 keyframes_example 1.0 0.5 0 f = Ok (100, 0) /\
  moveToMany 3.0 keyframes_example 1.0 0.5 0 f = Ok (200, 0).
Proof.
  intros Hne He Hd. split; [|split; [|split; [|split; [|split]]]].
  - intros t H. apply moveToMany_before; assumption.
  - intros t H1 H2. apply moveToMany_after; assumption.
  - intros t H1 H2 i segment_time.
    pose proof (@moveToMany_inside ps each ease_duration start_delay f He Hd
                  t H1 H2) as E.
    cbv zeta in E. fold i in E. fold segment_time in E.
    pose proof (@segment_index_nonneg each start_delay He t H1) as Hi.
    fold i in Hi.
    split; [|split].
    + intro H. apply Z.leb_le in H. rewrite H in E. rewrite E.
      apply getitem_last. exact Hne.
    + intros H Hs.
      assert (Hf : (len ps - 1 <=? i)%Z = false) by (apply Z.leb_gt; exact H).
      apply Qleb_true in Hs. rewrite Hf, Hs in E.
      destruct (@getitem_in_range _ ps i) as (p & Hp & Gp); [lia|].
      destruct (@getitem_in_range _ ps (i + 1)) as (p' & Hp' & Gp'); [lia|].
      exists p, p'. split; [exact Hp|]. split; [exact Hp'|].
      rewrite E, Gp, Gp'. reflexivity.
    + intros H Hs.
      assert (Hf : (len ps - 1 <=? i)%Z = false) by (apply Z.leb_gt; exact H).
      apply Qleb_false in Hs. rewrite Hf, Hs in E.
      destruct (@getitem_in_range _ ps (i + 1)) as (p' & Hp' & Gp'); [lia|].
      exists p'. split; [exact Hp'|]. rewrite E. exact Gp'.
  - intro Hf.
    destruct (moveToMany_example_at_zero f) as (x & Hx & E).
    destruct (Hf x Hx) as [Hlo Hhi].
    destruct (interpolate_small_weight (floor_near_zero Hlo Hhi)) as [Ex Ey].
    rewrite E. unfold quantize, math_floor. rewrite Ex, Ey. reflexivity.
  - unfold moveToMany. cbn. reflexivity.
  - unfold moveToMany. cbn. reflexivity.
Qed.

Lemma moveToMany_spec_witness :
  keyframes_example <> [] /\ 0 < 1.0 /\ 0 < 0.5 /\
  (forall x, x == 0 -> -0.009 <= easeInQuad x /\ easeInQuad x < 0.01) /\
  moveToMany 0 keyframes_example 1.0 0.5 0 easeInQuad = Ok (0, 0) /\
  moveToMany 0.25 keyframes_example 1.0 0.5 0 easeInQuad = Ok (25, 0).
Proof.
  assert (H0 : keyframes_example <> []) by discriminate.
  assert (H1 : 0 < 1.0) by reflexivity.
  assert (H2 : 0 < 0.5) by reflexivity.
  assert (H3 : forall x, x == 0 -> -0.009 <= easeInQuad x /\ easeInQuad x < 0.01).
  { intros x Hx. unfold easeInQuad. rewrite Hx. split; [discriminate|reflexivity]. }
  destruct (@moveToMany_spec keyframes_example 1.0 0.5 0 easeInQuad H0 H1 H2)
    as (_ & _ & _ & Hzero & _).
  split; [exact H0|]. split; [exact H1|]. split; [exact H2|].
  split; [exact H3|]. split; [apply Hzero; exact H3|].
  vm_compute. reflexivity.
Defined.

(** C4, as stated, fails for an easing that does not start at zero: with the
    example keyframes and the constant easing 1 the evaluation at [t = 0]
    is already at the second keyframe. *)
Lemma moveToMany_example_counterexample :
  moveToMany 0 keyframes_example 1.0 0.5 0 (fun _ => 1) = Ok (100, 0) /\
  moveToMany 0 keyframes_example 1.0 0.5 0 (fun _ => 1) <> Ok (0, 0).
Proof.
  assert (E : moveToMany 0 keyframes_example 1.0 0.5 0 (fun _ => 1) = Ok (100, 0))
    by (vm_compute; reflexivity).
  split; [exact E|]. rewrite E. discriminate.
Qed.

(** ** The grid resolver (grid.py) *)

(** C5, as stated, fails for the anchor "center" (and on the centred axis of
    "left", "right", "top" and "bottom"): the offset is not used there. *)
Lemma get_coords_center_counterexample :
  get_coords (GridSystem_init (1200, 1200)) (clip_of_size 100 100) (0, 0)
    "center" (1, 1)
  = get_coords (GridSystem_init (1200, 1200)) (clip_of_size 100 100) (0, 0)
      "center" (0, 0) /\
  ~ moves_with_offset (GridSystem_init (1200, 1200)) (clip_of_size 100 100)
      (0, 0) "center".
Proof.
  split; [reflexivity|].
  intros (ref & sx & sy & Hsx & _ & H).
  destruct (H (0, 0)) as (c0 & E0 & X0 & _).
  destruct (H (1, 1)) as (c1 & E1 & X1 & _).
  assert (E : c1 = c0).
  { cut (Ok c1 = Ok c0); [intro HH; injection HH; auto|].
    rewrite <- E0, <- E1. reflexivity. }
  subst c1. unfold clip_of_size in X0, X1. cbn [clip_w fst] in X0, X1.
  unfold Qdiv in X0, X1. change (/ 2) with (1 # 2) in X0, X1.
  destruct Hsx as [Hs|Hs]; lra.
Qed.

(** C5, as the source has it. For each of the nine anchors the result is the
    anchor's reference point moved by [offset * (dimension/2)] against the
    axis for an anchor on the left or top edge and along it for one on the
    right or bottom edge; on an axis where the anchor is centred ("center" on
    both, "left" and "right" vertically, "top" and "bottom" horizontally) the
    offset is not used. *)
Theorem get_coords_offset_rule (g : GridSystem) (clip : Clip) (pos : pair2)
    (a : string) (offset : pair2) :
  In a valid_anchors ->
  exists c : pair2,
    get_coords g clip pos a offset = Ok c /\
    fst c == fst (reference_point g clip pos a)
             + sign_x a * (fst offset * (clip_w clip / 2)) /\
    snd c == snd (reference_point g clip pos a)
             + sign_y a * (snd offset * (clip_h clip / 2)).
Proof.
  intro H. unfold valid_anchors in H. simpl in H.
  repeat (destruct H as [H|H];
          [subst a; eexists; split; [reflexivity|];
           unfold reference_point, reference_coord; cbn;
           unfold Qdiv; change (/ 2) with (1 # 2); split; lra|]).
  contradiction.
Qed.

Lemma get_coords_offset_rule_witness :
  In "bottomright"%string valid_anchors /\
  exists c : pair2,
    get_coords (GridSystem_init (1200, 1200)) (clip_of_size 100 60) (1, 2)
      "bottomright" (1, 1) = Ok c /\
    fst c == 250 /\ snd c == 170.
Proof.
  assert (H : In "bottomright"%string valid_anchors)
    by (unfold valid_anchors; simpl; tauto).
  split; [exact H|].
  destruct (@get_coords_offset_rule (GridSystem_init (1200, 1200))
              (clip_of_size 100 60) (1, 2) "bottomright" (1, 1) H)
    as (c & E & X & Y).
  exists c. split; [exact E|].
  split; [rewrite X|rewrite Y]; vm_compute; reflexivity.
Defined.

(** ** The object store *)

Lemma update_length (st : Store) (l : loc) (o : Obj) :
  List.length (update st l o) = List.length st.
Proof.
  revert l. induction st as [|x st IH]; intros [|l]; simpl; auto.
Qed.

Lemma nth_error_update_same (st : Store) (l : loc) (o : Obj) :
  (l < List.length st)%nat -> nth_error (update st l o) l = Some o.
Proof.
  revert l. induction st as [|x st IH]; intros [|l] H; simpl in *;
    try lia; [reflexivity|]. apply IH. lia.
Qed.

Lemma nth_error_update_other (st : Store) (l l' : loc) (o : Obj) :
  l <> l' -> nth_error (update st l o) l' = nth_error st l'.
Proof.
  revert l l'. induction st as [|x st IH]; intros [|l] [|l'] H; simpl;
    try reflexivity; try congruence.
  apply IH. congruence.
Qed.

Lemma nth_error_alloc_old (st : Store) (o : Obj) (l : loc) :
  (l < List.length st)%nat -> nth_error (st ++ [o]) l = nth_error st l.
Proof. intro H. apply nth_error_app1. exact H. Qed.

Lemma nth_error_alloc_new (st : Store) (o : Obj) :
  nth_error (st ++ [o]) (List.length st) = Some o.
Proof. rewrite nth_error_app2, Nat.sub_diag by lia. reflexivity. Qed.

Lemma get_instance_bound (st : Store) (l : loc) (i : Instance) :
  get_instance st l = Ok i -> (l < List.length st)%nat.
Proof.
  unfold get_instance. intro H. apply nth_error_Some.
  destruct (nth_error st l); congruence.
Qed.

Lemma get_instance_nth (st : Store) (l : loc) (i : Instance) :
  get_instance st l = Ok i <-> nth_error st l = Some (OInstance i).
Proof.
  unfold get_instance. split; intro H.
  - destruct (nth_error st l) as [[]|]; congruence.
  - rewrite H. reflexivity.
Qed.

Lemma get_children_nth (st : Store) (l : loc) (cs : list loc) :
  get_children st l = Ok cs <-> nth_error st l = Some (OChildren cs).
Proof.
  unfold get_children. split; intro H.
  - destruct (nth_error st l) as [[]|]; congruence.
  - rewrite H. reflexivity.
Qed.

Lemma get_children_bound (st : Store) (l : loc) (cs : list loc) :
  get_children st l = Ok cs -> (l < List.length st)%nat.
Proof.
  intro H. apply get_children_nth in H. apply nth_error_Some. congruence.
Qed.

(** ** finish and lifetime (component.py, tape.py, sound.py) *)

(** C10. For a Sound, [finish] is [begin + clip.duration] and [lifetime] is
    [clip.duration], whatever its children are: the maximum over the
    children of [Component.finish] is not taken. *)
Theorem Sound_finish_lifetime (fuel : nat) (st : Store) (self : loc)
    (i : Instance) (s : SoundFields) :
  get_instance st self = Ok i -> payload i = PSound s ->
  finish (S fuel) st self = Ok (begin i + audio_duration (sound_clip s)) /\
  lifetime fuel st self = Ok (audio_duration (sound_clip s)).
Proof.
  intros Hi Hp. unfold lifetime. cbn [finish].
  rewrite Hi. cbn [bind]. rewrite Hp. split; reflexivity.
Qed.

Lemma Sound_finish_lifetime_witness :
  fst (sound_with_long_child []) = Ok (1%nat, 4%nat) /\
  (exists i s, get_instance long_child_store 1%nat = Ok i /\ payload i = PSound s /\
     get_children long_child_store (children i) = Ok [4%nat]) /\
  (exists fc, finish 5%nat long_child_store 4%nat = Ok fc /\ fc == 10) /\
  (exists f, finish 5%nat long_child_store 1%nat = Ok f /\ f == 2) /\
  lifetime 4%nat long_child_store 1%nat = Ok 2.
Proof.
  split; [reflexivity|].
  split; [do 2 eexists; repeat split; reflexivity|].
  split; [eexists; split; [vm_compute; reflexivity|reflexivity]|].
  destruct (@Sound_finish_lifetime 4%nat long_child_store 1%nat _ _ eq_refl eq_refl)
    as [Hf Hl].
  split; [eexists; split; [exact Hf|reflexivity]|].
  exact Hl.
Defined.

(** C7, as stated, fails for a Tape (and in the same way for a Sound): a
    tape without children finishes at [begin + clip.duration] and its
    lifetime is the duration of its clip. *)
Lemma childless_tape_counterexample :
  exists st tape i f l,
    Tape_init (clip_lasting 5) false false "clip" [] = (Ok tape, st) /\
    get_instance st tape = Ok i /\
    get_children st (children i) = Ok [] /\
    finish 5 st tape = Ok f /\ lifetime 5 st tape = Ok l /\
    ~ f == begin i /\ ~ l == 0.
Proof.
  do 5 eexists.
  split; [reflexivity|]. split; [reflexivity|]. split; [reflexivity|].
  split; [vm_compute; reflexivity|]. split; [vm_compute; reflexivity|].
  split; discriminate.
Qed.

(** C7, as the source has it. Without children: a Component, Film or Screen
    finishes at its [begin] and has lifetime 0; a Tape finishes at the later
    of [begin] and [begin + clip.duration] and a Sound at
    [begin + clip.duration], and the lifetime of both is the duration of the
    clip. *)
Theorem childless_finish_lifetime (fuel : nat) (st : Store) (self : loc)
    (i : Instance) :
  get_instance st self = Ok i ->
  get_children st (children i) = Ok [] ->
  match payload i with
  | PTape t =>
      finish (S fuel) st self
        = Ok (max2 (begin i) (begin i + clip_duration (tape_clip t))) /\
      lifetime (S fuel) st self = Ok (clip_duration (tape_clip t))
  | PSound s =>
      finish (S fuel) st self = Ok (begin i + audio_duration (sound_clip s)) /\
      lifetime (S fuel) st self = Ok (audio_duration (sound_clip s))
  | _ =>
      finish (S fuel) st self = Ok (begin i) /\
      exists l, lifetime (S fuel) st self = Ok l /\ l == 0
  end.
Proof.
  intros Hi Hc. unfold lifetime. cbn [finish]. unfold Component_finish.
  rewrite Hi. cbn [bind]. rewrite Hc. cbn [bind].
  destruct (payload i); try (split; reflexivity);
    (split; [reflexivity|eexists; split; [reflexivity|lra]]).
Qed.

Lemma childless_finish_lifetime_witness :
  Film_init "film" [] = (Ok 1%nat, snd (Film_init "film" [])) /\
  finish 1 (snd (Film_init "film" [])) 1%nat = Ok 0.0 /\
  exists l, lifetime 1 (snd (Film_init "film" [])) 1%nat = Ok l /\ l == 0.
Proof.
  split; [reflexivity|].
  exact (@childless_finish_lifetime 0%nat (snd (Film_init "film" [])) 1%nat _
           eq_refl eq_refl).
Defined.

(** ** add_component (component.py) *)

Lemma update_alloc_new (st : Store) (o o' : Obj) :
  update (st ++ [o]) (List.length st) o' = st ++ [o'].
Proof. induction st as [|x st IH]; simpl; [reflexivity|]. rewrite IH. reflexivity. Qed.

Lemma update_alloc_old (st : Store) (l : loc) (o o' : Obj) :
  (l < List.length st)%nat -> update (st ++ [o]) l o' = update st l o' ++ [o].
Proof.
  revert l. induction st as [|x st IH]; intros [|l] H; simpl in *; try lia;
    [reflexivity|]. rewrite IH by lia. reflexivity.
Qed.

Lemma get_instance_alloc_old (st : Store) (o : Obj) (l : loc) (i : Instance) :
  get_instance st l = Ok i -> get_instance (st ++ [o]) l = Ok i.
Proof.
  intro H. pose proof (get_instance_bound _ _ H) as B.
  unfold get_instance in *. rewrite nth_error_alloc_old by exact B. exact H.
Qed.

Lemma get_children_alloc_old (st : Store) (o : Obj) (l : loc) (cs : list loc) :
  get_children st l = Ok cs -> get_children (st ++ [o]) l = Ok cs.
Proof.
  intro H. pose proof (get_children_bound _ _ H) as B.
  unfold get_children in *. rewrite nth_error_alloc_old by exact B. exact H.
Qed.

Lemma get_instance_alloc_new (st : Store) (i : Instance) :
  get_instance (st ++ [OInstance i]) (List.length st) = Ok i.
Proof. unfold get_instance. rewrite nth_error_alloc_new. reflexivity. Qed.

Lemma set_begin_new (st : Store) (c : Instance) (v : Q) :
  set_begin (List.length st) v (st ++ [OInstance c])
  = (Ok tt, st ++ [OInstance (with_begin c v)]).
Proof.
  unfold set_begin, bindM, read, write.
  rewrite get_instance_alloc_new, update_alloc_new. reflexivity.
Qed.

Lemma children_append_run (st : Store) (self x : loc) (p : Instance)
    (cs : list loc) :
  get_instance st self = Ok p -> get_children st (children p) = Ok cs ->
  children_append self x st
  = (Ok tt, update st (children p) (OChildren (cs ++ [x]))).
Proof.
  intros Hp Hcs. unfold children_append, bindM, read, write.
  rewrite Hp, Hcs. reflexivity.
Qed.

Lemma place_run (st : Store) (self : loc) (p c : Instance) (cs : list loc)
    (v : Q) :
  get_instance st self = Ok p -> get_children st (children p) = Ok cs ->
  (set_begin (List.length st) v ;;;
   children_append self (List.length st) ;;;
   ret self) (st ++ [OInstance c])
  = (Ok self, inserted st p cs c v).
Proof.
  intros Hp Hcs. unfold bindM at 1. rewrite set_begin_new.
  unfold bindM.
  rewrite (@children_append_run _ self (List.length st) p cs)
    by (first [apply get_instance_alloc_old | apply get_children_alloc_old];
        assumption).
  unfold ret, inserted.
  rewrite update_alloc_old by (eapply get_children_bound; eassumption).
  reflexivity.
Qed.

(** One call of [add_component], for a parent [p] with children [cs] and a
    component [c]. *)
Lemma add_component_run (fuel : nat) (st : Store) (self component : loc)
    (method : string) (start : Q) (p c : Instance) (cs : list loc) :
  get_instance st self = Ok p ->
  get_instance st component = Ok c ->
  get_children st (children p) = Ok cs ->
  add_component fuel self component method start st =
    let st1 := st ++ [OInstance c] in
    if String.eqb method "compose" then
      (Ok self, inserted st p cs c (begin p + start))
    else if String.eqb method "concat" then
      match cs with
      | [] => (Ok self, inserted st p cs c start)
      | _ =>
          match finish fuel st1 (last cs O) with
          | Ok f => (Ok self, inserted st p cs c (f + start))
          | Raise e => (Raise e, st1)
          end
      end
    else if String.eqb method "last" then
      match cs with
      | [] => (Ok self, inserted st p cs c start)
      | _ =>
          match get_instance st1 (last cs O) with
          | Ok q => (Ok self, inserted st p cs c (begin q + start))
          | Raise e => (Raise e, st1)
          end
      end
    else (Raise ValueError, st1).
Proof.
  intros Hp Hc Hcs. cbv zeta.
  pose proof (@get_instance_alloc_old st (OInstance c) self p Hp) as Hp1.
  pose proof (@get_children_alloc_old st (OInstance c) _ cs Hcs) as Hcs1.
  unfold add_component, copy.
  unfold bindM at 1. unfold bindM at 1. unfold read at 1. rewrite Hc.
  unfold alloc.
  destruct (String.eqb method "compose").
  { unfold bindM at 1, read at 1. rewrite Hp1.
    apply place_run; assumption. }
  destruct (String.eqb method "concat").
  { unfold bindM at 1, read at 1. rewrite Hp1.
    unfold bindM at 1, read at 1. rewrite Hcs1.
    destruct cs as [|x cs'].
    - apply place_run; assumption.
    - unfold bindM at 1, read at 1.
      rewrite (@getitem_last _ (x :: cs') O) by discriminate.
      unfold bindM at 1, read at 1.
      destruct (finish fuel (st ++ [OInstance c]) (last (x :: cs') O))
        as [f|e]; [|reflexivity].
      apply place_run; assumption. }
  destruct (String.eqb method "last").
  { unfold bindM at 1, read at 1. rewrite Hp1.
    unfold bindM at 1, read at 1. rewrite Hcs1.
    destruct cs as [|x cs'].
    - apply place_run; assumption.
    - unfold bindM at 1, read at 1.
      rewrite (@getitem_last _ (x :: cs') O) by discriminate.
      unfold bindM at 1, read at 1.
      destruct (get_instance (st ++ [OInstance c]) (last (x :: cs') O))
        as [q|e]; [|reflexivity].
      apply place_run; assumption. }
  reflexivity.
Qed.


Lemma inserted_child (st : Store) (p c : Instance) (cs : list loc) (v : Q) :
  get_instance (inserted st p cs c v) (List.length st) = Ok (with_begin c v).
Proof.
  unfold inserted, get_instance.
  rewrite nth_error_app2; rewrite update_length; [|lia].
  rewrite Nat.sub_diag. reflexivity.
Qed.

Lemma inserted_children (st : Store) (p c : Instance) (cs : list loc) (v : Q) :
  get_children st (children p) = Ok cs ->
  get_children (inserted st p cs c v) (children p)
  = Ok (cs ++ [List.length st]).
Proof.
  intro H. apply get_children_bound in H.
  unfold inserted, get_children.
  rewrite nth_error_app1 by (rewrite update_length; exact H).
  rewrite nth_error_update_same by exact H. reflexivity.
Qed.

Lemma inserted_other (st : Store) (p c : Instance) (cs : list loc) (v : Q)
    (l : loc) :
  (l < List.length st)%nat -> l <> children p ->
  nth_error (inserted st p cs c v) l = nth_error st l.
Proof.
  intros H N. unfold inserted.
  rewrite nth_error_app1 by (rewrite update_length; exact H).
  apply nth_error_update_other. congruence.
Qed.

Lemma inserted_instance (st : Store) (p c : Instance) (cs : list loc) (v : Q)
    (l : loc) (i : Instance) :
  get_children st (children p) = Ok cs ->
  get_instance st l = Ok i ->
  get_instance (inserted st p cs c v) l = Ok i.
Proof.
  intros Hcs Hi. pose proof (get_instance_bound _ _ Hi) as B.
  apply get_instance_nth in Hi. apply get_children_nth in Hcs.
  apply get_instance_nth. rewrite inserted_other; [exact Hi|exact B|].
  intro E. subst l. congruence.
Qed.

(** A result of [finish] stays when objects are added to the store. *)
Lemma map_result_ext {A B : Type} (f g : A -> result B) (xs : list A)
    (ys : list B) :
  (forall x y, In x xs -> f x = Ok y -> g x = Ok y) ->
  map_result f xs = Ok ys -> map_result g xs = Ok ys.
Proof.
  revert ys. induction xs as [|x xs IH]; intros ys H E; simpl in *;
    [exact E|].
  destruct (f x) as [y|] eqn:Ex; [|discriminate]. cbn [bind] in E.
  destruct (map_result f xs) as [ys'|] eqn:Exs; [|discriminate].
  rewrite (H x y (or_introl eq_refl) Ex). cbn [bind].
  rewrite (IH ys') by auto. exact E.
Qed.

Lemma Component_finish_ext (f g : loc -> result Q) (st st' : Store)
    (i : Instance) (r : Q) :
  (forall cs, get_children st (children i) = Ok cs ->
              get_children st' (children i) = Ok cs /\
              forall x y, In x cs -> f x = Ok y -> g x = Ok y) ->
  Component_finish f st i = Ok r -> Component_finish g st' i = Ok r.
Proof.
  intros H E. unfold Component_finish in *.
  destruct (get_children st (children i)) as [cs|] eqn:Ec; [|discriminate].
  destruct (H cs eq_refl) as [Ec' Hfg]. rewrite Ec'. cbn [bind] in *.
  destruct cs as [|x cs]; [exact E|].
  destruct (map_result f (x :: cs)) as [fs|] eqn:Em; [|discriminate].
  rewrite (@map_result_ext _ _ f g (x :: cs) fs Hfg Em). exact E.
Qed.

Lemma finish_alloc (fuel : nat) (st : Store) (o : Obj) (l : loc) (f : Q) :
  finish fuel st l = Ok f -> finish fuel (st ++ [o]) l = Ok f.
Proof.
  revert l f. induction fuel as [|fuel IH]; intros l f H; [discriminate|].
  cbn [finish] in *.
  destruct (get_instance st l) as [i|] eqn:Ei; [|discriminate].
  rewrite (@get_instance_alloc_old st o l i Ei). cbn [bind] in *.
  assert (C : forall r, Component_finish (finish fuel st) st i = Ok r ->
                        Component_finish (finish fuel (st ++ [o])) (st ++ [o]) i = Ok r).
  { intro r. apply Component_finish_ext. intros cs Ec.
    split; [apply get_children_alloc_old; exact Ec|].
    intros x y _ Hy. apply IH. exact Hy. }
  destruct (payload i); try (apply C; exact H).
  - destruct (Component_finish (finish fuel st) st i) as [cf|] eqn:Ecf;
      [|discriminate].
    rewrite (C cf eq_refl). exact H.
  - exact H.
Qed.

(** C2. After a successful [add_component] on a parent [p] with children
    [cs], the children are [cs] followed by the new copy, whose [begin] is
    [p.begin + start] under "compose"; under "concat" [start] when [cs] is
    empty and the finish of the previous sibling plus [start] otherwise;
    under "last" [start] when [cs] is empty and the begin of the previous
    sibling plus [start] otherwise. The finish of the previous sibling is
    read once the copy exists, and is the one it has in the store before the
    call whenever it has one there. *)
Theorem add_component_begin (fuel : nat) (st st' : Store)
    (self component r : loc) (method : string) (start : Q)
    (p c : Instance) (cs : list loc) :
  get_instance st self = Ok p ->
  get_instance st component = Ok c ->
  get_children st (children p) = Ok cs ->
  add_component fuel self component method start st = (Ok r, st') ->
  r = self /\
  get_children st' (children p) = Ok (cs ++ [List.length st]) /\
  exists i',
    get_instance st' (List.length st) = Ok i' /\
    (method = "compose"%string -> begin i' = begin p + start) /\
    (method = "concat"%string -> cs = [] -> begin i' = start) /\
    (method = "concat"%string -> cs <> [] ->
       exists f, finish fuel (st ++ [OInstance c]) (last cs O) = Ok f /\
                 begin i' = f + start /\
                 forall f0, finish fuel st (last cs O) = Ok f0 -> f0 = f) /\
    (method = "last"%string -> cs = [] -> begin i' = start) /\
    (method = "last"%string -> cs <> [] ->
       exists q, get_instance (st ++ [OInstance c]) (last cs O) = Ok q /\
                 begin i' = begin q + start /\
                 forall q0, get_instance st (last cs O) = Ok q0 -> q0 = q).
Proof.
  intros Hp Hc Hcs H.
  rewrite (@add_component_run fuel st self component method start p c cs
             Hp Hc Hcs) in H.
  cbv zeta in H.
  assert (G : forall v, (Ok self, inserted st p cs c v) = (Ok r, st') ->
    r = self /\
    get_children st' (children p) = Ok (cs ++ [List.length st]) /\
    get_instance st' (List.length st) = Ok (with_begin c v)).
  { intros v E. injection E as <- <-.
    split; [reflexivity|]. split.
    - apply inserted_children. exact Hcs.
    - apply inserted_child. }
  destruct (String.eqb method "compose") eqn:M1.
  { apply String.eqb_eq in M1. subst method.
    destruct (G _ H) as (R & C & I).
    split; [exact R|]. split; [exact C|].
    eexists. split; [exact I|].
    repeat split; try discriminate. }
  destruct (String.eqb method "concat") eqn:M2.
  { apply String.eqb_eq in M2. subst method.
    destruct cs as [|x cs'].
    - destruct (G _ H) as (R & C & I).
      split; [exact R|]. split; [exact C|].
      eexists. split; [exact I|].
      repeat split; try discriminate; try congruence.
    - destruct (finish fuel (st ++ [OInstance c]) (last (x :: cs') O))
        as [f|e] eqn:Ef; [|discriminate].
      destruct (G _ H) as (R & C & I).
      split; [exact R|]. split; [exact C|].
      eexists. split; [exact I|].
      repeat split; try discriminate.
      intros _ _. exists f. split; [reflexivity|]. split; [reflexivity|].
      intros f0 E0. apply (@finish_alloc fuel st (OInstance c)) in E0.
      congruence. }
  destruct (String.eqb method "last") eqn:M3.
  { apply String.eqb_eq in M3. subst method.
    destruct cs as [|x cs'].
    - destruct (G _ H) as (R & C & I).
      split; [exact R|]. split; [exact C|].
      eexists. split; [exact I|].
      repeat split; try discriminate; try congruence.
    - destruct (get_instance (st ++ [OInstance c]) (last (x :: cs') O))
        as [q|e] eqn:Eq; [|discriminate].
      destruct (G _ H) as (R & C & I).
      split; [exact R|]. split; [exact C|].
      eexists. split; [exact I|].
      repeat split; try discriminate.
      intros _ _. exists q. split; [reflexivity|]. split; [reflexivity|].
      intros q0 E0. apply (@get_instance_alloc_old st (OInstance c)) in E0.
      congruence. }
  discriminate.
Qed.

Lemma add_component_begin_witness :
  exists st' i' f,
    add_component 5 1%nat 9%nat "concat" 0.5 film_with_tape_store
      = (Ok 1%nat, st') /\
    get_children st' 0%nat = Ok [10%nat; 11%nat] /\
    get_instance st' 11%nat = Ok i' /\
    finish 5 film_with_tape_store 10%nat = Ok f /\ f == 3 /\
    begin i' = f + 0.5.
Proof.
  pose (res := add_component 5 1%nat 9%nat "concat" 0.5 film_with_tape_store).
  assert (E : res = (Ok 1%nat, snd res)) by (vm_compute; reflexivity).
  assert (Hp : exists p, get_instance film_with_tape_store 1%nat = Ok p /\
                         children p = 0%nat)
    by (eexists; split; reflexivity).
  destruct Hp as (p & Hp & Hch).
  assert (Hc : exists c, get_instance film_with_tape_store 9%nat = Ok c)
    by (eexists; reflexivity).
  destruct Hc as (c & Hc).
  assert (Hcs : get_children film_with_tape_store (children p) = Ok [10%nat])
    by (rewrite Hch; reflexivity).
  destruct (@add_component_begin 5%nat film_with_tape_store (snd res) 1%nat
              9%nat 1%nat "concat" 0.5 p c [10%nat] Hp Hc Hcs E)
    as (_ & C & i' & I & _ & _ & F & _).
  destruct (F eq_refl) as (f & _ & B & U); [discriminate|].
  rewrite Hch in C.
  assert (Ef : exists f0, finish 5 film_with_tape_store 10%nat = Ok f0 /\ f0 == 3)
    by (eexists; split; [vm_compute; reflexivity|reflexivity]).
  destruct Ef as (f0 & Ef & Ev).
  pose proof (U f0 Ef) as ->.
  exists (snd res), i', f.
  split; [exact E|]. split; [exact C|]. split; [exact I|].
  split; [exact Ef|]. split; [exact Ev|]. exact B.
Defined.

(** ** Rejected names (component.py, grid.py) *)





(** ** Copy on insertion (component.py) *)

Lemma add_component_success (fuel : nat) (st st' : Store)
    (self component r : loc) (method : string) (start : Q)
    (p c : Instance) (cs : list loc) :
  get_instance st self = Ok p ->
  get_instance st component = Ok c ->
  get_children st (children p) = Ok cs ->
  add_component fuel self component method start st = (Ok r, st') ->
  exists v, st' = inserted st p cs c v.
Proof.
  intros Hp Hc Hcs H.
  rewrite (@add_component_run fuel st self component method start p c cs
             Hp Hc Hcs) in H.
  cbv zeta in H.
  repeat match type of H with
  | (if ?b then _ else _) = _ => destruct b
  | match ?x with _ => _ end = _ => destruct x
  end; try discriminate; injection H as _ <-; eexists; reflexivity.
Qed.








(** ** The composition guard (screen.py) *)

Lemma update_screen_run (st : Store) (self : loc) (i : Instance)
    (s : ScreenFields) (f : ScreenFields -> ScreenFields) :
  get_instance st self = Ok i -> payload i = PScreen s ->
  update_screen self f st
  = (Ok tt, update st self (OInstance (with_payload i (PScreen (f s))))).
Proof.
  intros Hi Hp. unfold update_screen, bindM, read, write, as_screen.
  rewrite Hi, Hp. reflexivity.
Qed.

Lemma get_instance_update_same (st : Store) (l : loc) (i i' : Instance) :
  get_instance st l = Ok i ->
  get_instance (update st l (OInstance i')) l = Ok i'.
Proof.
  intro H. apply get_instance_bound in H. unfold get_instance.
  rewrite nth_error_update_same by exact H. reflexivity.
Qed.

Lemma get_instance_update_other (st : Store) (l l' : loc) (o : Obj) :
  l <> l' -> get_instance (update st l o) l' = get_instance st l'.
Proof.
  intro H. unfold get_instance. rewrite nth_error_update_other by exact H.
  reflexivity.
Qed.

Lemma compose_empty (fuel : nat) (st : Store) (self : loc) (i : Instance)
    (s : ScreenFields) :
  get_instance st self = Ok i -> payload i = PScreen s ->
  get_children st (children i) = Ok [] ->
  compose fuel self st = (Raise ValueError, st).
Proof.
  intros Hi Hp Hc. unfold compose, bindM, read, as_screen.
  rewrite Hi, Hp, Hc. reflexivity.
Qed.

Lemma ensure_ready_raises (st : Store) (self : loc) :
  not_ready st self -> _ensure_ready self st = (Raise RuntimeError, st).
Proof.
  intros (i & s & Hi & Hp & He).
  unfold _ensure_ready, bindM, read, as_screen.
  rewrite Hi, Hp, He. reflexivity.
Qed.

Lemma queries_raise (st : Store) (self : loc) :
  not_ready st self ->
  (forall filename codec bitrate threads,
     render self filename codec bitrate threads st = (Raise RuntimeError, st)) /\
  get_end_video self st = (Raise RuntimeError, st) /\
  show self st = (Raise RuntimeError, st) /\
  preview self st = (Raise RuntimeError, st).
Proof.
  intro H. apply ensure_ready_raises in H.
  unfold render, get_end_video, show, preview, bindM.
  rewrite H. repeat split.
Qed.

Lemma Screen_init_not_ready (size : pair2) (fps : Z) (bgcolor : Z * Z * Z)
    (name : string) (st : Store) :
  exists self st',
    Screen_init size fps bgcolor name st = (Ok self, st') /\
    not_ready st' self.
Proof.
  do 2 eexists. split; [reflexivity|].
  do 2 eexists. split.
  - unfold get_instance.
    rewrite nth_error_app2; rewrite length_app; simpl List.length; [|lia].
    replace (List.length st + 1 - (List.length st + 1))%nat with O by lia.
    reflexivity.
  - split; reflexivity.
Qed.

(** [add_component] changes no instance the store already holds. *)
Lemma add_component_keeps_instance (fuel : nat) (st st' : Store)
    (self component l : loc) (method : string) (start : Q)
    (p i : Instance) (cs : list loc) (r : result loc) :
  get_instance st self = Ok p ->
  get_children st (children p) = Ok cs ->
  get_instance st l = Ok i ->
  add_component fuel self component method start st = (r, st') ->
  get_instance st' l = Ok i.
Proof.
  intros Hp Hcs Hi H.
  destruct (get_instance st component) as [c|e] eqn:Hc.
  - rewrite (@add_component_run fuel st self component method start p c cs
               Hp Hc Hcs) in H.
    cbv zeta in H.
    repeat match type of H with
    | (if ?b then _ else _) = _ => destruct b
    | match ?x with _ => _ end = _ => destruct x
    end; injection H as <- <-;
      first [apply inserted_instance; assumption
            |apply get_instance_alloc_old; assumption].
  - unfold add_component, copy in H.
    unfold bindM at 1, bindM at 1, read at 1 in H. rewrite Hc in H.
    injection H as <- <-. exact Hi.
Qed.

Lemma add_film_keeps_not_ready (fuel : nat) (st st' : Store)
    (self film : loc) (method : string) (start : Q) (cs : list loc)
    (r : result loc) :
  not_ready st self ->
  (forall p, get_instance st self = Ok p ->
             get_children st (children p) = Ok cs) ->
  add_film fuel self film method start st = (r, st') ->
  not_ready st' self.
Proof.
  intros N Hcs H. pose proof N as (p & s & Hp & Hs & He).
  unfold add_film in H.
  unfold bindM at 1, read at 1 in H.
  destruct (get_instance st film) as [f|e]; [|injection H as <- <-; exact N].
  unfold bindM at 1, read at 1 in H.
  destruct (get_children st (children f)) as [fs|e];
    [|injection H as <- <-; exact N].
  destruct (len fs =? 0)%Z; [injection H as <- <-; exact N|].
  unfold bindM at 1 in H.
  destruct (add_component fuel self film method start st) as [r1 st1] eqn:E.
  pose proof (@add_component_keeps_instance fuel st st1 self film self method
                start p p cs r1 Hp (Hcs p Hp) Hp E) as K.
  assert (N1 : not_ready st1 self) by (exists p, s; auto).
  destruct r1; injection H as <- <-; exact N1.
Qed.

(** C8, at a failing input. The screen holds a film with a tape lasting 2
    and background music lasting 1. [compose] caches the composition and
    then cuts the music to the total duration, which MoviePy rejects:
    [compose] raises [ValueError]. The screen is left with the composition
    cached, so [get_end_video], [show], [preview] and [render] pass the guard
    and hand it to the backend, though no call of [compose] has returned. *)
Theorem compose_failure_passes_guard :
  exists st e,
    compose 5 1%nat short_music_store = (Raise ValueError, st) /\
    _end_of st 1%nat = Ok (Some e) /\
    get_end_video 1%nat st = (Ok (Some (e, return_clip)), st) /\
    show 1%nat st = (Ok (Some (e, show_clip)), st) /\
    preview 1%nat st = (Ok (Some (e, preview_clip)), st) /\
    render 1%nat "out.mp4" "mpeg4" "4000k" 4%Z st
      = (Ok (Some (e, write_videofile "out.mp4" 24%Z "mpeg4" "4000k" 4%Z)),
         st).
Proof.
  do 2 eexists.
  split; [vm_compute; reflexivity|].
  split; [vm_compute; reflexivity|].
  split; [vm_compute; reflexivity|].
  split; [vm_compute; reflexivity|].
  split; vm_compute; reflexivity.
Qed.

(** ** Sequential placement (component.py, tape.py, sound.py) *)

Lemma mem_In (l : loc) (S : list loc) : mem l S = true <-> In l S.
Proof.
  unfold mem. rewrite existsb_exists. split.
  - intros (x & Hx & E). apply Nat.eqb_eq in E. subst x. exact Hx.
  - intro H. exists l. split; [exact H|apply Nat.eqb_refl].
Qed.

Lemma closedb_closed (st : Store) (S : list loc) :
  closedb st S = true -> closed st S.
Proof.
  unfold closedb, closed. rewrite forallb_forall. intros H l Hl.
  specialize (H l Hl).
  destruct (nth_error st l) as [[i|cs|es|a]|]; try exact I.
  - apply mem_In. exact H.
  - rewrite forallb_forall in H. intros c Hc. apply mem_In. auto.
  - discriminate.
Qed.

Lemma closed_bound (st : Store) (S : list loc) (l : loc) :
  closed st S -> In l S -> (l < List.length st)%nat.
Proof.
  intros C H. specialize (C l H). apply nth_error_Some.
  destruct (nth_error st l); [discriminate|contradiction].
Qed.

Lemma map_result_eq {A B : Type} (f g : A -> result B) (xs : list A) :
  (forall x, In x xs -> f x = g x) -> map_result f xs = map_result g xs.
Proof.
  induction xs as [|x xs IH]; intro H; simpl; [reflexivity|].
  rewrite (H x (or_introl eq_refl)), IH; [reflexivity|].
  intros y Hy. apply H. right. exact Hy.
Qed.

(** [finish] reads only what can be reached from the node. *)
Lemma finish_frame (fuel : nat) (st st' : Store) (S : list loc) :
  closed st S -> agree S st st' ->
  forall l, In l S -> finish fuel st' l = finish fuel st l.
Proof.
  intros C A. induction fuel as [|fuel IH]; intros l Hl; [reflexivity|].
  cbn [finish].
  assert (Ei : get_instance st' l = get_instance st l)
    by (unfold get_instance; rewrite (A l Hl); reflexivity).
  rewrite Ei. destruct (get_instance st l) as [i|e] eqn:Gi; [|reflexivity].
  cbn [bind].
  assert (Ec : Component_finish (finish fuel st') st' i
               = Component_finish (finish fuel st) st i).
  { unfold Component_finish.
    pose proof (C l Hl) as Cl. apply get_instance_nth in Gi.
    rewrite Gi in Cl.
    assert (Eg : get_children st' (children i) = get_children st (children i))
      by (unfold get_children; rewrite (A _ Cl); reflexivity).
    rewrite Eg.
    destruct (get_children st (children i)) as [cs|e] eqn:Gc; [|reflexivity].
    cbn [bind]. destruct cs as [|x cs]; [reflexivity|].
    apply get_children_nth in Gc. pose proof (C _ Cl) as Cc.
    rewrite Gc in Cc.
    rewrite (@map_result_eq _ _ (finish fuel st') (finish fuel st) (x :: cs));
      [reflexivity|].
    intros y Hy. apply IH. apply Cc. exact Hy. }
  rewrite Ec. reflexivity.
Qed.

Lemma last_nth_error {A : Type} (xs : list A) (x d : A) :
  nth_error (xs ++ [x]) (List.length xs) = Some x /\
  last (xs ++ [x]) d = x.
Proof.
  split; [|apply last_last].
  rewrite nth_error_app2, Nat.sub_diag by lia. reflexivity.
Qed.


Lemma max2_bounds (a b : Q) :
  a <= max2 a b /\ b <= max2 a b /\ (max2 a b = a \/ max2 a b = b).
Proof.
  unfold max2. destruct (Qltb a b) eqn:E.
  - apply Qltb_true in E. repeat split; try lra. right. reflexivity.
  - apply Qltb_false in E. repeat split; try lra. left. reflexivity.
Qed.






(** ** Worked examples *)

Example lower_strip_example :
  strip_space (lower "  TopLeft ") = "topleft"%string.
Proof. reflexivity. Qed.

(** The specification's grid example: screen (1200,1200), cell (0,0),
    anchor "center", element size (100,100). *)
Example get_coords_center_example :
  exists c,
    get_coords (GridSystem_init (1200, 1200)) (clip_of_size 100 100) (0, 0)
      "center" (0, 0) = Ok c /\
    fst c == 0 /\ snd c == 0.
Proof. eexists. split; [reflexivity|]. split; reflexivity. Qed.

Example moveToMany_quarter_example :
  moveToMany 0.25 keyframes_example 1.0 0.5 0 easeInQuad = Ok (25, 0).
Proof. vm_compute. reflexivity. Qed.

Example compose_then_query_example :
  exists e st i s total,
    screen_film_tape [] = (Ok (Some (e, return_clip)), st) /\
    List.length (video_layers e) = 2%nat /\
    get_instance st 1%nat = Ok i /\ payload i = PScreen s /\
    total_duration s = Some total /\ total == 2.
Proof.
  do 5 eexists.
  split; [vm_compute; reflexivity|].
  split; [reflexivity|].
  split; [vm_compute; reflexivity|].
  split; [reflexivity|]. split; reflexivity.
Qed.

(** * Further properties *)

(** ** Sampling and degenerate inputs of the evaluators (effects.py) *)

Lemma quantize_unit_range (f : Q -> Q) (x : Q) :
  0 <= f x -> f x <= 1 ->
  0 <= quantize f x /\ quantize f x <= 1 /\
  (quantize f x == 0 \/ 0.001 <= quantize f x).
Proof.
  intros H0 H1. unfold quantize, math_floor.
  assert (K0 : (0 <= Qfloor (f x * 1000))%Z).
  { apply (@Qfloor_resp_le 0 (f x * 1000)). lra. }
  assert (K1 : (Qfloor (f x * 1000) <= 1000)%Z).
  { apply (@Qfloor_resp_le (f x * 1000) 1000). lra. }
  set (k := Qfloor (f x * 1000)) in *.
  unfold Qdiv. change (/ 1000) with (1 # 1000).
  assert (Q0 : 0 <= inject_Z k)
    by (change 0 with (inject_Z 0); rewrite <- Zle_Qle; exact K0).
  assert (Q1 : inject_Z k <= 1000)
    by (change 1000 with (inject_Z 1000); rewrite <- Zle_Qle; exact K1).
  split; [lra|]. split; [lra|].
  destruct (Z.eq_dec k 0) as [E|N].
  - left. rewrite E. reflexivity.
  - right. assert (Q2 : 1 <= inject_Z k)
      by (change 1 with (inject_Z 1); rewrite <- Zle_Qle; lia).
    lra.
Qed.

(** X2. For an easing that maps [0,1] into [0,1] and a positive duration,
    [oneToZeroAnim] returns a number in [0,1] at every time: 0 before the
    start delay, 1 once the duration has passed, and in between at least
    0.0001, because a weight of exactly zero is nudged before it is used. *)
Theorem oneToZeroAnim_range (d start_delay : Q) (f : Q -> Q) (t : Q) :
  0 < d -> (forall x, 0 <= x -> x <= 1 -> 0 <= f x /\ f x <= 1) ->
  exists r,
    oneToZeroAnim t d start_delay f = Ok r /\
    0 <= r /\ r <= 1 /\
    (t < start_delay -> r == 0) /\
    (d < t - start_delay -> r == 1) /\
    (start_delay <= t -> t - start_delay <= d -> 0.0001 <= r).
Proof.
  intros Hd Hf. unfold oneToZeroAnim.
  destruct (Qltb t start_delay) eqn:E1.
  { apply Qltb_true in E1. exists 0.0.
    split; [reflexivity|]. repeat split; try lra; intros; lra. }
  apply Qltb_false in E1.
  destruct (Qltb d (t - start_delay)) eqn:E2.
  { apply Qltb_true in E2. exists 1.0.
    split; [reflexivity|]. repeat split; try lra; intros; lra. }
  apply Qltb_false in E2.
  rewrite (py_div_pos _ Hd). cbn [bind].
  eexists. split; [reflexivity|].
  destruct (Hf ((t - start_delay) / d)) as [F0 F1].
  { apply Qle_shift_div_l; [exact Hd|lra]. }
  { apply Qle_shift_div_r; [exact Hd|lra]. }
  destruct (quantize_unit_range f _ F0 F1) as (W0 & W1 & W2).
  set (w := quantize f ((t - start_delay) / d)) in *.
  unfold interpolate.
  destruct (Qeq_bool w 0) eqn:Ez.
  - apply Qeq_bool_iff in Ez. repeat split; try lra; intros; lra.
  - destruct W2 as [W2|W2].
    + apply Qeq_bool_iff in W2. congruence.
    + repeat split; try lra; intros; lra.
Qed.

Lemma unit_range_easeInQuad (x : Q) :
  0 <= x -> x <= 1 -> 0 <= easeInQuad x /\ easeInQuad x <= 1.
Proof. intros H0 H1. unfold easeInQuad. split; nra. Qed.

Lemma oneToZeroAnim_range_witness :
  0 < 2 /\
  (forall x, 0 <= x -> x <= 1 -> 0 <= easeInQuad x /\ easeInQuad x <= 1) /\
  exists r, oneToZeroAnim 0 2 0 easeInQuad = Ok r /\ 0.0001 <= r /\ r <= 1.
Proof.
  split; [reflexivity|]. split; [exact unit_range_easeInQuad|].
  destruct (@oneToZeroAnim_range 2 0 easeInQuad 0 eq_refl
              unit_range_easeInQuad)
    as (r & E & _ & H1 & _ & _ & Hw).
  exists r. split; [exact E|]. split; [|exact H1].
  apply Hw; discriminate.
Defined.

(** X3. [moveAnim] with a duration that is not positive: with duration 0 it
    returns the from-position before the start delay and the to-position
    after it, and raises [ZeroDivisionError] at the start delay itself; with
    a negative duration it returns the to-position from the start delay
    on. *)
Theorem moveAnim_degenerate_duration (from_position to_position : pair2)
    (d start_delay : Q) (f : Q -> Q) (t : Q) :
  (d == 0 ->
     (t < start_delay ->
        moveAnim t from_position to_position d start_delay f
          = Ok from_position) /\
     (start_delay < t ->
        moveAnim t from_position to_position d start_delay f
          = Ok to_position) /\
     (t == start_delay ->
        moveAnim t from_position to_position d start_delay f
          = Raise ZeroDivisionError)) /\
  (d < 0 -> start_delay <= t ->
     moveAnim t from_position to_position d start_delay f = Ok to_position).
Proof.
  unfold moveAnim. split.
  - intro Hd. split; [|split].
    + intro H. apply Qltb_true in H. rewrite H. reflexivity.
    + intro H.
      assert (E1 : Qltb t start_delay = false) by (apply Qltb_false; lra).
      assert (E2 : Qltb d (t - start_delay) = true) by (apply Qltb_true; lra).
      rewrite E1, E2. reflexivity.
    + intro H.
      assert (E1 : Qltb t start_delay = false) by (apply Qltb_false; lra).
      assert (E2 : Qltb d (t - start_delay) = false) by (apply Qltb_false; lra).
      rewrite E1, E2. unfold py_div.
      apply Qeq_bool_iff in Hd. rewrite Hd. reflexivity.
  - intros Hd H.
    assert (E1 : Qltb t start_delay = false) by (apply Qltb_false; lra).
    assert (E2 : Qltb d (t - start_delay) = true) by (apply Qltb_true; lra).
    rewrite E1, E2. reflexivity.
Qed.

Lemma moveAnim_degenerate_duration_witness :
  moveAnim 3 (0, 0) (100, 40) 0 3 easeInQuad = Raise ZeroDivisionError /\
  moveAnim 3 (0, 0) (100, 40) (-1) 3 easeInQuad = Ok (100, 40).
Proof.
  destruct (@moveAnim_degenerate_duration (0, 0) (100, 40) 0 3 easeInQuad 3)
    as [H0 _].
  destruct (@moveAnim_degenerate_duration (0, 0) (100, 40) (-1) 3 easeInQuad 3)
    as [_ H1].
  split.
  - apply H0; reflexivity.
  - apply H1; [reflexivity|discriminate].
Defined.

(** [int] keeps a number on its side of an integer bound. *)
Lemma py_int_lower (m : Z) (x : Q) : inject_Z m <= x -> (m <= py_int x)%Z.
Proof.
  destruct x as [n d]. unfold Qle, py_int. simpl. intro H.
  destruct (Z.le_gt_cases 0 n) as [P|N].
  - rewrite Z.quot_div_nonneg by lia.
    apply Z.div_le_lower_bound; lia.
  - replace n with (- (- n))%Z by lia.
    rewrite Z.quot_opp_l by lia.
    rewrite Z.quot_div_nonneg by lia.
    assert ((- n) / Z.pos d <= - m)%Z
      by (apply Z.div_le_upper_bound; lia).
    lia.
Qed.

Lemma py_int_upper (m : Z) (x : Q) : x <= inject_Z m -> (py_int x <= m)%Z.
Proof.
  destruct x as [n d]. unfold Qle, py_int. simpl. intro H.
  destruct (Z.le_gt_cases 0 n) as [P|N].
  - rewrite Z.quot_div_nonneg by lia.
    apply Z.div_le_upper_bound; lia.
  - replace n with (- (- n))%Z by lia.
    rewrite Z.quot_opp_l by lia.
    rewrite Z.quot_div_nonneg by lia.
    assert (- m <= (- n) / Z.pos d)%Z
      by (apply Z.div_le_lower_bound; lia).
    lia.
Qed.

(** An interpolation at a weight in [0,1], truncated, lies between its
    integer end points. *)
Lemma interpolate_truncated_between (a b : Z) (w : Q) :
  0 <= w -> w <= 1 ->
  (Z.min a b <= py_int (interpolate (inject_Z a) (inject_Z b) w) <= Z.max a b)%Z.
Proof.
  intros W0 W1. unfold interpolate.
  set (w' := if Qeq_bool w 0 then w + 0.0001 else w).
  assert (W : 0 <= w' /\ w' <= 1).
  { unfold w'. destruct (Qeq_bool w 0) eqn:E; [|split; assumption].
    apply Qeq_bool_iff in E. split; lra. }
  destruct W as [W0' W1'].
  set (qa := inject_Z a). set (qb := inject_Z b).
  destruct (Z.le_ge_cases a b) as [L|L].
  - assert (Q : qa <= qb) by (unfold qa, qb; rewrite <- Zle_Qle; exact L).
    rewrite Z.min_l, Z.max_r by lia. split.
    + apply py_int_lower. fold qa. nra.
    + apply py_int_upper. fold qb. nra.
  - assert (Q : qb <= qa) by (unfold qa, qb; rewrite <- Zle_Qle; exact L).
    rewrite Z.min_r, Z.max_l by lia. split.
    + apply py_int_lower. fold qb. nra.
    + apply py_int_upper. fold qa. nra.
Qed.

(** X4. With integer pixel positions and an easing that maps [0,1] into
    [0,1], [moveAnim] with a positive duration returns at every time a
    position whose coordinates are integers between those of the from- and
    the to-position: the animation never leaves the box they span. *)
Theorem moveAnim_in_box (x0 y0 x1 y1 : Z) (d start_delay : Q) (f : Q -> Q)
    (t : Q) :
  0 < d -> (forall x, 0 <= x -> x <= 1 -> 0 <= f x /\ f x <= 1) ->
  exists x y : Z,
    moveAnim t (inject_Z x0, inject_Z y0) (inject_Z x1, inject_Z y1)
      d start_delay f = Ok (inject_Z x, inject_Z y) /\
    (Z.min x0 x1 <= x <= Z.max x0 x1)%Z /\
    (Z.min y0 y1 <= y <= Z.max y0 y1)%Z.
Proof.
  intros Hd Hf. unfold moveAnim.
  destruct (Qltb t start_delay) eqn:E1.
  { exists x0, y0. split; [reflexivity|]. lia. }
  apply Qltb_false in E1.
  destruct (Qltb d (t - start_delay)) eqn:E2.
  { exists x1, y1. split; [reflexivity|]. lia. }
  apply Qltb_false in E2.
  rewrite (py_div_pos _ Hd). cbn [bind fst snd].
  destruct (Hf ((t - start_delay) / d)) as [F0 F1].
  { apply Qle_shift_div_l; [exact Hd|lra]. }
  { apply Qle_shift_div_r; [exact Hd|lra]. }
  destruct (quantize_unit_range f _ F0 F1) as (W0 & W1 & _).
  do 2 eexists. split; [reflexivity|].
  split; apply interpolate_truncated_between; assumption.
Qed.

Lemma moveAnim_in_box_witness :
  0 < 2 /\
  exists x y : Z,
    moveAnim 1 (inject_Z 0, inject_Z 80) (inject_Z 100, inject_Z 40) 2 0
      easeInQuad = Ok (inject_Z x, inject_Z y) /\
    (0 <= x <= 100)%Z /\ (40 <= y <= 80)%Z.
Proof.
  split; [reflexivity|].
  exact (@moveAnim_in_box 0 80 100 40 2 0 easeInQuad 1 eq_refl
           unit_range_easeInQuad).
Defined.



(** X6. [moveToMany] with an empty keyframe list raises [IndexError] at
    every time, whatever the other arguments are. *)
Theorem moveToMany_no_keyframes (each ease_duration start_delay : Q)
    (f : Q -> Q) (t : Q) :
  moveToMany t [] each ease_duration start_delay f = Raise IndexError.
Proof.
  unfold moveToMany.
  destruct (Qltb t start_delay) eqn:E1; [reflexivity|].
  apply Qltb_false in E1.
  assert (E2 : Qleb (inject_Z (len (@nil pair2)) * each) (t - start_delay) = true).
  { apply Qleb_true. change (inject_Z (len (@nil pair2))) with 0. lra. }
  rewrite E2. reflexivity.
Qed.

(** ** Interpolation and root finding (misc.py) *)

Lemma midpoint_between (a b : Q) :
  a <= b -> a <= (a + b) / 2 /\ (a + b) / 2 <= b.
Proof.
  intro H. unfold Qdiv. change (/ 2) with (1 # 2). split; lra.
Qed.

Lemma bisect_loop_range (func : Q -> Q) (xtol : Q) (maxiter : nat) :
  forall a b fa fb, a <= b ->
    a <= bisect_loop func a b fa fb xtol maxiter /\
    bisect_loop func a b fa fb xtol maxiter <= b.
Proof.
  induction maxiter as [|n IH]; intros a b fa fb H; cbn [bisect_loop].
  - apply midpoint_between. exact H.
  - destruct (midpoint_between H) as [M0 M1]. cbv zeta.
    destruct (Qltb (b - a) xtol); [split; assumption|].
    destruct (Qltb (Qabs (func ((a + b) / 2))) xtol); [split; assumption|].
    destruct (Qltb (fa * func ((a + b) / 2)) 0).
    + destruct (IH a ((a + b) / 2) fa (func ((a + b) / 2)) M0) as [L U].
      split; [exact L|]. eapply Qle_trans; [exact U|exact M1].
    + destruct (IH ((a + b) / 2) b (func ((a + b) / 2)) fb M1) as [L U].
      split; [|exact U]. eapply Qle_trans; [exact M0|exact L].
Qed.

(** X8. [bisect] returns a point of the interval it is given, whatever the
    function, the tolerance and the number of iterations; so
    [invert_easing] returns a progress in [0,1] for every function and
    target. *)
Theorem bisect_in_range (func : Q -> Q) (a b xtol : Q) (maxiter : nat) :
  a <= b ->
  (a <= bisect func a b xtol maxiter /\ bisect func a b xtol maxiter <= b) /\
  (forall fn y tol, 0 <= invert_easing fn y tol /\ invert_easing fn y tol <= 1).
Proof.
  assert (R : forall g lo hi tol n, lo <= hi ->
            lo <= bisect g lo hi tol n /\ bisect g lo hi tol n <= hi).
  { intros g lo hi tol n H. unfold bisect. cbv zeta.
    repeat match goal with
    | |- context [if ?c then _ else _] => destruct c
    end; try (split; lra).
    apply bisect_loop_range. exact H. }
  intro H. split; [apply R; exact H|].
  intros fn y tol. unfold invert_easing. apply R. discriminate.
Qed.

Lemma bisect_in_range_witness :
  0 <= 1 /\
  0 <= bisect (fun x => easeInQuad x - 0.25) 0 1 0.000001 100 /\
  bisect (fun x => easeInQuad x - 0.25) 0 1 0.000001 100 <= 1.
Proof.
  assert (H : 0 <= 1) by discriminate.
  split; [exact H|].
  exact (proj1 (@bisect_in_range (fun x => easeInQuad x - 0.25) 0 1 0.000001
                  100 H)).
Defined.

Lemma Qabs_cases (x : Q) :
  (0 <= x /\ Qabs x == x) \/ (x <= 0 /\ Qabs x == - x).
Proof.
  destruct (Qlt_le_dec x 0) as [N|P].
  - right. split; [lra|]. apply Qabs_neg. lra.
  - left. split; [exact P|]. apply Qabs_pos. exact P.
Qed.

(** X9. When the values of the function at the two ends do not differ in
    sign, [bisect] returns one of the ends; unless one of them is already
    within the tolerance of zero, it is the end where the function is
    closer to zero. *)
Theorem bisect_no_sign_change (func : Q -> Q) (a b xtol : Q) (maxiter : nat) :
  0 <= func a * func b ->
  (bisect func a b xtol maxiter = a \/ bisect func a b xtol maxiter = b) /\
  (xtol <= Qabs (func a) -> xtol <= Qabs (func b) ->
     Qabs (func (bisect func a b xtol maxiter)) <= Qabs (func a) /\
     Qabs (func (bisect func a b xtol maxiter)) <= Qabs (func b)).
Proof.
  intro H. unfold bisect. cbv zeta.
  apply Qleb_true in H.
  destruct (Qltb (Qabs (func a)) xtol) eqn:Ta.
  { apply Qltb_true in Ta. split; [left; reflexivity|]. intros; lra. }
  destruct (Qltb (Qabs (func b)) xtol) eqn:Tb.
  { apply Qltb_true in Tb. split; [right; reflexivity|]. intros; lra. }
  rewrite H. clear Ta Tb H.
  destruct (Qabs_cases (func a)) as [[Sa Ea]|[Sa Ea]];
  destruct (Qabs_cases (func b)) as [[Sb Eb]|[Sb Eb]];
  repeat match goal with
  | |- context [Qltb ?x ?y] =>
      let E := fresh "E" in
      destruct (Qltb x y) eqn:E;
      [apply Qltb_true in E|apply Qltb_false in E]; cbn [andb]
  end;
  (split; [auto|intros _ _; rewrite ?Ea, ?Eb; split; lra]).
Qed.

Lemma bisect_no_sign_change_witness :
  0 <= easeInQuad 2 * easeInQuad 3 /\
  bisect easeInQuad 2 3 0.000001 100 = 2.
Proof.
  assert (H : 0 <= easeInQuad 2 * easeInQuad 3) by discriminate.
  split; [exact H|].
  destruct (@bisect_no_sign_change easeInQuad 2 3 0.000001 100 H)
    as [[E|E] _]; [exact E|].
  vm_compute in E. discriminate.
Defined.






(** ** The easing curves (easings.py) *)

Lemma unit_powers (y : Q) :
  0 <= y -> y <= 1 ->
  (0 <= y * y /\ y * y <= 1) /\
  (0 <= y * y * y /\ y * y * y <= 1) /\
  (0 <= y * y * y * y /\ y * y * y * y <= 1) /\
  (0 <= y * y * y * y * y /\ y * y * y * y * y <= 1).
Proof.
  intros H0 H1.
  assert (P2 : 0 <= y * y /\ y * y <= 1) by (split; nra).
  assert (P3 : 0 <= y * y * y /\ y * y * y <= 1) by (split; nra).
  assert (P4 : 0 <= y * y * y * y /\ y * y * y * y <= 1) by (split; nra).
  assert (P5 : 0 <= y * y * y * y * y /\ y * y * y * y * y <= 1)
    by (split; nra).
  auto.
Qed.

Lemma unit_range_In (x : Q) :
  0 <= x -> x <= 1 ->
  (0 <= easeInQuad x /\ easeInQuad x <= 1) /\
  (0 <= easeInQubic x /\ easeInQubic x <= 1) /\
  (0 <= easeInQuart x /\ easeInQuart x <= 1) /\
  (0 <= easeInQuint x /\ easeInQuint x <= 1).
Proof.
  intros H0 H1. unfold easeInQuad, easeInQubic, easeInQuart, easeInQuint.
  apply unit_powers; assumption.
Qed.

Lemma unit_range_Out (x : Q) :
  0 <= x -> x <= 1 ->
  (0 <= easeOutQuad x /\ easeOutQuad x <= 1) /\
  (0 <= easeOutCubic x /\ easeOutCubic x <= 1) /\
  (0 <= easeOutQuart x /\ easeOutQuart x <= 1) /\
  (0 <= easeOutQuint x /\ easeOutQuint x <= 1).
Proof.
  intros H0 H1.
  unfold easeOutQuad, easeOutCubic, easeOutQuart, easeOutQuint.
  set (y := 1 - x).
  destruct (@unit_powers y) as (P2 & P3 & P4 & P5); try (unfold y; lra).
  assert (E3 : Qpower y 3 == y * y * y) by (simpl; ring).
  assert (E4 : Qpower y 4 == y * y * y * y) by (simpl; ring).
  assert (E5 : Qpower y 5 == y * y * y * y * y) by (simpl; ring).
  rewrite E3, E4, E5. repeat split; lra.
Qed.

Lemma unit_range_InOut (x : Q) :
  0 <= x -> x <= 1 ->
  (0 <= easeInOutQuad x /\ easeInOutQuad x <= 1) /\
  (0 <= easeInOutCubic x /\ easeInOutCubic x <= 1) /\
  (0 <= easeInOutQuart x /\ easeInOutQuart x <= 1) /\
  (0 <= easeInOutQuint x /\ easeInOutQuint x <= 1).
Proof.
  intros H0 H1.
  unfold easeInOutQuad, easeInOutCubic, easeInOutQuart, easeInOutQuint.
  destruct (Qltb x 0.5) eqn:E.
  - apply Qltb_true in E. pose (y := 2 * x).
    destruct (@unit_powers y) as (P2 & P3 & P4 & P5); try (unfold y; lra).
    assert (E2 : 2 * x * x == y * y * (1 # 2)) by (unfold y; ring).
    assert (E3 : 4 * x * x * x == y * y * y * (1 # 2)) by (unfold y; ring).
    assert (E4 : 8 * x * x * x * x == y * y * y * y * (1 # 2))
      by (unfold y; ring).
    assert (E5 : 16 * x * x * x * x * x == y * y * y * y * y * (1 # 2))
      by (unfold y; ring).
    rewrite E2, E3, E4, E5. repeat split; lra.
  - apply Qltb_false in E. set (y := -2 * x + 2).
    destruct (@unit_powers y) as (P2 & P3 & P4 & P5); try (unfold y; lra).
    assert (E2 : Qpower y 2 / 2 == y * y * (1 # 2)) by (simpl; field).
    assert (E3 : Qpower y 3 / 2 == y * y * y * (1 # 2)) by (simpl; field).
    assert (E4 : Qpower y 4 / 2 == y * y * y * y * (1 # 2))
      by (simpl; field).
    assert (E5 : Qpower y 5 / 2 == y * y * y * y * y * (1 # 2))
      by (simpl; field).
    rewrite E2, E3, E4, E5. repeat split; lra.
Qed.

(** X11. Every curve of the Quad, Cubic, Quart and Quint families maps the
    progress interval [0,1] into [0,1], starts at 0 and ends at 1: none of
    them overshoots. *)
Theorem polynomial_easings_unit_range (f : Q -> Q) :
  In f polynomial_easings ->
  (forall x, 0 <= x -> x <= 1 -> 0 <= f x /\ f x <= 1) /\
  f 0 == 0 /\ f 1 == 1.
Proof.
  intro H. split.
  - intros x H0 H1.
    pose proof (unit_range_In H0 H1) as (I2 & I3 & I4 & I5).
    pose proof (unit_range_Out H0 H1) as (O2 & O3 & O4 & O5).
    pose proof (unit_range_InOut H0 H1) as (B2 & B3 & B4 & B5).
    unfold polynomial_easings in H. simpl in H.
    repeat (destruct H as [<-|H]; [assumption|]). contradiction.
  - unfold polynomial_easings in H. simpl in H.
    repeat (destruct H as [<-|H]; [split; reflexivity|]). contradiction.
Qed.

Lemma polynomial_easings_unit_range_witness :
  In easeInOutCubic polynomial_easings /\
  0 <= easeInOutCubic 0.75 /\ easeInOutCubic 0.75 <= 1 /\
  easeInOutCubic 1 == 1.
Proof.
  assert (H : In easeInOutCubic polynomial_easings)
    by (unfold polynomial_easings; simpl; tauto).
  split; [exact H|].
  destruct (@polynomial_easings_unit_range easeInOutCubic H) as (R & _ & E1).
  destruct (R 0.75) as [L U]; [discriminate|discriminate|].
  split; [exact L|]. split; [exact U|exact E1].
Defined.

Lemma easeOutBounce_unit_range (x : Q) :
  0 <= x -> x <= 1 -> 0 <= easeOutBounce x /\ easeOutBounce x <= 1.
Proof.
  intros H0 H1. unfold easeOutBounce. cbv zeta.
  assert (C1 : 1 / 2.75 == 4 # 11) by reflexivity.
  assert (C2 : 2 / 2.75 == 8 # 11) by reflexivity.
  assert (C3 : 2.5 / 2.75 == 10 # 11) by reflexivity.
  assert (C4 : 1.5 / 2.75 == 6 # 11) by reflexivity.
  assert (C5 : 2.25 / 2.75 == 9 # 11) by reflexivity.
  assert (C6 : 2.625 / 2.75 == 21 # 22) by reflexivity.
  destruct (Qltb x (1 / 2.75)) eqn:E1.
  { apply Qltb_true in E1. rewrite C1 in E1. split; nra. }
  apply Qltb_false in E1. rewrite C1 in E1.
  destruct (Qltb x (2 / 2.75)) eqn:E2.
  { apply Qltb_true in E2. rewrite C2 in E2. rewrite C4.
    set (y := x - (6 # 11)).
    assert (Y : - (2 # 11) <= y /\ y <= 2 # 11) by (unfold y; split; lra).
    split; nra. }
  apply Qltb_false in E2. rewrite C2 in E2.
  destruct (Qltb x (2.5 / 2.75)) eqn:E3.
  { apply Qltb_true in E3. rewrite C3 in E3. rewrite C5.
    set (y := x - (9 # 11)).
    assert (Y : - (1 # 11) <= y /\ y <= 1 # 11) by (unfold y; split; lra).
    split; nra. }
  apply Qltb_false in E3. rewrite C3 in E3. rewrite C6.
  set (y := x - (21 # 22)).
  assert (Y : - (1 # 22) <= y /\ y <= 1 # 22) by (unfold y; split; lra).
  split; nra.
Qed.

(** X12. The three bounce curves map the progress interval [0,1] into
    [0,1], start at 0 and end at 1. *)
Theorem bounce_easings_unit_range (f : Q -> Q) :
  In f bounce_easings ->
  (forall x, 0 <= x -> x <= 1 -> 0 <= f x /\ f x <= 1) /\
  f 0 == 0 /\ f 1 == 1.
Proof.
  intro H. unfold bounce_easings in H. simpl in H.
  destruct H as [<-|[<-|[<-|[]]]].
  - split; [exact easeOutBounce_unit_range|split; reflexivity].
  - split; [|split; reflexivity].
    intros x H0 H1. unfold easeInBounce.
    destruct (@easeOutBounce_unit_range (1 - x)) as [L U]; try lra.
  - split; [|split; reflexivity].
    intros x H0 H1. unfold easeInOutBounce.
    unfold Qdiv. change (/ 2) with (1 # 2).
    destruct (Qltb x 0.5) eqn:E.
    + apply Qltb_true in E.
      destruct (@easeOutBounce_unit_range (1 - 2 * x)) as [L U]; try lra.
    + apply Qltb_false in E.
      destruct (@easeOutBounce_unit_range (2 * x - 1)) as [L U]; try lra.
Qed.

Lemma bounce_easings_unit_range_witness :
  In easeOutBounce bounce_easings /\
  0 <= easeOutBounce 0.8 /\ easeOutBounce 0.8 <= 1.
Proof.
  assert (H : In easeOutBounce bounce_easings)
    by (unfold bounce_easings; simpl; tauto).
  split; [exact H|].
  destruct (@bounce_easings_unit_range easeOutBounce H) as (R & _).
  apply R; discriminate.
Defined.

(** ** Placement on the grid (grid.py) *)

Lemma lower_app (a b : string) : lower (a ++ b) = (lower a ++ lower b)%string.
Proof.
  induction a as [|c a IH]; simpl; [reflexivity|]. rewrite IH. reflexivity.
Qed.

Lemma lower_spaces (n : nat) : lower (spaces n) = spaces n.
Proof.
  induction n as [|n IH]; simpl; [reflexivity|]. rewrite IH. reflexivity.
Qed.

Lemma lstrip_space_cons (c : ascii) (s : string) :
  lstrip_space (String c s)
  = if Ascii.eqb c " "%char then lstrip_space s else String c s.
Proof.
  destruct c as [[] [] [] [] [] [] [] []]; reflexivity.
Qed.

Lemma rstrip_space_spaces (m : nat) : rstrip_space (spaces m) = EmptyString.
Proof.
  induction m as [|m IH]; simpl; [reflexivity|]. rewrite IH. reflexivity.
Qed.

Lemma rstrip_space_app_spaces (u : string) (m : nat) :
  rstrip_space (u ++ spaces m) = rstrip_space u.
Proof.
  induction u as [|c u IH]; simpl.
  - apply rstrip_space_spaces.
  - rewrite IH. reflexivity.
Qed.

Lemma strip_space_padded (t : string) (n m : nat) :
  strip_space (spaces n ++ t ++ spaces m) = strip_space t.
Proof.
  unfold strip_space.
  induction n as [|n IH]; [|exact IH].
  cbn [spaces append].
  induction t as [|c t IH].
  - cbn [append]. induction m as [|m IHm]; [reflexivity|exact IHm].
  - cbn [append]. rewrite !lstrip_space_cons.
    destruct (Ascii.eqb c " "%char); [exact IH|].
    apply (rstrip_space_app_spaces (String c t)).
Qed.

(** X16. The grid resolver reads the anchor name without regard to letter
    case and to spaces around it: a name padded with spaces resolves like
    any name that is the same up to case. *)
Theorem get_coords_anchor_spelling (g : GridSystem) (clip : Clip)
    (pos : pair2) (a b : string) (n m : nat) (offset : pair2) :
  lower a = lower b ->
  get_coords g clip pos (spaces n ++ a ++ spaces m) offset
  = get_coords g clip pos b offset.
Proof.
  intro H. unfold get_coords. cbv zeta.
  rewrite !lower_app, !lower_spaces, strip_space_padded, H. reflexivity.
Qed.

Lemma get_coords_anchor_spelling_witness :
  get_coords (GridSystem_init (1200, 600)) (clip_of_size 100 60) (1, 2)
    "  TopRight " (1, 1)
  = get_coords (GridSystem_init (1200, 600)) (clip_of_size 100 60) (1, 2)
      "topright" (1, 1).
Proof.
  exact (@get_coords_anchor_spelling (GridSystem_init (1200, 600))
           (clip_of_size 100 60) (1, 2) "TopRight" "topright" 2 1 (1, 1)
           eq_refl).
Defined.

(** ** Derived times (component.py, tape.py) *)

Lemma fold_max2_bounds (rest : list Q) :
  forall x,
    x <= fold_left max2 rest x /\
    (forall y, In y rest -> y <= fold_left max2 rest x) /\
    (fold_left max2 rest x = x \/ In (fold_left max2 rest x) rest).
Proof.
  induction rest as [|r rest IH]; intro x; simpl.
  - split; [lra|]. split; [intros y []|left; reflexivity].
  - destruct (IH (max2 x r)) as (L & A & M).
    destruct (max2_bounds x r) as (Bx & Br & Bm).
    split; [lra|]. split.
    + intros y [<-|Hy]; [lra|apply A; exact Hy].
    + destruct M as [M|M]; [|right; right; exact M].
      rewrite M. destruct Bm as [-> | ->]; [left; reflexivity|].
      right. left. reflexivity.
Qed.

Lemma max_list_bounds (xs : list Q) (d : Q) :
  xs <> [] ->
  (forall y, In y xs -> y <= max_list xs d) /\ In (max_list xs d) xs.
Proof.
  destruct xs as [|x rest]; [congruence|]. intros _. unfold max_list.
  destruct (fold_max2_bounds rest x) as (L & A & M). split.
  - intros y [<-|Hy]; [exact L|apply A; exact Hy].
  - destruct M as [-> | M]; [left; reflexivity|right; exact M].
Qed.

Lemma map_result_In {A B : Type} (f : A -> result B) (xs : list A)
    (ys : list B) :
  map_result f xs = Ok ys ->
  (forall x, In x xs -> exists y, f x = Ok y /\ In y ys) /\
  (forall y, In y ys -> exists x, In x xs /\ f x = Ok y).
Proof.
  revert ys. induction xs as [|a xs IH]; intros ys H; simpl in H.
  - injection H as <-. split; intros ? [].
  - destruct (f a) as [b|] eqn:Ea; [|discriminate]. cbn [bind] in H.
    destruct (map_result f xs) as [bs|] eqn:Exs; [|discriminate].
    injection H as <-. destruct (IH bs eq_refl) as [I1 I2]. split.
    + intros x [<-|Hx].
      * exists b. split; [exact Ea|left; reflexivity].
      * destruct (I1 x Hx) as (y & Ey & Hy). exists y.
        split; [exact Ey|right; exact Hy].
    + intros y [<-|Hy].
      * exists a. split; [left; reflexivity|exact Ea].
      * destruct (I2 y Hy) as (x & Hx & Ex). exists x.
        split; [right; exact Hx|exact Ex].
Qed.

(** The finish of [Component.finish] over a non-empty list of children is
    the greatest finish of a child. *)
Lemma Component_finish_max (g : loc -> result Q) (st : Store) (i : Instance)
    (cs : list loc) (f : Q) :
  get_children st (children i) = Ok cs -> cs <> [] ->
  Component_finish g st i = Ok f ->
  (forall c, In c cs -> exists fc, g c = Ok fc /\ fc <= f) /\
  (exists c, In c cs /\ g c = Ok f).
Proof.
  intros Hc Hne H. unfold Component_finish in H. rewrite Hc in H.
  cbn [bind] in H. destruct cs as [|x cs]; [congruence|].
  destruct (map_result g (x :: cs)) as [fs|] eqn:Em; [|discriminate].
  injection H as <-.
  destruct (@map_result_In _ _ g (x :: cs) fs Em) as [I1 I2].
  assert (Nf : fs <> []).
  { destruct (I1 x (or_introl eq_refl)) as (y & _ & Hy).
    intro E. subst fs. exact Hy. }
  destruct (@max_list_bounds fs (begin i) Nf) as [A M]. split.
  - intros c Hin. destruct (I1 c Hin) as (y & Ey & Hy).
    exists y. split; [exact Ey|apply A; exact Hy].
  - destruct (I2 _ M) as (c & Hin & Ec). exists c. split; assumption.
Qed.

(** X17. A Component, Film or Screen that has children finishes when the
    last of them does: its finish is at least the finish of every child and
    is the finish of one of them; its own begin plays no part. *)
Theorem plain_finish_is_latest_child (fuel : nat) (st : Store) (self : loc)
    (i : Instance) (cs : list loc) (f : Q) :
  get_instance st self = Ok i -> plain i = true ->
  get_children st (children i) = Ok cs -> cs <> [] ->
  finish (S fuel) st self = Ok f ->
  (forall c, In c cs -> exists fc, finish fuel st c = Ok fc /\ fc <= f) /\
  (exists c, In c cs /\ finish fuel st c = Ok f).
Proof.
  intros Hi Hp Hc Hne H. cbn [finish] in H. rewrite Hi in H. cbn [bind] in H.
  unfold plain in Hp.
  destruct (payload i); try discriminate;
    exact (@Component_finish_max (finish fuel st) st i cs f Hc Hne H).
Qed.

Lemma plain_finish_is_latest_child_witness :
  exists f, finish 5 film_with_tape_store 1%nat = Ok f /\
    (exists fc, finish 4 film_with_tape_store 10%nat = Ok fc /\ fc <= f) /\
    f == 3.
Proof.
  assert (Hf : exists f, finish 5 film_with_tape_store 1%nat = Ok f /\ f == 3)
    by (eexists; split; [vm_compute; reflexivity|reflexivity]).
  destruct Hf as (f & Hf & Ef).
  destruct (@plain_finish_is_latest_child 4%nat film_with_tape_store 1%nat
              _ [10%nat] f eq_refl eq_refl eq_refl) as [A _];
    [discriminate|exact Hf|].
  exists f. split; [exact Hf|]. split; [|exact Ef].
  apply A. left. reflexivity.
Defined.

(** X18. A Tape never finishes before its clip ends nor before a sound
    attached to it does: its finish is at least [begin + clip.duration],
    the begin plus the lifetime, and at least the finish of every child. *)
Theorem Tape_finish_lower_bounds (fuel : nat) (st : Store) (self : loc)
    (i : Instance) (t : TapeFields) (f : Q) :
  get_instance st self = Ok i -> payload i = PTape t ->
  finish (S fuel) st self = Ok f ->
  begin i + clip_duration (tape_clip t) <= f /\
  lifetime (S fuel) st self = Ok (clip_duration (tape_clip t)) /\
  (forall cs c, get_children st (children i) = Ok cs -> In c cs ->
     exists fc, finish fuel st c = Ok fc /\ fc <= f).
Proof.
  intros Hi Hp H. unfold lifetime. cbn [finish] in H.
  rewrite Hi in *. cbn [bind] in *. rewrite Hp in *.
  destruct (Component_finish (finish fuel st) st i) as [cf|] eqn:Ec;
    [|discriminate].
  injection H as <-.
  destruct (max2_bounds cf (begin i + clip_duration (tape_clip t)))
    as (B1 & B2 & _).
  split; [exact B2|]. split; [reflexivity|].
  intros cs c Hc Hin.
  assert (Hne : cs <> []) by (intro E; subst cs; exact Hin).
  destruct (@Component_finish_max (finish fuel st) st i cs cf Hc Hne Ec)
    as [A _].
  destruct (A c Hin) as (fc & Ef & Le). exists fc. split; [exact Ef|lra].
Qed.

Lemma Tape_finish_lower_bounds_witness :
  exists st f,
    film_with_overhanging_sound [] = (Ok 1%nat, st) /\
    finish 5 st 5%nat = Ok f /\ 0.0 + 2 <= f /\ f == 10.
Proof.
  pose (st := snd (film_with_overhanging_sound [])).
  assert (Hf : exists f, finish 5 st 5%nat = Ok f /\ f == 10)
    by (eexists; split; [vm_compute; reflexivity|reflexivity]).
  destruct Hf as (f & Hf & Ef).
  destruct (@Tape_finish_lower_bounds 4%nat st 5%nat _ _ f eq_refl eq_refl Hf)
    as (B & _).
  exists st, f. split; [vm_compute; reflexivity|].
  split; [exact Hf|]. split; [|exact Ef].
  exact B.
Defined.

(** ** What insertion does not move (component.py) *)

Lemma map_result_cons_shape {A B : Type} (f : A -> result B) (x : A)
    (xs : list A) (ys : list B) :
  map_result f (x :: xs) = Ok ys -> exists y ys', ys = y :: ys'.
Proof.
  simpl. destruct (f x) as [y|]; [|discriminate]. cbn [bind].
  destruct (map_result f xs) as [ys'|]; [|discriminate].
  intro H. injection H as <-. exists y, ys'. reflexivity.
Qed.

(** X20. A Component, Film or Screen that already has children is not moved
    by its insertion: the copy that [add_component] appends has the finish
    the original has, whatever the policy and the start are, because the
    children it shares keep their begins. (Nothing reachable from the
    component is the children list of the parent.) *)
Theorem inserted_plain_keeps_finish (fuel : nat) (st st' : Store)
    (self component r : loc) (method : string) (start : Q)
    (p c : Instance) (cs : list loc) (x : loc) (xs : list loc)
    (F : list loc) :
  get_instance st self = Ok p ->
  get_instance st component = Ok c ->
  get_children st (children p) = Ok cs ->
  plain c = true ->
  get_children st (children c) = Ok (x :: xs) ->
  closedb st F = true -> mem component F = true ->
  mem (children p) F = false ->
  add_component fuel self component method start st = (Ok r, st') ->
  finish fuel st' (List.length st) = finish fuel st component.
Proof.
  intros Hp Hc Hcs Hpl Hch HF Hin HL H.
  destruct (@add_component_success fuel st st' self component r method start
              p c cs Hp Hc Hcs H) as [v ->].
  apply closedb_closed in HF. apply mem_In in Hin.
  assert (NL : ~ In (children p) F)
    by (intro X; apply mem_In in X; congruence).
  assert (A : agree F st (inserted st p cs c v)).
  { intros l Hl. apply inserted_other.
    - eapply closed_bound; eassumption.
    - intro E. subst l. exact (NL Hl). }
  assert (Cc : In (children c) F).
  { pose proof (HF _ Hin) as X. apply get_instance_nth in Hc.
    rewrite Hc in X. exact X. }
  assert (Cx : incl (x :: xs) F).
  { pose proof (HF _ Cc) as X. apply get_children_nth in Hch.
    rewrite Hch in X. exact X. }
  destruct fuel as [|fuel]; [reflexivity|].
  cbn [finish]. rewrite inserted_child, Hc. cbn [bind].
  assert (E : Component_finish (finish fuel (inserted st p cs c v))
                (inserted st p cs c v) (with_begin c v)
              = Component_finish (finish fuel st) st c).
  { unfold Component_finish. cbn [children with_begin].
    assert (Eg : get_children (inserted st p cs c v) (children c)
                 = get_children st (children c))
      by (unfold get_children; rewrite (A _ Cc); reflexivity).
    rewrite Eg, Hch. cbn [bind].
    rewrite (@map_result_eq _ _ (finish fuel (inserted st p cs c v))
               (finish fuel st) (x :: xs)).
    2:{ intros y Hy. apply (@finish_frame fuel st _ F HF A). apply Cx.
        exact Hy. }
    destruct (map_result (finish fuel st) (x :: xs)) as [fs|e] eqn:Em;
      [|reflexivity].
    destruct (map_result_cons_shape _ _ _ Em) as (y & ys & ->).
    reflexivity. }
  unfold plain in Hpl. cbn [payload with_begin].
  destruct (payload c); try discriminate; exact E.
Qed.

Lemma inserted_plain_keeps_finish_witness :
  exists st' f,
    add_component 5 8%nat 1%nat "compose" 100 screen_and_film_store
      = (Ok 8%nat, st') /\
    finish 5 st' 9%nat = Ok f /\
    finish 5 screen_and_film_store 1%nat = Ok f /\ f == 2.
Proof.
  pose (res := add_component 5 8%nat 1%nat "compose" 100 screen_and_film_store).
  assert (E : res = (Ok 8%nat, snd res)) by (vm_compute; reflexivity).
  assert (Hp : exists p, get_instance screen_and_film_store 8%nat = Ok p /\
                         children p = 7%nat)
    by (eexists; split; reflexivity).
  destruct Hp as (p & Hp & Hch).
  assert (Hcs : get_children screen_and_film_store (children p) = Ok [])
    by (rewrite Hch; reflexivity).
  assert (HL : mem (children p) [0%nat; 1%nat; 2%nat; 6%nat] = false)
    by (rewrite Hch; reflexivity).
  pose proof (@inserted_plain_keeps_finish 5%nat screen_and_film_store
                (snd res) 8%nat 1%nat 8%nat "compose" 100 p _ [] 6%nat []
                [0%nat; 1%nat; 2%nat; 6%nat]
                Hp eq_refl Hcs eq_refl eq_refl eq_refl eq_refl HL E) as K.
  assert (Hf : exists f, finish 5 screen_and_film_store 1%nat = Ok f /\ f == 2)
    by (eexists; split; [vm_compute; reflexivity|reflexivity]).
  destruct Hf as (f & Hf & Ef).
  exists (snd res), f.
  split; [exact E|]. split; [|split; [exact Hf|exact Ef]].
  change 9%nat with (List.length screen_and_film_store).
  rewrite K. exact Hf.
Defined.

(** ** The "last" and "compose" policies over several insertions *)

Lemma Forall2_last_related {A B : Type} (R : A -> B -> Prop) (xs : list A)
    (ys : list B) (dx : A) (dy : B) :
  Forall2 R xs ys -> xs <> [] -> ys <> [] /\ R (last xs dx) (last ys dy).
Proof.
  induction 1 as [|x y xs ys Hxy H IH]; intro N; [congruence|].
  split; [discriminate|].
  destruct xs as [|x' xs'].
  - inversion H; subst. exact Hxy.
  - inversion H as [|? y' ? ys' ? ? E1 E2]; subst.
    destruct IH as [_ IH]; [discriminate|]. exact IH.
Qed.

Lemma tracked_step (fuel : nat) (st st' : Store) (self component r : loc)
    (method : string) (s : Q) (p : Instance) (cs : list loc) (bs : list Q) :
  tracked st self p cs bs ->
  add_component fuel self component method s st = (Ok r, st') ->
  (method = "compose"%string ->
     tracked st' self p (cs ++ [List.length st]) (bs ++ [begin p + s])) /\
  (method = "last"%string ->
     tracked st' self p (cs ++ [List.length st])
       (bs ++ [match last_opt bs with None => s | Some b => b + s end])).
Proof.
  intros (Hp & Hcs & T) H.
  destruct (get_instance st component) as [c|e] eqn:Hc.
  2:{ unfold add_component, copy in H.
      unfold bindM at 1, bindM at 1, read at 1 in H. rewrite Hc in H.
      discriminate. }
  rewrite (@add_component_run fuel st self component method s p c cs
             Hp Hc Hcs) in H.
  cbv zeta in H.
  assert (G : forall v, st' = inserted st p cs c v ->
                        tracked st' self p (cs ++ [List.length st]) (bs ++ [v])).
  { intros v ->. split; [apply inserted_instance; assumption|].
    split; [apply inserted_children; assumption|].
    apply Forall2_app.
    - eapply Forall2_impl; [|exact T]. intros a b (i & Gi & Bi).
      exists i. split; [apply inserted_instance; assumption|exact Bi].
    - constructor; [|constructor]. exists (with_begin c v).
      split; [apply inserted_child|reflexivity]. }
  split; intros ->; cbn [String.eqb Ascii.eqb Bool.eqb] in H.
  - injection H as _ <-. apply G. reflexivity.
  - destruct cs as [|x cs0].
    + inversion T; subst. injection H as _ <-. apply G. reflexivity.
    + destruct (get_instance (st ++ [OInstance c]) (last (x :: cs0) O))
        as [q|e] eqn:Hq; [|discriminate].
      injection H as _ <-.
      destruct (@Forall2_last_related _ _ _ (x :: cs0) bs O 0 T) as [Nb L];
        [discriminate|].
      destruct L as (i & Gi & Bi).
      apply (@get_instance_alloc_old st (OInstance c)) in Gi.
      assert (q = i) by congruence. subst q.
      replace (match last_opt bs with None => s | Some b => b + s end)
        with (begin i + s).
      * apply G. reflexivity.
      * rewrite Bi. destruct bs; [congruence|reflexivity].
Qed.


Lemma insert_all_compose (fuel : nat) (self : loc) (p : Instance)
    (items : list (loc * Q)) :
  forall st st' cs bs,
    tracked st self p cs bs ->
    insert_all fuel self "compose" items st = (Ok tt, st') ->
    exists news,
      List.length news = List.length items /\
      tracked st' self p (cs ++ news)
        (bs ++ map (fun it => begin p + snd it) items).
Proof.
  induction items as [|[component s] rest IH]; intros st st' cs bs T H.
  - injection H as <-. exists []. split; [reflexivity|].
    simpl. rewrite !app_nil_r. exact T.
  - cbn [insert_all] in H. unfold bindM at 1 in H.
    destruct (add_component fuel self component "compose" s st)
      as [[r|e] st1] eqn:E; [|discriminate].
    destruct (@tracked_step fuel st st1 self component r "compose" s p cs bs
                T E) as [T1 _].
    specialize (T1 eq_refl).
    destruct (IH st1 st' _ _ T1 H) as (news & L & T').
    exists (List.length st :: news). split; [simpl; lia|].
    rewrite <- !app_assoc in T'. exact T'.
Qed.


Lemma Forall2_nth {A B : Type} (R : A -> B -> Prop) (xs : list A)
    (ys : list B) :
  Forall2 R xs ys ->
  forall k x, nth_error xs k = Some x ->
    exists y, nth_error ys k = Some y /\ R x y.
Proof.
  induction 1 as [|x y xs ys Hxy H IH]; intros k a Hk.
  - destruct k; discriminate.
  - destruct k as [|k].
    + injection Hk as <-. exists y. split; [reflexivity|exact Hxy].
    + exact (IH k a Hk).
Qed.



(** X22. Under "compose", for children inserted in order with the starts
    [s_1..s_n] into a parent without children, the [i]-th child begins at
    the begin of the parent plus [s_i]: the order of insertion and the
    other children do not matter. *)
Theorem compose_begin_offsets (fuel : nat) (st st' : Store) (self : loc)
    (p : Instance) (items : list (loc * Q)) :
  get_instance st self = Ok p ->
  get_children st (children p) = Ok [] ->
  insert_all fuel self "compose" items st = (Ok tt, st') ->
  exists cs,
    get_children st' (children p) = Ok cs /\
    List.length cs = List.length items /\
    forall k c, nth_error cs k = Some c ->
      exists i it, get_instance st' c = Ok i /\
                   nth_error items k = Some it /\
                   begin i = begin p + snd it.
Proof.
  intros Hp Hcs H.
  assert (T : tracked st self p [] [])
    by (split; [exact Hp|split; [exact Hcs|constructor]]).
  destruct (@insert_all_compose fuel self p items st st' [] [] T H)
    as (cs & L & (_ & Hcs' & T')).
  cbn [app] in *.
  exists cs. split; [exact Hcs'|]. split; [exact L|].
  intros k c Hk.
  destruct (Forall2_nth T' _ Hk) as (b & Hb & (i & Gi & Bi)).
  rewrite nth_error_map in Hb.
  destruct (nth_error items k) as [it|] eqn:Hit; [|discriminate].
  injection Hb as <-.
  exists i, it. split; [exact Gi|]. split; [reflexivity|exact Bi].
Qed.

Lemma compose_begin_offsets_witness :
  exists st' i,
    insert_all 5 1%nat "compose" tape_sound_tape film_tape_sound_store
      = (Ok tt, st') /\
    get_instance st' 9%nat = Ok i /\ begin i = 0.0 + 0.5.
Proof.
  pose (res := insert_all 5 1%nat "compose" tape_sound_tape
                 film_tape_sound_store).
  assert (E : res = (Ok tt, snd res)) by (vm_compute; reflexivity).
  assert (Hp : exists p, get_instance film_tape_sound_store 1%nat = Ok p /\
                         children p = 0%nat /\ begin p = 0.0)
    by (eexists; repeat split; reflexivity).
  destruct Hp as (p & Hp & Hch & Hb).
  assert (Hcs : get_children film_tape_sound_store (children p) = Ok [])
    by (rewrite Hch; reflexivity).
  destruct (@compose_begin_offsets 5%nat film_tape_sound_store (snd res)
              1%nat p tape_sound_tape Hp Hcs E) as (cs & Hcs' & _ & Hk).
  rewrite Hch in Hcs'.
  assert (Ecs : cs = [8%nat; 9%nat; 10%nat]).
  { assert (X : get_children (snd res) 0%nat = Ok [8%nat; 9%nat; 10%nat])
      by (vm_compute; reflexivity).
    congruence. }
  subst cs.
  destruct (Hk 1%nat 9%nat eq_refl) as (i & it & Gi & Hit & B).
  injection Hit as <-. rewrite Hb in B.
  exists (snd res), i.
  split; [exact E|]. split; [exact Gi|exact B].
Defined.

(** ** Adding tapes to a film (film.py) *)

Lemma with_payload_same (i : Instance) (p : Payload) :
  payload i = p -> with_payload i p = i.
Proof. destruct i. simpl. intros <-. reflexivity. Qed.

Lemma when_given_update_tape {A : Type} (o : option A)
    (g : A -> TapeFields -> TapeFields) (st : Store) (l : loc) (i : Instance)
    (t : TapeFields) :
  get_instance st l = Ok (with_payload i (PTape t)) ->
  exists st1,
    when_given o (fun v => update_tape l (g v)) st = (Ok tt, st1) /\
    get_instance st1 l = Ok (with_payload i (PTape (given o g t))) /\
    (forall x, x <> l -> nth_error st1 x = nth_error st x).
Proof.
  intro Hi. destruct o as [v|]; cbn [when_given given].
  - eexists. split; [|split].
    + unfold update_tape, bindM, read, write, as_tape. rewrite Hi.
      cbn [payload with_payload]. reflexivity.
    + cbn [with_payload name begin children].
      eapply get_instance_update_same. exact Hi.
    + intros x N. apply nth_error_update_other. congruence.
  - exists st. split; [reflexivity|]. split; [exact Hi|reflexivity].
Qed.

(** What [apply_attributes] does to a tape [i] at [l] with the effects
    [es]. *)
Lemma apply_attributes_run (st : Store) (l : loc) (i : Instance)
    (t : TapeFields) (es : list Effect) (a : TapeAttributes) :
  get_instance st l = Ok i -> payload i = PTape t ->
  get_effects st (effects t) = Ok es ->
  exists st',
    apply_attributes l a st = (Ok tt, st') /\
    get_instance st' l = Ok (with_payload i (PTape (attributes_applied a t))) /\
    get_effects st' (effects t) = Ok (es ++ given_effects a) /\
    (forall x, x <> l -> x <> effects t -> nth_error st' x = nth_error st x).
Proof.
  intros Hi Hp He.
  assert (Nl : l <> effects t).
  { intro E. unfold get_instance, get_effects in *. rewrite <- E in He.
    destruct (nth_error st l) as [[]|]; discriminate. }
  (* the effects *)
  assert (S0 : exists st0,
    when_given (attr_effects a) (fun new_effects =>
      j <~ read (fun st => get_instance st l) ;;
      u <~ read (fun _ => as_tape j) ;;
      es0 <~ read (fun st => get_effects st (effects u)) ;;
      write (effects u) (OEffects (es0 ++ new_effects))) st = (Ok tt, st0) /\
    get_instance st0 l = Ok (with_payload i (PTape t)) /\
    get_effects st0 (effects t) = Ok (es ++ given_effects a) /\
    (forall x, x <> effects t -> nth_error st0 x = nth_error st x)).
  { unfold given_effects. destruct (attr_effects a) as [new|]; cbn [when_given].
    - eexists. split; [|split; [|split]].
      + unfold bindM, read, write, as_tape. rewrite Hi, Hp, He. reflexivity.
      + rewrite get_instance_update_other by congruence.
        rewrite (with_payload_same _ Hp). exact Hi.
      + unfold get_effects in *. rewrite nth_error_update_same; [reflexivity|].
        apply nth_error_Some. destruct (nth_error st (effects t)); congruence.
      + intros x N. apply nth_error_update_other. congruence.
    - exists st. split; [reflexivity|].
      split; [rewrite (with_payload_same _ Hp); exact Hi|].
      split; [rewrite app_nil_r; exact He|reflexivity]. }
  destruct S0 as (st0 & R0 & I0 & E0 & F0).
  destruct (@when_given_update_tape _ (attr_pos a) set_tape_pos st0 l i t I0)
    as (st1 & R1 & I1 & F1).
  destruct (@when_given_update_tape _ (attr_span a) set_tape_span st1 l i _ I1)
    as (st2 & R2 & I2 & F2).
  destruct (@when_given_update_tape _ (attr_anchor a) set_tape_anchor st2 l i
              _ I2) as (st3 & R3 & I3 & F3).
  destruct (@when_given_update_tape _ (attr_offset a) set_tape_offset st3 l i
              _ I3) as (st4 & R4 & I4 & F4).
  destruct (@when_given_update_tape _ (attr_z_index a) set_tape_layer st4 l i
              _ I4) as (st5 & R5 & I5 & F5).
  exists st5. split; [|split; [|split]].
  - unfold apply_attributes.
    unfold bindM at 1. rewrite R0.
    unfold bindM at 1.
    change (when_given (attr_pos a) _) with
      (when_given (attr_pos a) (fun v => update_tape l (set_tape_pos v))).
    rewrite R1. unfold bindM at 1.
    change (when_given (attr_span a) _) with
      (when_given (attr_span a) (fun v => update_tape l (set_tape_span v))).
    rewrite R2. unfold bindM at 1.
    change (when_given (attr_anchor a) _) with
      (when_given (attr_anchor a) (fun v => update_tape l (set_tape_anchor v))).
    rewrite R3. unfold bindM at 1.
    change (when_given (attr_offset a) _) with
      (when_given (attr_offset a) (fun v => update_tape l (set_tape_offset v))).
    rewrite R4.
    change (when_given (attr_z_index a) _) with
      (when_given (attr_z_index a) (fun v => update_tape l (set_tape_layer v))).
    exact R5.
  - exact I5.
  - unfold get_effects in *.
    rewrite F5, F4, F3, F2, F1 by congruence. exact E0.
  - intros x N1 N2.
    rewrite F5, F4, F3, F2, F1 by congruence. apply F0. exact N2.
Qed.

Lemma add_tape_list_app (fuel : nat) (self : loc) (xs ys : list loc)
    (method : string) (start : Q) (a : TapeAttributes) (st : Store) :
  add_tape_list fuel self (xs ++ ys) method start a st =
    match add_tape_list fuel self xs method start a st with
    | (Ok _, st1) => add_tape_list fuel self ys method start a st1
    | (Raise e, st1) => (Raise e, st1)
    end.
Proof.
  revert st. induction xs as [|x xs IH]; intro st; [reflexivity|].
  cbn [app add_tape_list]. unfold bindM.
  destruct (add_tape_one fuel self x method start a st) as [[r|e] st0];
    [apply IH|reflexivity].
Qed.

(** One successful call of [add_tape] for the tape [c] with the fields [t]
    and the effects [es], on a film [p] with the children [cs]. *)
Lemma add_tape_one_run (fuel : nat) (st st' : Store) (self tape r : loc)
    (method : string) (start : Q) (a : TapeAttributes) (p c : Instance)
    (t : TapeFields) (cs : list loc) (es : list Effect) :
  get_instance st self = Ok p ->
  get_instance st tape = Ok c -> payload c = PTape t ->
  get_children st (children p) = Ok cs ->
  get_effects st (effects t) = Ok es ->
  add_tape_one fuel self tape method start a st = (Ok r, st') ->
  exists v,
    get_instance st' tape = Ok c /\
    get_instance st' (List.length st)
      = Ok (with_payload (with_begin c v) (PTape (attributes_applied a t))) /\
    get_children st' (children p) = Ok (cs ++ [List.length st]) /\
    get_effects st' (effects t) = Ok (es ++ given_effects a).
Proof.
  intros Hp Hc Hpay Hcs He H.
  unfold add_tape_one in H. unfold bindM at 1, read at 1 in H.
  rewrite Hc, Hpay in H. unfold bindM at 1 in H.
  destruct (add_component fuel self tape method start st) as [[r0|e] st1]
    eqn:E; [|discriminate].
  destruct (@add_component_success fuel st st1 self tape r0 method start
              p c cs Hp Hc Hcs E) as [v ->].
  unfold bindM at 1, read at 1 in H.
  rewrite (@inserted_instance st p c cs v self p Hcs Hp) in H.
  unfold bindM at 1, read at 1 in H.
  rewrite (@inserted_children st p c cs v Hcs) in H.
  unfold bindM at 1, read at 1 in H.
  rewrite (@getitem_last _ (cs ++ [List.length st]) O) in H
    by (destruct cs; discriminate).
  rewrite last_last in H.
  pose proof (get_instance_bound _ _ Hc) as Bt.
  pose proof (proj1 (get_instance_nth _ _ _) Hc) as Nt.
  pose proof (proj1 (get_children_nth _ _ _) Hcs) as Nc.
  pose proof (get_children_bound _ _ Hcs) as Bc.
  assert (Ne : exists o, nth_error st (effects t) = Some (OEffects o)).
  { unfold get_effects in He.
    destruct (nth_error st (effects t)) as [[]|]; try discriminate.
    eexists; reflexivity. }
  destruct Ne as [o Ne].
  assert (Be : (effects t < List.length st)%nat)
    by (apply nth_error_Some; congruence).
  assert (He1 : get_effects (inserted st p cs c v) (effects t) = Ok es).
  { unfold get_effects in *. rewrite inserted_other; [exact He|exact Be|].
    intro X. rewrite X in Ne. congruence. }
  destruct (@apply_attributes_run (inserted st p cs c v) (List.length st)
              (with_begin c v) t es a (inserted_child st p c cs v) Hpay He1)
    as (st2 & R & I & Ef & Fr).
  unfold bindM at 1 in H. rewrite R in H.
  unfold ret in H. injection H as _ <-.
  exists v. split; [|split; [exact I|split; [|exact Ef]]].
  - apply get_instance_nth. rewrite Fr.
    + apply get_instance_nth.
      apply (@inserted_instance st p c cs v tape c Hcs Hc).
    + lia.
    + intro X. rewrite X in Nt. congruence.
  - pose proof (@inserted_children st p c cs v Hcs) as K.
    unfold get_children in *. rewrite Fr; [exact K| |].
    + lia.
    + intro X. rewrite X in Nc. congruence.
Qed.

Lemma effects_attributes_applied (a : TapeAttributes) (t : TapeFields) :
  effects (attributes_applied a t) = effects t.
Proof.
  unfold attributes_applied, given.
  destruct (attr_z_index a), (attr_offset a), (attr_anchor a), (attr_span a),
    (attr_pos a); reflexivity.
Qed.

Lemma tape_fields_inv (st : Store) (l : loc) (t : TapeFields) :
  tape_fields st l = Ok t ->
  exists c, get_instance st l = Ok c /\ payload c = PTape t.
Proof.
  unfold tape_fields, bind, as_tape. intro H.
  destruct (get_instance st l) as [c|]; [|discriminate].
  exists c. split; [reflexivity|].
  destruct (payload c); try discriminate. congruence.
Qed.

(** X23. [add_tape] given something that is not a Tape raises TypeError and
    leaves the objects as they are; given a list, it has by then inserted
    the tapes that precede the offending element, and they stay inserted. *)
Theorem add_tape_rejects_non_tape (fuel : nat) (st st1 : Store)
    (self bad r : loc) (good rest : list loc) (method : string) (start : Q)
    (a : TapeAttributes) (i : Instance) :
  add_tape fuel self (Many good) method start a st = (Ok r, st1) ->
  get_instance st1 bad = Ok i -> as_tape i = Raise TypeError ->
  add_tape fuel self (One bad) method start a st1 = (Raise TypeError, st1) /\
  add_tape fuel self (Many (good ++ bad :: rest)) method start a st
    = (Raise TypeError, st1).
Proof.
  intros H Hi Ha. cbn [add_tape] in *.
  assert (R : add_tape_one fuel self bad method start a st1
              = (Raise TypeError, st1)).
  { unfold add_tape_one, bindM, read. rewrite Hi. unfold as_tape in Ha.
    destruct (payload i); try reflexivity. discriminate. }
  split; [exact R|].
  rewrite add_tape_list_app, H. cbn [add_tape_list]. unfold bindM.
  rewrite R. reflexivity.
Qed.

Lemma add_tape_rejects_non_tape_witness :
  exists st1,
    add_tape 5 1%nat (Many [5%nat]) "concat" 0
      (mkTapeAttributes None None None None None None) film_tape_sound_store
      = (Ok 1%nat, st1) /\
    List.length st1 = 9%nat /\
    add_tape 5 1%nat (Many [5%nat; 7%nat; 5%nat]) "concat" 0
      (mkTapeAttributes None None None None None None) film_tape_sound_store
      = (Raise TypeError, st1).
Proof.
  pose (res := add_tape 5 1%nat (Many [5%nat]) "concat" 0
                 (mkTapeAttributes None None None None None None)
                 film_tape_sound_store).
  assert (E : res = (Ok 1%nat, snd res)) by (vm_compute; reflexivity).
  exists (snd res). split; [exact E|]. split; [vm_compute; reflexivity|].
  exact (proj2 (@add_tape_rejects_non_tape 5%nat film_tape_sound_store
                  (snd res) 1%nat 7%nat 1%nat [5%nat] [5%nat] "concat" 0
                  (mkTapeAttributes None None None None None None) _
                  E eq_refl eq_refl)).
Defined.

(** X24. The effects passed to [add_tape] are appended in place to the
    effects list the inserted copy shares with the caller's tape: after the
    call the copy and the caller's original both carry the old effects
    followed by the new ones. *)
Theorem add_tape_effects_shared (fuel : nat) (st st' : Store)
    (self tape r : loc) (method : string) (start : Q) (a : TapeAttributes)
    (p : Instance) (cs : list loc) (es new : list Effect) :
  get_instance st self = Ok p ->
  get_children st (children p) = Ok cs ->
  tape_effects st tape = Ok es ->
  attr_effects a = Some new ->
  add_tape fuel self (One tape) method start a st = (Ok r, st') ->
  exists k,
    get_children st' (children p) = Ok (cs ++ [k]) /\
    tape_effects st' k = Ok (es ++ new) /\
    tape_effects st' tape = Ok (es ++ new).
Proof.
  intros Hp Hcs Hes Hn H. cbn [add_tape] in H.
  unfold tape_effects, bind in Hes.
  destruct (get_instance st tape) as [c|] eqn:Hc; [|discriminate].
  destruct (as_tape c) as [t|] eqn:Ht; [|discriminate].
  assert (Hpay : payload c = PTape t).
  { unfold as_tape in Ht. destruct (payload c); try discriminate.
    congruence. }
  destruct (@add_tape_one_run fuel st st' self tape r method start a p c t
              cs es Hp Hc Hpay Hcs Hes H) as (v & I0 & I1 & C1 & E1).
  unfold given_effects in E1. rewrite Hn in E1.
  exists (List.length st). split; [exact C1|].
  unfold tape_effects, bind. rewrite I1, I0, Ht. unfold as_tape.
  cbn [payload with_payload]. rewrite effects_attributes_applied.
  split; exact E1.
Qed.

Lemma add_tape_effects_shared_witness :
  exists st' k,
    add_tape 5 1%nat (One 5%nat) "compose" 0
      (mkTapeAttributes (Some [double_speed]) None None None None None)
      film_tape_sound_store = (Ok 1%nat, st') /\
    get_children st' 0%nat = Ok [k] /\
    tape_effects st' k = Ok [double_speed] /\
    tape_effects st' 5%nat = Ok [double_speed].
Proof.
  pose (res := add_tape 5 1%nat (One 5%nat) "compose" 0
                 (mkTapeAttributes (Some [double_speed]) None None None None
                    None) film_tape_sound_store).
  assert (E : res = (Ok 1%nat, snd res)) by (vm_compute; reflexivity).
  destruct (@add_tape_effects_shared 5%nat film_tape_sound_store (snd res)
              1%nat 5%nat 1%nat "compose" 0
              (mkTapeAttributes (Some [double_speed]) None None None None
                 None) _ [] [] [double_speed]
              eq_refl eq_refl eq_refl eq_refl E) as (k & K1 & K2 & K3).
  exists (snd res), k.
  split; [exact E|]. split; [exact K1|]. split; [exact K2|exact K3].
Defined.

(** X25. The placement attributes passed to [add_tape] (pos, span, anchor,
    offset, z_index) are assigned to the inserted copy, which is the last
    child of the film; the caller's tape keeps its own. *)
Theorem add_tape_attributes_on_copy (fuel : nat) (st st' : Store)
    (self tape r : loc) (method : string) (start : Q) (a : TapeAttributes)
    (p : Instance) (cs : list loc) (t : TapeFields) (es : list Effect) :
  get_instance st self = Ok p ->
  get_children st (children p) = Ok cs ->
  tape_fields st tape = Ok t ->
  get_effects st (effects t) = Ok es ->
  add_tape fuel self (One tape) method start a st = (Ok r, st') ->
  exists k,
    get_children st' (children p) = Ok (cs ++ [k]) /\
    tape_fields st' k = Ok (attributes_applied a t) /\
    tape_fields st' tape = Ok t.
Proof.
  intros Hp Hcs Ht Hes H. cbn [add_tape] in H.
  destruct (tape_fields_inv _ _ Ht) as (c & Hc & Hpay).
  destruct (@add_tape_one_run fuel st st' self tape r method start a p c t
              cs es Hp Hc Hpay Hcs Hes H) as (v & I0 & I1 & C1 & _).
  exists (List.length st). split; [exact C1|].
  unfold tape_fields, bind. rewrite I1, I0. unfold as_tape.
  cbn [payload with_payload]. rewrite Hpay. split; reflexivity.
Qed.

Lemma add_tape_attributes_on_copy_witness :
  exists st' k t',
    add_tape 5 1%nat (One 5%nat) "compose" 0
      (mkTapeAttributes None (Some (2, 3)) None (Some "center"%string) None
         (Some 4%Z)) film_tape_sound_store = (Ok 1%nat, st') /\
    get_children st' 0%nat = Ok [k] /\
    tape_fields st' k = Ok t' /\
    tape_pos t' = (2, 3) /\ tape_anchor t' = "center"%string /\
    tape_span t' = (1, 1) /\ clip_layer_index (tape_clip t') = 4%Z /\
    exists t, tape_fields st' 5%nat = Ok t /\
              tape_pos t = (0, 0) /\ tape_anchor t = "topleft"%string.
Proof.
  pose (res := add_tape 5 1%nat (One 5%nat) "compose" 0
                 (mkTapeAttributes None (Some (2, 3)) None
                    (Some "center"%string) None (Some 4%Z))
                 film_tape_sound_store).
  assert (E : res = (Ok 1%nat, snd res)) by (vm_compute; reflexivity).
  destruct (@add_tape_attributes_on_copy 5%nat film_tape_sound_store (snd res)
              1%nat 5%nat 1%nat "compose" 0
              (mkTapeAttributes None (Some (2, 3)) None
                 (Some "center"%string) None (Some 4%Z)) _ [] _ []
              eq_refl eq_refl eq_refl eq_refl E) as (k & K1 & K2 & K3).
  exists (snd res), k. eexists.
  split; [exact E|]. split; [exact K1|]. split; [exact K2|].
  repeat (split; [reflexivity|]).
  eexists. split; [exact K3|]. split; reflexivity.
Defined.

(** ** Background music (screen.py, sound.py) *)

Lemma with_fade_run (st : Store) (self : loc) (i : Instance)
    (s : SoundFields) (fi fo : option Q) :
  get_instance st self = Ok i -> payload i = PSound s ->
  with_fade self fi fo st
  = (Ok self,
     update st self (OInstance (with_payload i
       (PSound {| sound_clip := sound_clip s;
                  adjust_to_clip := adjust_to_clip s;
                  start_offset := start_offset s;
                  fadein := fi; fadeout := fo |})))).
Proof.
  intros Hi Hp. unfold with_fade, bindM, read, write, as_sound.
  rewrite Hi, Hp. reflexivity.
Qed.

Lemma with_start_offset_run (st : Store) (self : loc) (i : Instance)
    (s : SoundFields) (offset : Q) :
  get_instance st self = Ok i -> payload i = PSound s ->
  with_start_offset self offset st
  = (Ok self,
     update st self (OInstance (with_payload i
       (PSound {| sound_clip := sound_clip s;
                  adjust_to_clip := adjust_to_clip s;
                  start_offset := Some offset;
                  fadein := fadein s; fadeout := fadeout s |})))).
Proof.
  intros Hi Hp. unfold with_start_offset, bindM, read, write, as_sound.
  rewrite Hi, Hp. reflexivity.
Qed.

(** X26. [add_bg_music] works on a copy of the sound: the copy gets the
    fades and the start offset and becomes the screen's background music,
    the caller's sound is as before. The composition and the total duration
    the screen has cached are kept as they are. *)
Theorem add_bg_music_copies_sound (st : Store) (self sound : loc)
    (fi fo so : Q) (i j : Instance) (s : ScreenFields) (m : SoundFields) :
  get_instance st self = Ok i -> payload i = PScreen s ->
  get_instance st sound = Ok j -> payload j = PSound m ->
  exists st' music s',
    add_bg_music self sound fi fo so st = (Ok self, st') /\
    music <> sound /\
    get_instance st' sound = Ok j /\
    get_instance st' music
      = Ok (with_payload j
              (PSound {| sound_clip := sound_clip m;
                         adjust_to_clip := adjust_to_clip m;
                         start_offset := Some so;
                         fadein := Some fi; fadeout := Some fo |})) /\
    get_instance st' self = Ok (with_payload i (PScreen s')) /\
    bg_music s' = Some music /\
    _end s' = _end s /\ total_duration s' = total_duration s /\
    bg_music_set_up st' s'.
Proof.
  intros Hi Hp Hj Hm.
  pose proof (get_instance_bound _ _ Hi) as Bi.
  pose proof (get_instance_bound _ _ Hj) as Bj.
  set (n := List.length st).
  set (st0 := st ++ [OInstance j]).
  assert (J0 : get_instance st0 n = Ok j) by apply get_instance_alloc_new.
  pose proof (@with_fade_run st0 n j m (Some fi) (Some fo) J0 Hm) as R1.
  match type of R1 with
  | _ = (_, update _ _ (OInstance ?x)) => set (j1 := x) in *
  end.
  set (st1 := update st0 n (OInstance j1)) in *.
  assert (J1 : get_instance st1 n = Ok j1)
    by (eapply get_instance_update_same; exact J0).
  pose proof (@with_start_offset_run st1 n j1 _ so J1 eq_refl) as R2.
  cbn [sound_clip adjust_to_clip fadein fadeout] in R2.
  match type of R2 with
  | _ = (_, update _ _ (OInstance ?x)) => set (j2 := x) in *
  end.
  set (st2 := update st1 n (OInstance j2)) in *.
  assert (J2 : get_instance st2 n = Ok j2)
    by (eapply get_instance_update_same; exact J1).
  assert (Old : forall l x, (l < n)%nat -> get_instance st l = Ok x ->
                            get_instance st2 l = Ok x).
  { intros l x B H. unfold st2, st1.
    rewrite !get_instance_update_other by lia.
    apply get_instance_alloc_old. exact H. }
  pose proof (Old _ _ Bi Hi) as I2.
  set (f := fun s0 : ScreenFields =>
    {| size := size s0; fps := fps s0; bgcolor := bgcolor s0;
       BACKGROUND := BACKGROUND s0; grid := grid s0;
       bg_music := Some n; total_duration := total_duration s0;
       _end := _end s0; _audio_end := _audio_end s0 |}).
  exists (update st2 self (OInstance (with_payload i (PScreen (f s))))), n,
    (f s).
  assert (Nn : self <> n) by (unfold n; lia).
  assert (J3 : get_instance
                 (update st2 self (OInstance (with_payload i (PScreen (f s)))))
                 n = Ok j2)
    by (rewrite get_instance_update_other by exact Nn; exact J2).
  split.
  { unfold add_bg_music, copy. unfold bindM at 1, bindM at 1, read at 1.
    rewrite Hj. unfold alloc. fold n. fold st0.
    unfold bindM at 1. rewrite R1. unfold bindM at 1. rewrite R2.
    unfold bindM at 1.
    rewrite (@update_screen_run st2 self i s _ I2 Hp). reflexivity. }
  split; [unfold n; lia|].
  split.
  { rewrite get_instance_update_other.
    - apply Old; assumption.
    - intro E. subst sound. rewrite Hi in Hj. injection Hj as <-.
      rewrite Hp in Hm. discriminate. }
  split; [exact J3|].
  split; [eapply get_instance_update_same; exact I2|].
  split; [reflexivity|]. split; [reflexivity|]. split; [reflexivity|].
  unfold bg_music_set_up. cbn [bg_music f].
  exists j2. eexists. exists so. split; [exact J3|]. split; reflexivity.
Qed.

Lemma add_bg_music_copies_sound_witness :
  exists st' music,
    add_bg_music 1%nat 3%nat 0.5 1 2 screen_and_sound_store
      = (Ok 1%nat, st') /\
    music <> 3%nat /\
    get_instance st' 3%nat = get_instance screen_and_sound_store 3%nat.
Proof.
  destruct (@add_bg_music_copies_sound screen_and_sound_store 1%nat 3%nat
              0.5 1 2 _ _ _ _ eq_refl eq_refl eq_refl eq_refl)
    as (st' & music & s' & R & N & K & _).
  exists st', music. split; [exact R|]. split; [exact N|exact K].
Defined.

(** ** The composition (screen.py) *)

Lemma compose_tape_stamped (fuel : nat) (st : Store) (g : GridSystem)
    (tape : loc) (r : Clip * list AudioClip) :
  compose_tape fuel st g tape = Ok r -> stamped st tape (fst r).
Proof.
  unfold compose_tape. intro H.
  destruct (get_instance st tape) as [i|] eqn:Hi; [|discriminate].
  cbn [bind] in H.
  destruct (as_tape i) as [t|] eqn:Ht; [|discriminate]. cbn [bind] in H.
  assert (Hp : payload i = PTape t).
  { unfold as_tape in Ht. destruct (payload i); try discriminate.
    congruence. }
  cbv zeta in H.
  destruct (get_animations st (animations t)) as [an|]; [|discriminate].
  cbn [bind] in H.
  match type of H with
  | bind ?m _ = _ => destruct m as [clip1|] eqn:Epos; [|discriminate]
  end.
  cbn [bind] in H.
  assert (T : clip_duration clip1 = clip_duration (tape_clip t) /\
              clip_layer_index clip1 = clip_layer_index (tape_clip t) /\
              clip_start clip1 = clip_start (tape_clip t)).
  { unfold bind in Epos.
    repeat match type of Epos with
    | match ?x with _ => _ end = _ => destruct x
    | (if ?b then _ else _) = _ => destruct b
    end; try discriminate; injection Epos as <-; repeat split. }
  destruct T as (T1 & T2 & T3).
  destruct (get_effects st (effects t)) as [es|] eqn:He; [|discriminate].
  cbn [bind] in H.
  destruct (get_children st (children i)) as [sounds|]; [|discriminate].
  cbn [bind] in H.
  destruct (lifetime fuel st tape) as [tl|]; [|discriminate].
  cbn [bind] in H.
  destruct (tape_sounds st (begin i) tl sounds) as [audio|]; [|discriminate].
  cbn [bind] in H. injection H as <-. cbn [fst].
  exists i, t, es, clip1. split; [exact Hi|]. split; [exact Hp|].
  split; [exact He|]. split; [exact T1|]. split; [exact T2|].
  split; [exact T3|].
  destruct es, (custom_start t); reflexivity.
Qed.

Lemma compose_tapes_stamped (fuel : nat) (st : Store) (g : GridSystem)
    (tapes : list loc) (r : list Clip * list AudioClip) :
  compose_tapes fuel st g tapes = Ok r -> Forall2 (stamped st) tapes (fst r).
Proof.
  revert r. induction tapes as [|tape rest IH]; intros r H.
  - injection H as <-. constructor.
  - cbn [compose_tapes] in H.
    destruct (compose_tape fuel st g tape) as [x|] eqn:E; [|discriminate].
    cbn [bind] in H.
    destruct (compose_tapes fuel st g rest) as [more|]; [|discriminate].
    cbn [bind] in H. injection H as <-. cbn [fst].
    constructor; [eapply compose_tape_stamped; exact E|apply IH; reflexivity].
Qed.

Lemma compose_films_stamped (fuel : nat) (st : Store) (g : GridSystem)
    (films : list loc) (r : list Clip * list AudioClip) :
  compose_films fuel st g films = Ok r ->
  exists tapes, screen_tapes st films = Ok tapes /\
                Forall2 (stamped st) tapes (fst r).
Proof.
  revert r. induction films as [|film rest IH]; intros r H.
  - injection H as <-. exists []. split; [reflexivity|constructor].
  - cbn [compose_films screen_tapes] in *.
    destruct (get_instance st film) as [f|]; [|discriminate].
    cbn [bind] in *.
    destruct (get_children st (children f)) as [tapes|]; [|discriminate].
    cbn [bind] in *.
    destruct (compose_tapes fuel st g tapes) as [x|] eqn:E; [|discriminate].
    cbn [bind] in H.
    destruct (compose_films fuel st g rest) as [more|]; [|discriminate].
    cbn [bind] in H. injection H as <-. cbn [fst].
    destruct (IH more eq_refl) as (ts & -> & F). cbn [bind].
    exists (tapes ++ ts). split; [reflexivity|].
    apply Forall2_app; [eapply compose_tapes_stamped; exact E|exact F].
Qed.

Lemma get_children_update_instance (st : Store) (self l : loc)
    (i i' : Instance) :
  get_instance st self = Ok i ->
  get_children (update st self (OInstance i')) l = get_children st l.
Proof.
  intro Hi. unfold get_children. destruct (Nat.eq_dec self l) as [<-|N].
  - rewrite nth_error_update_same by (eapply get_instance_bound; exact Hi).
    apply get_instance_nth in Hi. rewrite Hi. reflexivity.
  - rewrite nth_error_update_other by exact N. reflexivity.
Qed.

Lemma screen_tapes_update (st : Store) (self : loc) (i i' : Instance)
    (films : list loc) :
  get_instance st self = Ok i -> children i' = children i ->
  screen_tapes (update st self (OInstance i')) films = screen_tapes st films.
Proof.
  intros Hi Hc. induction films as [|film rest IH]; [reflexivity|].
  cbn [screen_tapes]. rewrite IH.
  destruct (Nat.eq_dec self film) as [<-|N].
  - rewrite (@get_instance_update_same st self i i' Hi), Hi. cbn [bind].
    rewrite Hc, (@get_children_update_instance st self _ i i' Hi).
    reflexivity.
  - rewrite get_instance_update_other by exact N.
    destruct (get_instance st film) as [f|]; [|reflexivity]. cbn [bind].
    rewrite (@get_children_update_instance st self _ i i' Hi). reflexivity.
Qed.

Lemma stamped_update (st : Store) (self l : loc) (i i' : Instance)
    (s' : ScreenFields) (c : Clip) :
  get_instance st self = Ok i -> payload i' = PScreen s' ->
  stamped (update st self (OInstance i')) l c -> stamped st l c.
Proof.
  intros Hi Hp (x & t & es & c0 & Hx & Ht & He & K). exists x, t, es, c0.
  assert (Hx0 : get_instance st l = Ok x).
  { destruct (Nat.eq_dec self l) as [<-|N].
    - rewrite (@get_instance_update_same st self i i' Hi) in Hx.
      injection Hx as <-. congruence.
    - rewrite get_instance_update_other in Hx by exact N. exact Hx. }
  split; [exact Hx0|]. split; [exact Ht|]. split; [|exact K].
  unfold get_effects in *.
  destruct (Nat.eq_dec self (effects t)) as [E|N].
  - rewrite <- E in He.
    rewrite nth_error_update_same in He
      by (eapply get_instance_bound; exact Hi).
    discriminate.
  - rewrite nth_error_update_other in He by exact N. exact He.
Qed.

(** A call of [compose] that returns, on a screen [i] with the films
    [films]. *)
Lemma compose_run (fuel : nat) (st st' : Store) (self r : loc)
    (i : Instance) (s : ScreenFields) (films : list loc) :
  get_instance st self = Ok i -> payload i = PScreen s ->
  get_children st (children i) = Ok films ->
  compose fuel self st = (Ok r, st') ->
  exists total tapes layers s' e,
    r = self /\ films <> [] /\
    finish fuel st self = Ok total /\
    screen_tapes st films = Ok tapes /\
    Forall2 (stamped st) tapes layers /\
    get_instance st' self = Ok (with_payload i (PScreen s')) /\
    total_duration s' = Some total /\ fps s' = fps s /\
    _end s' = Some e /\
    video_layers e = with_duration (BACKGROUND s) total :: layers.
Proof.
  intros Hi Hp Hc H.
  unfold compose in H.
  unfold bindM at 1, read at 1 in H. rewrite Hi in H.
  unfold bindM at 1, read at 1, as_screen in H. rewrite Hp in H.
  unfold bindM at 1, read at 1 in H. rewrite Hc in H.
  destruct films as [|film rest]; [discriminate|].
  assert (L : (len (film :: rest) =? 0)%Z = false)
    by (apply Z.eqb_neq; unfold len; cbn [List.length]; lia).
  rewrite L in H.
  unfold bindM at 1, read at 1 in H.
  destruct (finish fuel st self) as [total|]; [|discriminate].
  unfold bindM at 1 in H.
  rewrite (@update_screen_run st self i s _ Hi Hp) in H.
  match type of H with
  | context [update st self (OInstance ?x)] => set (i1 := x) in *
  end.
  set (st1 := update st self (OInstance i1)) in *.
  assert (Hi1 : get_instance st1 self = Ok i1)
    by (eapply get_instance_update_same; exact Hi).
  unfold bindM at 1, read at 1 in H.
  destruct (compose_films fuel st1 (grid s) (film :: rest)) as [layers|]
    eqn:El; [|discriminate].
  destruct (compose_films_stamped _ _ _ _ El) as (tapes & Et & Fs).
  unfold st1 in Et. rewrite (@screen_tapes_update st self i i1 _ Hi eq_refl) in Et.
  assert (Fs0 : Forall2 (stamped st) tapes (fst layers)).
  { eapply Forall2_impl; [|exact Fs]. intros a b.
    apply (@stamped_update st self a i i1 _ b Hi eq_refl). }
  unfold bindM at 1 in H.
  rewrite (@update_screen_run st1 self i1 _ _ Hi1 eq_refl) in H.
  match type of H with
  | context [update st1 self (OInstance ?x)] => set (i2 := x) in *
  end.
  set (st2 := update st1 self (OInstance i2)) in *.
  assert (Hi2 : get_instance st2 self = Ok i2)
    by (eapply get_instance_update_same; exact Hi1).
  unfold bindM at 1, read at 1 in H.
  destruct (compose_bg_music st2 s total) as [music|]; [|discriminate].
  exists total, tapes, (fst layers).
  destruct (snd layers ++ music) as [|a l].
  - injection H as <- <-. do 2 eexists.
    split; [reflexivity|]. split; [discriminate|]. split; [reflexivity|].
    split; [exact Et|]. split; [exact Fs0|].
    split; [exact Hi2|]. repeat split.
  - unfold bindM at 1 in H.
    rewrite (@update_screen_run st2 self i2 _ _ Hi2 eq_refl) in H.
    injection H as <- <-. do 2 eexists.
    split; [reflexivity|]. split; [discriminate|]. split; [reflexivity|].
    split; [exact Et|]. split; [exact Fs0|].
    split; [eapply get_instance_update_same; exact Hi2|]. repeat split.
Qed.

Lemma same_but_refl (self : loc) (st : Store) : same_but self st st.
Proof. split; reflexivity. Qed.

Lemma same_but_trans (self : loc) (st1 st2 st3 : Store) :
  same_but self st1 st2 -> same_but self st2 st3 -> same_but self st1 st3.
Proof.
  intros (L1 & F1) (L2 & F2). split; [congruence|].
  intros l N. rewrite F2, F1 by exact N. reflexivity.
Qed.

Lemma update_screen_same_but (self : loc) (f : ScreenFields -> ScreenFields)
    (st st' : Store) (r : result unit) :
  update_screen self f st = (r, st') -> same_but self st st'.
Proof.
  unfold update_screen, bindM, read, write. intro H.
  destruct (get_instance st self) as [i|];
    [|injection H as <- <-; apply same_but_refl].
  destruct (as_screen i) as [s|];
    [|injection H as <- <-; apply same_but_refl].
  injection H as <- <-. split; [apply update_length|].
  intros l N. apply nth_error_update_other. congruence.
Qed.

Lemma compose_same_but (fuel : nat) (st st' : Store) (self : loc)
    (r : result loc) :
  compose fuel self st = (r, st') -> same_but self st st'.
Proof.
  intro H. unfold compose in H.
  unfold bindM at 1, read at 1 in H.
  destruct (get_instance st self) as [i|];
    [|injection H as <- <-; apply same_but_refl].
  unfold bindM at 1, read at 1 in H.
  destruct (as_screen i) as [s|];
    [|injection H as <- <-; apply same_but_refl].
  unfold bindM at 1, read at 1 in H.
  destruct (get_children st (children i)) as [films|];
    [|injection H as <- <-; apply same_but_refl].
  destruct (len films =? 0)%Z; [injection H as <- <-; apply same_but_refl|].
  unfold bindM at 1, read at 1 in H.
  destruct (finish fuel st self) as [total|];
    [|injection H as <- <-; apply same_but_refl].
  unfold bindM at 1 in H.
  match type of H with
  | context [update_screen self ?f st] =>
      destruct (update_screen self f st) as [[u|e] st1] eqn:E1
  end.
  2:{ injection H as <- <-. eapply update_screen_same_but; exact E1. }
  apply update_screen_same_but in E1.
  unfold bindM at 1, read at 1 in H.
  destruct (compose_films fuel st1 (grid s) films) as [layers|];
    [|injection H as <- <-; exact E1].
  unfold bindM at 1 in H.
  match type of H with
  | context [update_screen self ?f st1] =>
      destruct (update_screen self f st1) as [[u2|e] st2] eqn:E2
  end.
  2:{ injection H as <- <-. eapply same_but_trans; [exact E1|].
      eapply update_screen_same_but; exact E2. }
  apply update_screen_same_but in E2.
  pose proof (same_but_trans E1 E2) as E12.
  unfold bindM at 1, read at 1 in H.
  destruct (compose_bg_music st2 s total) as [music|];
    [|injection H as <- <-; exact E12].
  destruct (snd layers ++ music) as [|a l].
  { injection H as <- <-. exact E12. }
  unfold bindM at 1 in H.
  match type of H with
  | context [update_screen self ?f st2] =>
      destruct (update_screen self f st2) as [[u3|e] st3] eqn:E3
  end; apply update_screen_same_but in E3;
    injection H as <- <-; eapply same_but_trans; eassumption.
Qed.

(** X27. [compose] assigns attributes of the screen only: whether it
    returns or raises, every other object (each film, tape, sound, children
    list, effects list and AnimationSet) is afterwards as it was, and no
    object is created. *)
Theorem compose_changes_only_screen (fuel : nat) (st st' : Store)
    (self l : loc) (r : result loc) :
  compose fuel self st = (r, st') -> l <> self ->
  List.length st' = List.length st /\ nth_error st' l = nth_error st l.
Proof.
  intros H N. destruct (@compose_same_but fuel st st' self r H) as (L & F).
  split; [exact L|apply F; exact N].
Qed.


(** X29. After a call of [compose] that returns, [get_end_video], [show],
    [preview] and [render] pass the guard: each hands the cached composition
    to the backend and leaves the objects as they are, and [render] writes
    with the frame rate the screen was created with. *)
Theorem queries_after_compose (fuel : nat) (st st' : Store) (self r : loc)
    (i : Instance) (s : ScreenFields) (films : list loc) :
  get_instance st self = Ok i -> payload i = PScreen s ->
  get_children st (children i) = Ok films ->
  compose fuel self st = (Ok r, st') ->
  exists s' e,
    get_instance st' self = Ok (with_payload i (PScreen s')) /\
    _end s' = Some e /\
    get_end_video self st' = (Ok (Some (e, return_clip)), st') /\
    show self st' = (Ok (Some (e, show_clip)), st') /\
    preview self st' = (Ok (Some (e, preview_clip)), st') /\
    forall filename codec bitrate threads,
      render self filename codec bitrate threads st'
      = (Ok (Some (e, write_videofile filename (fps s) codec bitrate threads)),
         st').
Proof.
  intros Hi Hp Hc H.
  destruct (@compose_run fuel st st' self r i s films Hi Hp Hc H)
    as (total & tapes & layers & s' & e & _ & _ & _ & _ & _ & Hi' & _ & Hfps
        & He & _).
  exists s', e. split; [exact Hi'|]. split; [exact He|].
  unfold get_end_video, show, preview, render, _ensure_ready, on_end, bindM,
    read, as_screen, ret.
  rewrite Hi'. cbn [payload with_payload]. rewrite He. cbv beta iota.
  rewrite Hi'. cbn [payload with_payload]. rewrite He, Hfps.
  repeat split.
Qed.

Lemma compose_changes_only_screen_witness :
  List.length (snd (compose 5 1%nat screen_with_film_store))
    = List.length screen_with_film_store /\
  nth_error (snd (compose 5 1%nat screen_with_film_store)) 9%nat
    = nth_error screen_with_film_store 9%nat.
Proof.
  pose (res := compose 5 1%nat screen_with_film_store).
  assert (E : res = (fst res, snd res)) by (destruct res; reflexivity).
  assert (N : 9%nat <> 1%nat) by lia.
  exact (@compose_changes_only_screen 5%nat screen_with_film_store (snd res)
           1%nat 9%nat (fst res) E N).
Defined.


Lemma queries_after_compose_witness :
  exists e,
    get_end_video 1%nat (snd (compose 5 1%nat screen_with_film_store))
      = (Ok (Some (e, return_clip)),
         snd (compose 5 1%nat screen_with_film_store)) /\
    render 1%nat "out.mp4" "libx264" "8000k" 4%Z
        (snd (compose 5 1%nat screen_with_film_store))
      = (Ok (Some (e, write_videofile "out.mp4" 24%Z "libx264" "8000k" 4%Z)),
         snd (compose 5 1%nat screen_with_film_store)).
Proof.
  pose (res := compose 5 1%nat screen_with_film_store).
  assert (E : res = (Ok 1%nat, snd res)) by (vm_compute; reflexivity).
  destruct (@queries_after_compose 5%nat screen_with_film_store (snd res)
              1%nat 1%nat _ _ [9%nat] eq_refl eq_refl eq_refl E)
    as (s' & e & _ & _ & Hg & _ & _ & Hr).
  exists e. split; [exact Hg|apply Hr].
Defined.

(** ** Films on a screen (screen.py) *)

(** X30. [add_film] rejects a film that has no tapes with ValueError and
    leaves the objects as they are. When it returns, the screen has one more
    child, a copy of the film with its own begin, and every instance that
    was there, each tape of the film among them, is as before: the start
    given to [add_film] moves no tape. *)
Theorem add_film_moves_no_tape (fuel : nat) (st : Store) (self film : loc)
    (method : string) (start : Q) (p f : Instance) (cs tapes : list loc) :
  get_instance st self = Ok p ->
  get_children st (children p) = Ok cs ->
  get_instance st film = Ok f ->
  get_children st (children f) = Ok tapes ->
  (tapes = [] ->
   add_film fuel self film method start st = (Raise ValueError, st)) /\
  (forall r st',
     add_film fuel self film method start st = (Ok r, st') ->
     tapes <> [] /\
     get_children st' (children p) = Ok (cs ++ [List.length st]) /\
     (exists v, get_instance st' (List.length st) = Ok (with_begin f v)) /\
     forall l x, get_instance st l = Ok x -> get_instance st' l = Ok x).
Proof.
  intros Hp Hcs Hf Ht. split.
  - intros ->. unfold add_film, bindM, read. rewrite Hf, Ht. reflexivity.
  - intros r st' H. unfold add_film in H.
    unfold bindM at 1, read at 1 in H. rewrite Hf in H.
    unfold bindM at 1, read at 1 in H. rewrite Ht in H.
    destruct tapes as [|t ts]; [discriminate|].
    assert (L : (len (t :: ts) =? 0)%Z = false)
      by (apply Z.eqb_neq; unfold len; cbn [List.length]; lia).
    rewrite L in H. unfold bindM at 1 in H.
    destruct (add_component fuel self film method start st) as [[r0|e] st1]
      eqn:E; [|discriminate].
    injection H as _ <-.
    destruct (@add_component_success fuel st st1 self film r0 method start
                p f cs Hp Hf Hcs E) as [v ->].
    split; [discriminate|].
    split; [apply inserted_children; exact Hcs|].
    split; [exists v; apply inserted_child|].
    intros l x Hl. apply inserted_instance; assumption.
Qed.

Lemma add_film_moves_no_tape_witness :
  exists st',
    add_film 5 8%nat 1%nat "compose" 10 screen_and_film_store
      = (Ok 8%nat, st') /\
    get_children st' 7%nat = Ok [9%nat] /\
    get_instance st' 6%nat = get_instance screen_and_film_store 6%nat.
Proof.
  pose (res := add_film 5 8%nat 1%nat "compose" 10 screen_and_film_store).
  assert (E : res = (Ok 8%nat, snd res)) by (vm_compute; reflexivity).
  destruct (proj2 (@add_film_moves_no_tape 5%nat screen_and_film_store 8%nat
                     1%nat "compose" 10 _ _ [] [6%nat] eq_refl eq_refl
                     eq_refl eq_refl) 8%nat (snd res) E)
    as (_ & K1 & _ & K2).
  exists (snd res). split; [exact E|]. split; [exact K1|].
  exact (K2 6%nat _ eq_refl).
Defined.
